(** * mapkureader: tiled download, patchify and geo transforms

  A shallow embedding of the acquisition pipeline of mapkureader
  ([load/downloader.py], [load/images.py], [load/geo.py]) and of the
  patch grid display ([utils/vis.py]), and the properties its
  specification states about it.

  Conventions of the embedding:
  - Python [int] is [Z]; Python [float] is an exact rational [Q]
    (binary64 rounding is not modelled, every float that occurs is
    taken as the rational it denotes and arithmetic on it is exact);
  - a numpy array is a nested list, outermost axis first; the shape is
    read off the lists;
  - an exception is a value of [exn], a function that can raise returns
    a [result];
  - the network is a function from the requested region to the decoded
    image the server answers with, and the requests made are logged;
  - a JSON document is a value of [json], and what is drawn on a figure
    is a list of events. *)

From Stdlib Require Import ZArith QArith Qround Qfield Lia Bool.
From stdpp Require Import base tactics option list numbers sorting strings.

Local Open Scope Z_scope.

(** ** Python built-ins *)

Module Py.

Inductive exn : Type :=
| ZeroDivisionError
| ValueError
| URLError
| TransformNotInvertibleError.

Inductive result (A : Type) : Type :=
| Ok (a : A)
| Raise (e : exn).
Arguments Ok {A} a.
Arguments Raise {A} e.

Definition rbind {A B} (r : result A) (k : A -> result B) : result B :=
  match r with
  | Ok a => k a
  | Raise e => Raise e
  end.

(** [math.ceil(n / d)] for ints [n], [d] with [d <> 0]: the true division
    is exact in the model, so this is the ceiling of the quotient.
    [Z.div] floors, like Python's [//]. *)
Definition ceil_div (n d : Z) : Z := - ((- n) / d).

(** [math.ceil(n / d)], raising on a zero divisor as [/] does. *)
Definition math_ceil_truediv (n d : Z) : result Z :=
  if d =? 0 then Raise ZeroDivisionError else Ok (ceil_div n d).

(** [range(n)]: empty when [n <= 0]. *)
Definition range (n : Z) : list Z :=
  Z.of_nat <$> seq 0 (Z.to_nat n).

(** [range(start, stop, step)] for a positive [step]: the values
    [start + i*step] below [stop]; there are [ceil((stop-start)/step)]
    of them, none when that is not positive. *)
Definition range3 (start stop step : Z) : list Z :=
  (fun i => start + Z.of_nat i * step)
    <$> seq 0 (Z.to_nat (ceil_div (stop - start) step)).

(** Bound of a slice [a[lo:hi]] on an axis of length [len]: a negative
    bound counts from the end, and every bound is clipped to the axis. *)
Definition slice_bound (len i : Z) : Z :=
  if i <? 0 then Z.max 0 (i + len) else Z.min i len.

Definition slice_start {A} (lo : Z) (l : list A) : nat :=
  Z.to_nat (slice_bound (Z.of_nat (length l)) lo).

Definition slice_stop {A} (hi : Z) (l : list A) : nat :=
  Z.to_nat (slice_bound (Z.of_nat (length l)) hi).

(** [l[lo:hi]] *)
Definition slice {A} (lo hi : Z) (l : list A) : list A :=
  take (slice_stop hi l - slice_start lo l) (drop (slice_start lo l) l).

(** [int(q)] on a float: truncation toward zero. *)
Definition int_of_float (q : Q) : Z :=
  if Qle_bool 0 q then Qfloor q else Qceiling q.

(** [round(q)] on a float: to the nearest integer, ties to even. *)
Definition round_half_even (q : Q) : Z :=
  let fl := Qfloor q in
  let fr := (q - inject_Z fl)%Q in
  match Qcompare fr (1 # 2) with
  | Lt => fl
  | Gt => fl + 1
  | Eq => if Z.even fl then fl else fl + 1
  end.

End Py.

(** ** load/geo.py *)

Module Geo.
Import Py.
Local Open Scope Q_scope.

(** The six coefficients of [affine.Affine]:
    [x' = a*x + b*y + c], [y' = d*x + e*y + f]. *)
Record Affine : Type := mkAffine {
  a : Q; b : Q; c : Q;
  d : Q; e : Q; f : Q
}.

Record Bounds : Type := mkBounds {
  left : Q; bottom : Q; right : Q; top : Q
}.

(** [transform * (x, y)] *)
Definition affine_mul (t : Affine) (p : Q * Q) : Q * Q :=
  let '(x, y) := p in
  (x * a t + y * b t + c t, x * d t + y * e t + f t).

Definition determinant (t : Affine) : Q := a t * e t - b t * d t.

Definition is_degenerate (t : Affine) : bool := Qeq_bool (determinant t) 0.

(** [~transform]: [Affine.__invert__] raises on a degenerate
    transform and otherwise builds the inverse from [1/determinant]. *)
Definition affine_invert (t : Affine) : result Affine :=
  if is_degenerate t then Raise TransformNotInvertibleError
  else
    let idet := 1 / determinant t in
    let ra := e t * idet in
    let rb := - b t * idet in
    let rd := - d t * idet in
    let re := a t * idet in
    Ok (mkAffine ra rb (- c t * ra - f t * rb)
                 rd re (- c t * rd - f t * re)).

Definition pixel_to_geo (x y : Q) (transform : Affine) : Q * Q :=
  let '(geo_x, geo_y) := affine_mul transform (x, y) in
  (geo_x, geo_y).

Definition geo_to_pixel (geo_x geo_y : Q) (transform : Affine)
  : result (Q * Q) :=
  rbind (affine_invert transform) (fun inv_transform =>
  let '(px, py) := affine_mul inv_transform (geo_x, geo_y) in
  Ok (px, py)).

Definition get_patch_geo_bounds (pixel_x pixel_y patch_w patch_h : Z)
           (transform : Affine) : Bounds :=
  let '(left, top) :=
    pixel_to_geo (inject_Z pixel_x) (inject_Z pixel_y) transform in
  let '(right, bottom) :=
    pixel_to_geo (inject_Z (pixel_x + patch_w))
                 (inject_Z (pixel_y + patch_h)) transform in
  mkBounds left bottom right top.

End Geo.

(** ** numpy arrays as nested lists *)

Module Np.
Import Py.

(** [a.shape[0]] *)
Definition shape0 {A} (a : list A) : Z := Z.of_nat (length a).

(** [a.shape[1]]. An array without rows has lost its row length in this
    representation and reports 0; the code reads [shape[1]] of such an
    array only to compare it with 0 next to [shape[0] == 0]. *)
Definition shape1 {A} (a : list (list A)) : Z :=
  match a with
  | [] => 0
  | r :: _ => Z.of_nat (length r)
  end.

(** [a.shape[2]] of an array with three axes, with the same proviso. *)
Definition shape2 {A} (a : list (list (list A))) : Z :=
  match a with
  | (p :: _) :: _ => Z.of_nat (length p)
  | _ => 0
  end.

(** Every row has [w] entries. *)
Definition rect {A} (w : Z) (a : list (list A)) : Prop :=
  Forall (fun r => Z.of_nat (length r) = w) a.

(** [f] on every entry of the first two axes. *)
Definition map2 {A B} (f : A -> B) (a : list (list A)) : list (list B) :=
  fmap (M := list) f <$> a.

(** [a[y0:y1, x0:x1]] *)
Definition slice2 {A} (y0 y1 x0 x1 : Z) (a : list (list A))
  : list (list A) :=
  slice x0 x1 <$> slice y0 y1 a.

(** [a[r, c]] when both indices are in range. *)
Definition getitem2 {A} (a : list (list A)) (r c : nat) : option A :=
  a !! r ≫= (fun row => row !! c).

(** [np.zeros((h, w, 3), dtype=np.uint8)]: negative dimensions are
    refused. *)
Definition zeros3 (h w : Z) : result (list (list (list Z))) :=
  if (h <? 0) || (w <? 0) then Raise ValueError
  else Ok (replicate (Z.to_nat h) (replicate (Z.to_nat w) (replicate 3 0))).

(** Broadcasting of one axis: a source axis fits a destination axis of
    the same length, and an axis of length 1 is repeated. *)
Definition bcast_ok (s d : Z) : bool := (s =? d) || (s =? 1).

Definition bcast_idx (s : Z) (i : nat) : nat := if s =? 1 then 0%nat else i.

Definition bcast_pixel (s : Z) (px : list Z) : list Z :=
  if s =? 1 then replicate 3 (default 0 (head px)) else px.

(** [canvas[y0:y1, x0:x1] = src] for a canvas of three-channel pixels:
    the destination is the clipped slice; the source must broadcast to
    its shape or the assignment raises; rows and columns outside the
    slice are kept (and so is a pixel whose source entry is missing, which
    a rectangular source never has). *)
Definition setitem_slice2 (canvas : list (list (list Z)))
           (y0 y1 x0 x1 : Z) (src : list (list (list Z)))
  : result (list (list (list Z))) :=
  let r0 := slice_bound (shape0 canvas) y0 in
  let r1 := slice_bound (shape0 canvas) y1 in
  let c0 := slice_bound (shape1 canvas) x0 in
  let c1 := slice_bound (shape1 canvas) x1 in
  let dh := Z.max 0 (r1 - r0) in
  let dw := Z.max 0 (c1 - c0) in
  let sh := shape0 src in
  let sw := shape1 src in
  let sc := shape2 src in
  if bcast_ok sh dh && bcast_ok sw dw && bcast_ok sc 3 then
    Ok (imap (fun r row =>
          if (r0 <=? Z.of_nat r) && (Z.of_nat r <? r1) then
            imap (fun c px =>
              if (c0 <=? Z.of_nat c) && (Z.of_nat c <? c1) then
                match getitem2 src (bcast_idx sh (r - Z.to_nat r0))
                                   (bcast_idx sw (c - Z.to_nat c0)) with
                | Some v => bcast_pixel sc v
                | None => px
                end
              else px) row
          else row) canvas)
  else Raise ValueError.

End Np.

(** ** load/images.py *)

Module Images.
Import Py Geo Np.

(** Only [dtype == np.uint8] is ever tested. *)
Inductive dtype : Type := uint8 | other_dtype.

(** Pixel data: [H x W] samples, or [H x W x C] with a channel axis. *)
Inductive ndarray : Type :=
| Arr2 (dt : dtype) (rows : list (list Z))
| Arr3 (dt : dtype) (rows : list (list (list Z))).

Definition nd_dtype (a : ndarray) : dtype :=
  match a with Arr2 dt _ | Arr3 dt _ => dt end.

Definition nd_shape0 (a : ndarray) : Z :=
  match a with Arr2 _ r => shape0 r | Arr3 _ r => shape0 r end.

Definition nd_shape1 (a : ndarray) : Z :=
  match a with Arr2 _ r => shape1 r | Arr3 _ r => shape1 r end.

Definition nd_slice2 (y0 y1 x0 x1 : Z) (a : ndarray) : ndarray :=
  match a with
  | Arr2 dt r => Arr2 dt (slice2 y0 y1 x0 x1 r)
  | Arr3 dt r => Arr3 dt (slice2 y0 y1 x0 x1 r)
  end.

Definition nd_rect (w : Z) (a : ndarray) : Prop :=
  match a with Arr2 _ r => rect w r | Arr3 _ r => rect w r end.

(** A patch. [parent_path], the file name of the parent image, is left
    out. *)
Record Patch : Type := mkPatch {
  image : ndarray;
  pixel_bounds : Z * Z * Z * Z;   (* (x, y, width, height) *)
  geo_bounds : option Bounds;
  row : Z;
  col : Z
}.

(** A map image. [path], the file the pixels came from, is left out; a
    CRS is identified by a number. *)
Record MapImage : Type := mkMapImage {
  data : ndarray;
  crs : option nat;
  transform : option Affine
}.

Definition height (self : MapImage) : Z := nd_shape0 (data self).
Definition width (self : MapImage) : Z := nd_shape1 (data self).

Definition is_georeferenced (self : MapImage) : bool :=
  bool_decide (is_Some (crs self)) && bool_decide (is_Some (transform self)).

(** [np.mean] of a boolean array: the fraction of [True], and [nan]
    ([None]) for an empty array. *)
Definition mean_bool (l : list bool) : option Q :=
  match l with
  | [] => None
  | _ => Some (Z.of_nat (length (filter (fun b => b = true) l))
               # Pos.of_nat (length l))
  end.

(** [m > threshold]; a comparison with [nan] is false. *)
Definition float_gt (m : option Q) (threshold : Q) : bool :=
  match m with
  | Some r => negb (Qle_bool r threshold)
  | None => false
  end.

Definition _is_blank (patch : ndarray) (threshold : Q) : bool :=
  let blank_ratio :=
    match nd_dtype patch with
    | uint8 =>
        let white_pixels : list (list bool) :=
          match patch with
          | Arr3 _ r => map2 (forallb (fun v => 250 <=? v)) r
          | Arr2 _ r => map2 (fun v => 250 <=? v) r
          end in
        mean_bool (mjoin white_pixels)
    | other_dtype =>
        match patch with
        | Arr3 _ r => mean_bool ((fun v => v =? 0) <$> mjoin (mjoin r))
        | Arr2 _ r => mean_bool ((fun v => v =? 0) <$> mjoin r)
        end
    end in
  float_gt blank_ratio threshold.

(** One pass of the inner loop body at [(x, y)]: the list of patches and
    the column counter before, and after. *)
Definition patchify_cell (self : MapImage) (patch_size : Z)
           (blank_threshold : Q) (skip_blank : bool)
           (y row_idx : Z) (st : list Patch * Z) (x : Z)
  : list Patch * Z :=
  let '(patches, col_idx) := st in
  let patch_data :=
    nd_slice2 y (y + patch_size) x (x + patch_size) (data self) in
  let ph := nd_shape0 patch_data in
  let pw := nd_shape1 patch_data in
  if (ph =? 0) || (pw =? 0) then (patches, col_idx + 1)
  else if skip_blank && _is_blank patch_data blank_threshold
  then (patches, col_idx + 1)
  else
    let geo_bounds :=
      if is_georeferenced self then
        (fun t => get_patch_geo_bounds x y pw ph t) <$> transform self
      else None in
    (patches ++ [mkPatch patch_data (x, y, pw, ph) geo_bounds
                         row_idx col_idx],
     col_idx + 1).

(** One pass of the outer loop body at [y]. *)
Definition patchify_row (self : MapImage) (patch_size stride : Z)
           (blank_threshold : Q) (skip_blank : bool)
           (st : list Patch * Z) (y : Z) : list Patch * Z :=
  let '(patches, row_idx) := st in
  let '(patches, _) :=
    fold_left (patchify_cell self patch_size blank_threshold skip_blank
                             y row_idx)
              (range3 0 (width self) stride) (patches, 0) in
  (patches, row_idx + 1).

Definition patchify (self : MapImage) (patch_size overlap : Z)
           (blank_threshold : Q) (skip_blank : bool)
  : result (list Patch) :=
  let stride := patch_size - overlap in
  if stride <=? 0 then Raise ValueError
  else
    let '(patches, _) :=
      fold_left (patchify_row self patch_size stride
                              blank_threshold skip_blank)
                (range3 0 (height self) stride) ([], 0) in
    Ok patches.

End Images.

(** ** load/downloader.py *)

Module Downloader.
Import Py Np Images.

(** The mode of a decoded [PIL.Image]: grey or colour, with or without
    alpha, 8 bits a band. Palette, CMYK and wider modes are not modelled. *)
Inductive mode : Type := L | LA | RGB | RGBA.

Record PILImage : Type := mkPIL {
  im_mode : mode;
  im_data : list (list (list Z))     (* rows of pixels, a list of bands each *)
}.

(** [Image.convert("RGB")] on one pixel: grey is repeated on the three
    bands, an alpha band is dropped. *)
Definition convert_RGB_pixel (m : mode) (px : list Z) : list Z :=
  match m with
  | L | LA => replicate 3 (nth 0 px 0)
  | RGB | RGBA => [nth 0 px 0; nth 1 px 0; nth 2 px 0]
  end.

Definition convert_RGB (im : PILImage) : PILImage :=
  mkPIL RGB (map2 (convert_RGB_pixel (im_mode im)) (im_data im)).

(** [np.array(img)] *)
Definition np_array (im : PILImage) : list (list (list Z)) := im_data im.

(** The size part of an image request. *)
Inductive size_param : Type :=
| SizeFull                       (* full *)
| SizeFit (w h : Z)              (* !w,h *)
| SizeExact (w h : Z).           (* w,h  *)

(** The region part of an image request. *)
Inductive region_param : Type :=
| RegionFull                     (* full *)
| Region (x y w h : Z).          (* x,y,w,h *)

(** [{image_service_url}/{region}/{size}/0/default.jpg] *)
Record url : Type := mkUrl {
  url_region : region_param;
  url_size : size_param
}.

(** The downloader, with the fields the requests depend on: the service
    URL, the scale factors, the label and the output directory are left
    out. *)
Record IIIFDownloader : Type := mkIIIF {
  width : Z;
  height : Z;
  tile_size : Z
}.

(** Code that fetches: the requests made so far are threaded through,
    and an exception ends the computation. *)
Definition M (A : Type) : Type := list url -> list url * result A.

Definition ret {A} (a : A) : M A := fun log => (log, Ok a).

Definition bind {A B} (m : M A) (k : A -> M B) : M B :=
  fun log =>
    match m log with
    | (log', Ok a) => k a log'
    | (log', Raise e) => (log', Raise e)
    end.

Definition lift {A} (r : result A) : M A := fun log => (log, r).

Notation "'let!' x ':=' m 'in' k" := (bind m (fun x => k))
  (at level 10, x name, m at level 200, k at level 200).

(** [for i in l: acc = body(acc, i)] *)
Fixpoint for_ {A S} (l : list A) (acc : S) (body : S -> A -> M S) : M S :=
  match l with
  | [] => ret acc
  | i :: l' => let! acc' := body acc i in for_ l' acc' body
  end.

Section WithServer.

(** What the image service answers to a request: a decoded image, or
    nothing when the request fails. *)
Variable server : url -> option PILImage.

Definition _fetch_image (u : url) : M PILImage :=
  fun log =>
    (log ++ [u],
     match server u with
     | Some img => Ok (convert_RGB img)
     | None => Raise URLError
     end).

(** The region requested for grid cell [(row, col)]. *)
Definition tile_region (self : IIIFDownloader) (row col : Z)
  : Z * Z * Z * Z :=
  let tile_sz := tile_size self in
  let x := col * tile_sz in
  let y := row * tile_sz in
  let w := Z.min tile_sz (width self - x) in
  let h := Z.min tile_sz (height self - y) in
  (x, y, w, h).

(** Lines 179-181: the tile is written at [(x, y)] with the
    dimensions it came back with. *)
Definition stitch (canvas : list (list (list Z))) (x y : Z)
           (tile_arr : list (list (list Z)))
  : result (list (list (list Z))) :=
  let th := shape0 tile_arr in
  let tw := shape1 tile_arr in
  setitem_slice2 canvas y (y + th) x (x + tw)
                 (map2 (take 3) tile_arr).

(** The body of the two loops for one grid cell. *)
Definition download_tile (self : IIIFDownloader)
           (canvas : list (list (list Z))) (row col : Z)
  : M (list (list (list Z))) :=
  let '(x, y, w, h) := tile_region self row col in
  let! tile_img := _fetch_image (mkUrl (Region x y w h) SizeFull) in
  let tile_arr := np_array tile_img in
  lift (stitch canvas x y tile_arr).

(** [_download_tiled], without the optional saving to disk. *)
Definition _download_tiled (self : IIIFDownloader) : M MapImage :=
  let tile_sz := tile_size self in
  let! cols := lift (math_ceil_truediv (width self) tile_sz) in
  let! rows := lift (math_ceil_truediv (height self) tile_sz) in
  let! canvas := lift (zeros3 (height self) (width self)) in
  let! canvas := for_ (range rows) canvas (fun canvas row =>
              for_ (range cols) canvas (fun canvas col =>
                download_tile self canvas row col)) in
  ret (mkMapImage (Arr3 uint8 canvas) None None).

(** [_download_scaled], without the optional saving to disk. The
    decoded image becomes the pixel data as it is. *)
Definition _download_scaled (self : IIIFDownloader) (max_size : Z)
  : M MapImage :=
  let! img := _fetch_image (mkUrl RegionFull (SizeFit max_size max_size)) in
  ret (mkMapImage (Arr3 uint8 (np_array img)) None None).

Definition download (self : IIIFDownloader) (max_size : option Z)
  : M MapImage :=
  match max_size with
  | Some m =>
      if negb (m =? 0) && (m <? Z.max (width self) (height self))
      then _download_scaled self m
      else _download_tiled self
  | None => _download_tiled self
  end.

(** The size part that [get_region] builds. *)
Definition region_size (w h : Z) (scale : Q) : size_param :=
  if negb (Qle_bool 1 scale) then
    let sw := Z.max 1 (int_of_float (inject_Z w * scale)) in
    let sh := Z.max 1 (int_of_float (inject_Z h * scale)) in
    SizeExact sw sh
  else SizeFull.

Definition get_region (self : IIIFDownloader) (x y w h : Z) (scale : Q)
  : M (list (list (list Z))) :=
  let size := region_size w h scale in
  let! img := _fetch_image (mkUrl (Region x y w h) size) in
  ret (np_array img).

End WithServer.

End Downloader.

(** ** The specification's vocabulary *)

Module Spec.
Import Py Geo Np Images Downloader.

(** *** Region requests *)

(** The size part as the specification words it: the scaled extent
    rounded to the nearest integer. *)
Definition region_size_rounded (w h : Z) (scale : Q) : size_param :=
  if negb (Qle_bool 1 scale) then
    SizeExact (Z.max 1 (round_half_even (inject_Z w * scale)))
              (Z.max 1 (round_half_even (inject_Z h * scale)))
  else SizeFull.

(** [s] is the extent [n * scale] cut to an integer toward zero and
    raised to 1 when that is smaller. *)
Definition truncated_extent (n : Z) (scale : Q) (s : Z) : Prop :=
  1 <= s /\
  ((inject_Z n * scale < 1)%Q -> s = 1) /\
  ((1 <= inject_Z n * scale)%Q ->
   (inject_Z s <= inject_Z n * scale < inject_Z s + 1)%Q).

(** *** The patch grid *)

(** Number of outer and of inner steps of [patchify]. *)
Definition grid_rows (self : MapImage) (stride : Z) : nat :=
  Z.to_nat (ceil_div (Images.height self) stride).

Definition grid_cols (self : MapImage) (stride : Z) : nat :=
  Z.to_nat (ceil_div (Images.width self) stride).

(** The patch of grid position [(r, c)], if that position emits one:
    it is labelled with its grid position. *)
Definition candidate (self : MapImage) (patch_size stride : Z)
           (blank_threshold : Q) (skip_blank : bool) (r c : nat)
  : option Patch :=
  let x := Z.of_nat c * stride in
  let y := Z.of_nat r * stride in
  let patch_data :=
    nd_slice2 y (y + patch_size) x (x + patch_size) (data self) in
  let ph := nd_shape0 patch_data in
  let pw := nd_shape1 patch_data in
  if (ph =? 0) || (pw =? 0) then None
  else if skip_blank && _is_blank patch_data blank_threshold then None
  else
    Some (mkPatch patch_data (x, y, pw, ph)
            (if is_georeferenced self then
               (fun t => get_patch_geo_bounds x y pw ph t) <$> transform self
             else None)
            (Z.of_nat r) (Z.of_nat c)).

(** No grid position is skipped for being blank: blank patches are not
    skipped at all, or no patch of the grid is blank. *)
Definition none_blank_skipped (self : MapImage) (patch_size stride : Z)
           (blank_threshold : Q) (skip_blank : bool) : Prop :=
  forall r c : nat,
    (r < grid_rows self stride)%nat -> (c < grid_cols self stride)%nat ->
    let x := Z.of_nat c * stride in
    let y := Z.of_nat r * stride in
    skip_blank
    && _is_blank (nd_slice2 y (y + patch_size) x (x + patch_size) (data self))
                 blank_threshold
    = false.

(** The emitted patches of one grid row, left to right. *)
Definition grid_row_patches (self : MapImage) (patch_size stride : Z)
           (blank_threshold : Q) (skip_blank : bool) (r : nat)
  : list Patch :=
  omap (candidate self patch_size stride blank_threshold skip_blank r)
       (seq 0 (grid_cols self stride)).

(** The emitted patches in row-major order of grid positions. *)
Definition grid_patches (self : MapImage) (patch_size stride : Z)
           (blank_threshold : Q) (skip_blank : bool) : list Patch :=
  mjoin (grid_row_patches self patch_size stride
                           blank_threshold skip_blank
            <$> seq 0 (grid_rows self stride)).

(** Grid position of a patch, and the row-major order on positions. *)
Definition grid_pos (p : Patch) : Z * Z := (row p, col p).

Definition row_major_lt (a b : Z * Z) : Prop :=
  a.1 < b.1 \/ (a.1 = b.1 /\ a.2 < b.2).

(** All positions of a grid of [rows] by [cols], row by row. *)
Definition grid_positions (rows cols : nat) : list (Z * Z) :=
  mjoin ((fun r => (fun c => (Z.of_nat r, Z.of_nat c)) <$> seq 0 cols)
           <$> seq 0 rows).

(** The pixel [(px, py)] lies in the rectangle of [p]. *)
Definition covers (p : Patch) (px py : Z) : Prop :=
  let '(x, y, w, h) := pixel_bounds p in
  x <= px < x + w /\ y <= py < y + h.

(** A pixel is white when every channel is at least 250. *)
Definition white (px : list Z) : Prop := Forall (fun v => 250 <= v) px.

#[global] Instance white_dec px : Decision (white px).
Proof. unfold white. apply _. Defined.

(** Fraction of white pixels among [pxs]. *)
Definition white_ratio (pxs : list (list Z)) : Q :=
  Z.of_nat (length (filter white pxs)) # Pos.of_nat (length pxs).

(** A property of every sample of an array. *)
Definition nd_all (P : Z -> Prop) (a : ndarray) : Prop :=
  match a with
  | Arr2 _ r => Forall (Forall P) r
  | Arr3 _ r => Forall (Forall (Forall P)) r
  end.

(** *** The tile grid *)

(** The request for the tile of grid cell [(row, col)]. *)
Definition tile_request (self : IIIFDownloader) (row col : Z) : url :=
  let t := tile_size self in
  let x := col * t in
  let y := row * t in
  mkUrl (Region x y (Z.min t (Downloader.width self - x))
                    (Z.min t (Downloader.height self - y)))
        SizeFull.

(** The requests of a tiled download: [ceil(height/tile_size)] rows of
    [ceil(width/tile_size)] tiles, row by row. *)
Definition tile_requests (self : IIIFDownloader) : list url :=
  mjoin ((fun r => (fun c => tile_request self r c)
                     <$> range (ceil_div (Downloader.width self)
                                         (tile_size self)))
           <$> range (ceil_div (Downloader.height self) (tile_size self))).

(** The array the canvas receives for a request. *)
Definition tile_of (server : url -> option PILImage) (u : url)
  : option (list (list (list Z))) :=
  (fun img => np_array (convert_RGB img)) <$> server u.

(** The server answers every tile request of the grid with an image of
    the requested extent. *)
Definition serves_requested_extents (server : url -> option PILImage)
           (self : IIIFDownloader) : Prop :=
  forall row col,
    0 <= row < ceil_div (Downloader.height self) (tile_size self) ->
    0 <= col < ceil_div (Downloader.width self) (tile_size self) ->
    exists img,
      server (tile_request self row col) = Some img /\
      shape0 (im_data img)
      = Z.min (tile_size self)
              (Downloader.height self - row * tile_size self) /\
      rect (Z.min (tile_size self)
                  (Downloader.width self - col * tile_size self))
           (im_data img).

(** The pixel [(px, py)] lies in the rectangle that a tile of the
    extent of [tile_arr] occupies at offset [(x, y)]. *)
Definition in_tile (x y : Z) (tile_arr : list (list (list Z)))
           (px py : Z) : Prop :=
  y <= py < y + shape0 tile_arr /\ x <= px < x + shape1 tile_arr.

(** The pixel lies in the rectangle written for the answer to [u]. *)
Definition written (server : url -> option PILImage) (u : url)
           (px py : Z) : Prop :=
  match url_region u, tile_of server u with
  | Region x y _ _, Some tile_arr => in_tile x y tile_arr px py
  | _, _ => False
  end.

(** A property of every pixel of an array. *)
Definition pixels_all (P : list Z -> Prop) (a : list (list (list Z)))
  : Prop :=
  forall r c px, getitem2 a r c = Some px -> P px.

Definition uint8_sample (v : Z) : Prop := 0 <= v < 256.

(** The server answers with 8-bit images only. *)
Definition server_8bit (server : url -> option PILImage) : Prop :=
  forall u img, server u = Some img ->
    Forall (Forall (Forall uint8_sample)) (im_data img).

(** The pixel of the source tile that covers canvas position [(r, c)],
    read at the coordinate translated by the tile's offset. *)
Definition tile_pixel (server : url -> option PILImage)
           (self : IIIFDownloader) (r c : nat) : option (list Z) :=
  let t := tile_size self in
  let row := Z.of_nat r / t in
  let col := Z.of_nat c / t in
  tile_of server (tile_request self row col) ≫= fun tile_arr =>
  getitem2 tile_arr (r - Z.to_nat (row * t)) (c - Z.to_nat (col * t)).

(** The canvas has the shape of the image and shows, in the grid cells
    that are [done], the pixels of their tiles. *)
Definition reconstructed (server : url -> option PILImage)
           (self : IIIFDownloader) (done : Z -> Z -> Prop)
           (canvas : list (list (list Z))) : Prop :=
  shape0 canvas = Downloader.height self /\
  rect (Downloader.width self) canvas /\
  forall r c : nat,
    Z.of_nat r < Downloader.height self ->
    Z.of_nat c < Downloader.width self ->
    done (Z.of_nat r / tile_size self) (Z.of_nat c / tile_size self) ->
    is_Some (getitem2 canvas r c) /\
    getitem2 canvas r c = tile_pixel server self r c.

(** What holds of the canvas of a [height] by [width] download while
    the requests [log] have been answered and written: its shape, its
    pixels of three 8-bit bands, and zeros wherever nothing was
    written. *)
Definition stitched (server : url -> option PILImage) (height width : Z)
           (canvas : list (list (list Z))) (log : list url) : Prop :=
  shape0 canvas = height /\
  rect width canvas /\
  pixels_all (fun px => length px = 3%nat /\
                        (server_8bit server -> Forall uint8_sample px))
             canvas /\
  forall (r c : nat) px,
    getitem2 canvas r c = Some px ->
    (forall u, u ∈ log -> ~ written server u (Z.of_nat c) (Z.of_nat r)) ->
    px = [0; 0; 0].

End Spec.

(** ** Sample inputs *)

Module Examples.
Import Py Geo Np Images Downloader.

(** A north-up transform: half a unit per pixel, origin at (100, 200). *)
Definition north_up : Affine :=
  mkAffine (1 # 2) 0 100 0 (- (1 # 2)) 200.

(** A 5 x 3 grey raster whose top-left 2 x 2 block is white. *)
Definition sheet : MapImage :=
  mkMapImage (Arr2 uint8 [[255; 255; 0; 0; 9];
                          [255; 255; 0; 0; 9];
                          [1; 1; 255; 255; 9]]) None None.

(** A 4 x 2 grey raster without white pixels. *)
Definition dark_sheet : MapImage :=
  mkMapImage (Arr2 uint8 [[1; 2; 3; 4]; [5; 6; 7; 8]]) None None.

(** A 2 x 2 colour raster, all samples 255. *)
Definition white_sheet : MapImage :=
  mkMapImage (Arr3 uint8 (replicate 2 (replicate 2 [255; 255; 255])))
             None None.

(** A server that answers a region request with a grey image of the
    requested extent. *)
Definition grey_server (u : url) : option PILImage :=
  match url_region u with
  | Region x y w h =>
      Some (mkPIL L (replicate (Z.to_nat h)
                       (replicate (Z.to_nat w) [(x + y) mod 256])))
  | RegionFull => None
  end.

(** A server whose answers are one column wider than requested. *)
Definition wide_server (u : url) : option PILImage :=
  match url_region u with
  | Region x y w h =>
      Some (mkPIL RGB (replicate (Z.to_nat h)
                         (replicate (Z.to_nat (w + 1)) [9; 9; 9])))
  | RegionFull => None
  end.

End Examples.

(** ** load/images.py, continued *)

Module ImagesMore.
Import Py Geo Np Images.

(** The [bounds] property of [MapImage]. *)
Definition bounds (self : MapImage) : option Bounds :=
  if is_georeferenced self then
    (fun t => get_patch_geo_bounds 0 0 (width self) (height self) t)
      <$> transform self
  else None.

End ImagesMore.

(** ** More vocabulary *)

Module Extra.
Import Py Geo Np Images Downloader Spec.

(** The pixel at row [r], column [c] of an array, as its list of
    samples. *)
Definition nd_pixel (a : ndarray) (r c : nat) : option (list Z) :=
  match a with
  | Arr2 _ rows => (fun v => [v]) <$> getitem2 rows r c
  | Arr3 _ rows => getitem2 rows r c
  end.

(** A property of every pixel of an array. *)
Definition nd_pixels_all (P : list Z -> Prop) (a : ndarray) : Prop :=
  match a with
  | Arr2 _ rows => Forall (Forall (fun v => P [v])) rows
  | Arr3 _ rows => Forall (Forall P) rows
  end.

End Extra.

(** ** Python values read from JSON *)

Module PyVal.
Import Py.

(** The exceptions of the code that resolves a service. *)
Inductive exc : Type :=
| AttributeError
| TypeError
| KeyError
| IndexError
| ValueError
| URLError.

Inductive res (A : Type) : Type :=
| Val (a : A)
| Err (e : exc).
Arguments Val {A} a.
Arguments Err {A} e.

Definition res_bind {A B} (r : res A) (k : A -> res B) : res B :=
  match r with
  | Val a => k a
  | Err e => Err e
  end.

Notation "'try!' x ':=' r 'in' k" := (res_bind r (fun x => k))
  (at level 10, x name, r at level 200, k at level 200).

(** What [json.loads] returns: [None], a [bool], an [int], a finite
    [float], a [str] (one element of the string per character, so the
    characters are those below 256), a [list], or a [dict] in insertion
    order, its keys distinct. *)
#[warnings="-register-all"]
Inductive json : Type :=
| JNull
| JBool (b : bool)
| JInt (n : Z)
| JFloat (q : Q)
| JStr (s : string)
| JList (l : list json)
| JDict (d : list (string * json)).

(** [bool(v)] *)
Definition truthy (v : json) : bool :=
  match v with
  | JNull => false
  | JBool b => b
  | JInt n => negb (n =? 0)
  | JFloat q => negb (Qeq_bool q 0)
  | JStr s => negb (String.eqb s "")
  | JList l => match l with [] => false | _ => true end
  | JDict d => match d with [] => false | _ => true end
  end.

(** The value under key [k] of a dict. *)
Fixpoint dict_lookup (k : string) (d : list (string * json)) : option json :=
  match d with
  | [] => None
  | (k', v) :: d' => if String.eqb k' k then Some v else dict_lookup k d'
  end.

(** [v.get(k, dflt)]: only a dict has [get]. *)
Definition get (v : json) (k : string) (dflt : json) : res json :=
  match v with
  | JDict d => Val (default dflt (dict_lookup k d))
  | _ => Err AttributeError
  end.

(** [v[k]] for a string key. *)
Definition getitem (v : json) (k : string) : res json :=
  match v with
  | JDict d =>
      match dict_lookup k d with
      | Some x => Val x
      | None => Err KeyError
      end
  | _ => Err TypeError
  end.

(** The characters of a string, one string each. *)
Fixpoint chars (s : string) : list json :=
  match s with
  | EmptyString => []
  | String a s' => JStr (String a EmptyString) :: chars s'
  end.

(** [v[0]] *)
Definition getitem0 (v : json) : res json :=
  match v with
  | JList (x :: _) => Val x
  | JList [] => Err IndexError
  | JStr (String a _) => Val (JStr (String a EmptyString))
  | JStr EmptyString => Err IndexError
  | JDict _ => Err KeyError
  | _ => Err TypeError
  end.

(** [k in v] for a string [k]: a key of a dict, an element of a list, a
    substring of a string. *)
Definition contains (v : json) (k : string) : res bool :=
  match v with
  | JDict d => Val (bool_decide (is_Some (dict_lookup k d)))
  | JList l =>
      Val (existsb (fun x => match x with
                             | JStr s => String.eqb s k
                             | _ => false
                             end) l)
  | JStr s => Val (bool_decide (is_Some (String.index 0 k s)))
  | _ => Err TypeError
  end.

(** What [for x in v] runs over: the elements of a list, the keys of a
    dict, the characters of a string. *)
Definition iter (v : json) : res (list json) :=
  match v with
  | JList l => Val l
  | JDict d => Val ((fun kv => JStr kv.1) <$> d)
  | JStr s => Val (chars s)
  | _ => Err TypeError
  end.

(** [a or b], with [b] evaluated only when [a] is false. *)
Definition py_or (a : json) (b : res json) : res json :=
  if truthy a then Val a else b.

(** [s.rstrip("/")] on a string *)
Fixpoint rstrip_slash (s : string) : string :=
  match s with
  | EmptyString => EmptyString
  | String a s' =>
      match rstrip_slash s' with
      | EmptyString =>
          if Ascii.eqb a (Ascii.ascii_of_nat 47) then EmptyString else String a EmptyString
      | t => String a t
      end
  end.

(** [v.rstrip("/")]: only a string has [rstrip]. *)
Definition rstrip (v : json) : res string :=
  match v with
  | JStr s => Val (rstrip_slash s)
  | _ => Err AttributeError
  end.

Section WithIntOfStr.

(** [int(s)] on a string: the number it spells, if it spells one. *)
Variable int_of_str : string -> option Z.

(** [int(v)] *)
Definition int_ (v : json) : res Z :=
  match v with
  | JInt n => Val n
  | JBool b => Val (if b then 1 else 0)
  | JFloat q => Val (int_of_float q)
  | JStr s =>
      match int_of_str s with
      | Some n => Val n
      | None => Err ValueError
      end
  | _ => Err TypeError
  end.

End WithIntOfStr.

(** A loop that may return from the enclosing function: [Some t] is the
    value returned, [None] the end of the loop. *)
Fixpoint for_first {A T} (l : list A) (body : A -> res (option T))
  : res (option T) :=
  match l with
  | [] => Val None
  | a :: l' =>
      try! r := body a in
      match r with
      | Some t => Val (Some t)
      | None => for_first l' body
      end
  end.

(** [for x in v: body] *)
Definition for_in {T} (v : json) (body : json -> res (option T))
  : res (option T) :=
  try! l := iter v in for_first l body.

End PyVal.

(** ** load/downloader.py: resolving the image service *)

Module Manifest.
Import Py PyVal.

Section WithIntOfStr.

Variable int_of_str : string -> option Z.

(** The end of both searches: [holder] is the resource or body that
    carries the service, [service] the service looked at. *)
Definition service_reference (canvas holder service : json)
  : res (option (string * Z * Z)) :=
  try! at_id := get service "@id" JNull in
  try! service_id := py_or at_id (get service "id" (JStr "")) in
  if truthy service_id then
    try! rw := get holder "width" JNull in
    try! w := py_or rw (get canvas "width" (JInt 0)) in
    try! rh := get holder "height" JNull in
    try! h := py_or rh (get canvas "height" (JInt 0)) in
    try! url := rstrip service_id in
    try! wi := int_ int_of_str w in
    try! hi := int_ int_of_str h in
    Val (Some (url, wi, hi))
  else Val None.

(** The body of the innermost loop of the v2 search. *)
Definition v2_image (canvas image : json) : res (option (string * Z * Z)) :=
  try! resource := get image "resource" (JDict []) in
  try! service := get resource "service" (JDict []) in
  let service :=
    match service with
    | JList (x :: _) => x
    | JList [] => JDict []
    | _ => service
    end in
  service_reference canvas resource service.

(** sequences -> canvases -> images -> resource -> service *)
Definition search_v2 (manifest : json) : res (option (string * Z * Z)) :=
  try! sequences := get manifest "sequences" (JList []) in
  for_in sequences (fun seq =>
    try! canvases := get seq "canvases" (JList []) in
    for_in canvases (fun canvas =>
      try! images := get canvas "images" (JList []) in
      for_in images (v2_image canvas))).

(** The body of the loop over annotations of the v3 search. *)
Definition v3_annotation (canvas anno : json)
  : res (option (string * Z * Z)) :=
  try! body := get anno "body" (JDict []) in
  try! services := get body "service" (JList []) in
  let services :=
    match services with
    | JDict _ => JList [services]
    | _ => services
    end in
  for_in services (service_reference canvas body).

(** items -> items -> items -> body -> service *)
Definition search_v3 (manifest : json) : res (option (string * Z * Z)) :=
  try! items := get manifest "items" (JList []) in
  for_in items (fun canvas =>
    try! pages := get canvas "items" (JList []) in
    for_in pages (fun anno_page =>
      try! annos := get anno_page "items" (JList []) in
      for_in annos (v3_annotation canvas))).

Definition _parse_manifest_image (manifest : json) : res (string * Z * Z) :=
  try! found := search_v2 manifest in
  match found with
  | Some t => Val t
  | None =>
      try! found := search_v3 manifest in
      match found with
      | Some t => Val t
      | None => Err ValueError
      end
  end.

End WithIntOfStr.

(** The tile width and scale factors read from an [info.json]: those of
    the first entry of a non-empty ["tiles"], 1024 and [[1]] otherwise. *)
Definition tile_config (info : json) : res (json * json) :=
  try! has_tiles := contains info "tiles" in
  try! tiles := (if has_tiles then getitem info "tiles" else Val JNull) in
  if has_tiles && truthy tiles then
    try! tile_info := getitem0 tiles in
    try! tile_size := get tile_info "width" (JInt 1024) in
    try! scale_factors := get tile_info "scaleFactors" (JList [JInt 1]) in
    Val (tile_size, scale_factors)
  else Val (JInt 1024, JList [JInt 1]).

(** The label of a manifest before [str] is applied to it: of a
    language map the first value of the first language. *)
Definition manifest_label (data : json) : res json :=
  try! label := get data "label" (JStr "") in
  match label with
  | JDict ((_, vals) :: _) =>
      if truthy vals then getitem0 vals else Val (JStr "")
  | _ => Val label
  end.

(** The fields that [IIIFDownloader.__init__] stores, as the values they
    are given; [label] is the value before [str]. The output directory
    is left out. *)
Record Descriptor : Type := mkDescriptor {
  image_service_url : string;
  width : json;
  height : json;
  tile_size : json;
  scale_factors : json;
  label : json
}.

(** [IIIFDownloader.__init__], called without further keyword
    arguments. *)
Definition init (url : string) (width height tile_size scale_factors
                                 label : json) : Descriptor :=
  mkDescriptor (rstrip_slash url) width height tile_size
               (if truthy scale_factors then scale_factors
                else JList [JInt 1])
               label.

(** Code that fetches documents: the URLs requested so far are threaded
    through. *)
Definition F (A : Type) : Type := list string -> list string * res A.

Definition fret {A} (a : A) : F A := fun log => (log, Val a).

Definition fbind {A B} (m : F A) (k : A -> F B) : F B :=
  fun log =>
    match m log with
    | (log', Val a) => k a log'
    | (log', Err e) => (log', Err e)
    end.

Definition flift {A} (r : res A) : F A := fun log => (log, r).

Notation "'fetch!' x ':=' m 'in' k" := (fbind m (fun x => k))
  (at level 10, x name, m at level 200, k at level 200).

Section WithDocuments.

Variable int_of_str : string -> option Z.

(** The JSON document behind a URL, or nothing when the request or the
    decoding fails. *)
Variable documents : string -> option json.

Definition _fetch_json (url : string) : F json :=
  fun log =>
    (log ++ [url],
     match documents url with
     | Some doc => Val doc
     | None => Err URLError
     end).

Definition from_manifest (manifest_url : string) : F Descriptor :=
  fetch! data := _fetch_json manifest_url in
  fetch! label := flift (manifest_label data) in
  fetch! found := flift (_parse_manifest_image int_of_str data) in
  let '(service_url, width, height) := found in
  fetch! info := _fetch_json (service_url ++ "/info.json") in
  fetch! config := flift (tile_config info) in
  let '(tile_size, scale_factors) := config in
  fret (init service_url (JInt width) (JInt height) tile_size scale_factors
             label).

Definition from_image_url (image_service_url : string) : F Descriptor :=
  fetch! info := _fetch_json (image_service_url ++ "/info.json") in
  fetch! width := flift (getitem info "width") in
  fetch! height := flift (getitem info "height") in
  fetch! config := flift (tile_config info) in
  let '(tile_size, scale_factors) := config in
  fetch! label := flift (get info "label" (JStr "")) in
  fret (init image_service_url width height tile_size scale_factors label).

End WithDocuments.

(** The downloader that the tiled download works with, when the
    dimensions and the tile size are integers. *)
Definition to_downloader (d : Descriptor) : option Downloader.IIIFDownloader :=
  match width d, height d, tile_size d with
  | JInt w, JInt h, JInt t => Some (Downloader.mkIIIF w h t)
  | _, _, _ => None
  end.

End Manifest.

(** ** The images of a v2 manifest in document order *)

Module ManifestSpec.
Import Py PyVal Manifest.

(** The concatenation of what [f] gives on each element, when it gives
    something on every one. *)
Fixpoint collect {A B} (l : list A) (f : A -> res (list B)) : res (list B) :=
  match l with
  | [] => Val []
  | a :: l' =>
      try! x := f a in
      try! y := collect l' f in
      Val (x ++ y)
  end.

(** Every image of every canvas of every sequence, with its canvas, when
    the manifest is lists of dicts down to the images. *)
Definition v2_images (manifest : json) : res (list (json * json)) :=
  try! sequences := get manifest "sequences" (JList []) in
  try! seqs := iter sequences in
  collect seqs (fun seq =>
    try! canvases := get seq "canvases" (JList []) in
    try! cs := iter canvases in
    collect cs (fun canvas =>
      try! images := get canvas "images" (JList []) in
      try! imgs := iter images in
      Val ((fun image => (canvas, image)) <$> imgs))).

(** Every service of every annotation body of a v3 manifest, with its
    canvas and its body. *)
Definition v3_services (manifest : json) : res (list (json * json * json)) :=
  try! items := get manifest "items" (JList []) in
  try! cs := iter items in
  collect cs (fun canvas =>
    try! pages := get canvas "items" (JList []) in
    try! ps := iter pages in
    collect ps (fun anno_page =>
      try! annos := get anno_page "items" (JList []) in
      try! ans := iter annos in
      collect ans (fun anno =>
        try! body := get anno "body" (JDict []) in
        try! services := get body "service" (JList []) in
        try! svcs := iter (match services with
                           | JDict _ => JList [services]
                           | _ => services
                           end) in
        Val ((fun svc => (canvas, body, svc)) <$> svcs)))).

(** A string that ends with a slash. *)
Definition ends_with_slash (s : string) : Prop :=
  exists t, s = (t ++ "/")%string.

End ManifestSpec.

(** ** load/images.py: PatchSet *)

Module PatchSets.
Import Py Geo Np Images.

Record PatchSet : Type := mkPatchSet {
  patches : list Patch;
  parent : MapImage
}.

(** What [MapImage.patchify] returns: the patches with the image they
    were cut from. *)
Definition patchify (self : MapImage) (patch_size overlap : Z)
           (blank_threshold : Q) (skip_blank : bool) : result PatchSet :=
  rbind (Images.patchify self patch_size overlap blank_threshold skip_blank)
        (fun ps => Ok (mkPatchSet ps self)).

Definition __len__ (self : PatchSet) : Z := Z.of_nat (length (patches self)).

(** [self.patches[idx]]: an index below zero counts from the end, and
    [None] stands for the IndexError of an index outside the list. *)
Definition __getitem__ (self : PatchSet) (idx : Z) : option Patch :=
  let n := __len__ self in
  if (0 <=? idx) && (idx <? n) then patches self !! Z.to_nat idx
  else if (- n <=? idx) && (idx <? 0) then patches self !! Z.to_nat (n + idx)
  else None.

(** A row of the table: the index, the grid position and the pixel
    rectangle of a patch, and the four geographic columns when the patch
    has geographic bounds. *)
Record record : Type := mkRecord {
  patch_idx : Z;
  rec_row : Z;
  rec_col : Z;
  pixel_x : Z;
  pixel_y : Z;
  pixel_w : Z;
  pixel_h : Z;
  geo_columns : option (Q * Q * Q * Q)  (* left, bottom, right, top *)
}.

(** A [pandas.DataFrame] of the records, or a [geopandas.GeoDataFrame]
    of them with a geometry column (a box is given by the bounds it is
    built from) and a CRS. *)
Inductive Frame : Type :=
| DataFrame (records : list record)
| GeoDataFrame (records : list record) (geometry : list (option Bounds))
               (crs : nat).

Definition to_record (i : nat) (p : Patch) : record :=
  let '(x, y, w, h) := pixel_bounds p in
  mkRecord (Z.of_nat i) (row p) (col p) x y w h
           ((fun b => (left b, bottom b, right b, top b)) <$> geo_bounds p).

(** A [Bounds] is a tuple of four fields, so it is true whenever it is
    not [None]. *)
Definition to_dataframe (self : PatchSet) : Frame :=
  let records := imap to_record (patches self) in
  match crs (parent self) with
  | Some c =>
      if existsb (fun p => bool_decide (is_Some (geo_bounds p)))
                 (patches self)
      then GeoDataFrame records (geo_bounds <$> patches self) c
      else DataFrame records
  | None => DataFrame records
  end.

End PatchSets.

(** ** utils/vis.py *)

Module Vis.
Import Py Np Images PatchSets.

Inductive error : Type :=
| ZeroDivisionError
| ValueError
| IndexError
| TypeError.

Inductive outcome (A : Type) : Type :=
| Done (a : A)
| Raised (e : error).
Arguments Done {A} a.
Arguments Raised {A} e.

(** An Axes of the figure, named by its row and column in the grid of
    subplots. *)
Definition Axes : Type := (nat * nat)%type.

(** What the function does to the screen, in order. The figure size is
    left out. *)
Inductive event : Type :=
| Print (msg : string)
| Imshow (ax : Axes) (image : ndarray)
| SetTitle (ax : Axes) (row col : Z)
| AxisOff (ax : Axes)
| TightLayout
| Show.

(** What [plt.subplots] returns for the axes: one Axes, a 1-D array of
    them or a 2-D array of them. *)
Inductive axes_array : Type :=
| AxScalar (a : Axes)
| Ax1 (l : list Axes)
| Ax2 (g : list (list Axes)).

(** [plt.subplots(rows, cols)]: the grid is squeezed, so a single row or
    a single column comes back as a 1-D array and a single subplot as the
    Axes itself. *)
Definition subplots (rows cols : Z) : outcome axes_array :=
  if (rows <=? 0) || (cols <=? 0) then Raised ValueError
  else
    let grid :=
      (fun r => (fun c => (r, c)) <$> seq 0 (Z.to_nat cols))
        <$> seq 0 (Z.to_nat rows) in
    if (rows =? 1) && (cols =? 1) then Done (AxScalar (0%nat, 0%nat))
    else if (rows =? 1) || (cols =? 1) then Done (Ax1 (mjoin grid))
    else Done (Ax2 grid).

(** [np.array([axes])] for the single Axes of a 1 x 1 grid. *)
Definition np_array_of (axes : axes_array) : axes_array :=
  match axes with
  | AxScalar a => Ax1 [a]
  | Ax1 l => Ax2 [l]
  | Ax2 g => Ax2 g   (* not reached: the axes of a 1 x 1 grid is one Axes *)
  end.

(** [np.atleast_2d]: a 1-D array of length [k] becomes one row of [k]. *)
Definition atleast_2d (axes : axes_array) : list (list Axes) :=
  match axes with
  | AxScalar a => [[a]]
  | Ax1 l => [l]
  | Ax2 g => g
  end.

(** An index into an axis of length [n]. *)
Definition np_index {A} (l : list A) (i : Z) : outcome A :=
  let n := Z.of_nat (length l) in
  let j := if i <? 0 then n + i else i in
  if (0 <=? j) && (j <? n) then
    match l !! Z.to_nat j with
    | Some a => Done a
    | None => Raised IndexError
    end
  else Raised IndexError.

(** [axes[i, j]] *)
Definition axes_getitem (axes : list (list Axes)) (i j : Z) : outcome Axes :=
  match np_index axes i with
  | Done r => np_index r j
  | Raised e => Raised e
  end.

(** Code that draws: the events so far are threaded through. *)
Definition V (A : Type) : Type := list event -> list event * outcome A.

Definition vret {A} (a : A) : V A := fun evs => (evs, Done a).

Definition vbind {A B} (m : V A) (k : A -> V B) : V B :=
  fun evs =>
    match m evs with
    | (evs', Done a) => k a evs'
    | (evs', Raised e) => (evs', Raised e)
    end.

Definition vlift {A} (r : outcome A) : V A := fun evs => (evs, r).

Definition emit (e : event) : V unit := fun evs => (evs ++ [e], Done tt).

Notation "'draw!' x ':=' m 'in' k" := (vbind m (fun x => k))
  (at level 10, x name, m at level 200, k at level 200).

Fixpoint vfor {A} (l : list A) (body : A -> V unit) : V unit :=
  match l with
  | [] => vret tt
  | a :: l' => draw! _u := body a in vfor l' body
  end.

Section WithImshow.

(** Whether [imshow] takes an array as image data. *)
Variable displayable : ndarray -> bool.

Definition imshow (ax : Axes) (image : ndarray) : V unit :=
  if displayable image then emit (Imshow ax image)
  else vlift (Raised TypeError).

(** The body of the loop over the cells of the grid. *)
Definition show_cell (patch_set : PatchSet) (axes : list (list Axes))
           (n cols i : Z) : V unit :=
  draw! ax := vlift (axes_getitem axes (i / cols) (i mod cols)) in
  draw! _u :=
    (if i <? n then
       draw! patch := vlift (match __getitem__ patch_set i with
                             | Some p => Done p
                             | None => Raised IndexError
                             end) in
       draw! _u := imshow ax (image patch) in
       emit (SetTitle ax (row patch) (col patch))
     else vret tt) in
  emit (AxisOff ax).

(** [show_patches] with the figure size left to its default. *)
Definition show_patches (patch_set : PatchSet) (max_patches cols : Z)
  : V unit :=
  let n := Z.min (__len__ patch_set) max_patches in
  if n =? 0 then emit (Print "No patches to display.")
  else if cols =? 0 then vlift (Raised ZeroDivisionError)
  else
    let rows := (n + cols - 1) / cols in
    draw! axes := vlift (subplots rows cols) in
    let axes :=
      if (rows =? 1) && (cols =? 1) then np_array_of axes else axes in
    let axes := atleast_2d axes in
    draw! _u := vfor (range (rows * cols))
                     (show_cell patch_set axes n cols) in
    draw! _u := emit TightLayout in
    emit Show.

End WithImshow.

(** The Axes an event draws a patch on, with the patch's raster. *)
Definition shown (e : event) : option (Axes * ndarray) :=
  match e with
  | Imshow ax image => Some (ax, image)
  | _ => None
  end.

(** The Axes an event switches off. *)
Definition switched_off (e : event) : option Axes :=
  match e with
  | AxisOff ax => Some ax
  | _ => None
  end.

End Vis.

Module VisSpec.
Import Py Np Images PatchSets Vis.

(** The Axes of the [i]-th cell of a grid of [cols] columns, counted row
    by row. *)
Definition cell (cols : Z) (i : nat) : Axes :=
  (Z.to_nat (Z.of_nat i / cols), Z.to_nat (Z.of_nat i mod cols)).

(** The number of patches shown and the number of rows of the grid. *)
Definition shown_count (patch_set : PatchSet) (max_patches : Z) : Z :=
  Z.min (__len__ patch_set) max_patches.

Definition grid_rows (patch_set : PatchSet) (max_patches cols : Z) : Z :=
  (shown_count patch_set max_patches + cols - 1) / cols.

(** What is done to the [i]-th cell when nothing fails. *)
Definition cell_events (patch_set : PatchSet) (n cols i : Z) : list event :=
  let ax := cell cols (Z.to_nat i) in
  (if i <? n then
     match patches patch_set !! Z.to_nat i with
     | Some p => [Imshow ax (image p); SetTitle ax (row p) (col p)]
     | None => []
     end
   else []) ++ [AxisOff ax].

End VisSpec.

(** ** Further sample inputs *)

Module MoreExamples.
Import Py Geo Np Images Downloader PyVal Manifest PatchSets Examples.

(** The 4 x 2 grey raster without white pixels, georeferenced north-up. *)
Definition geo_sheet : MapImage :=
  mkMapImage (Arr2 uint8 [[1; 2; 3; 4]; [5; 6; 7; 8]]) (Some 4326%nat)
             (Some north_up).

(** A 2 x 2 raster of 16-bit samples, all zero. *)
Definition zero_sheet : MapImage :=
  mkMapImage (Arr3 other_dtype (replicate 2 (replicate 2 [0]))) None None.

(** An image without a service, and one with a service. *)
Definition bare_image : json :=
  JDict [("resource", JDict [("width", JInt 1)])].

Definition served_image : json :=
  JDict [("resource", JDict [
     ("height", JInt 7);
     ("service", JDict [("@id", JStr "http://s/img/")])])].

(** A v2 manifest of one canvas with the two images, the one without a
    service first. *)
Definition v2_canvas : json :=
  JDict [("width", JInt 10); ("height", JInt 20);
         ("images", JList [bare_image; served_image])].

Definition v2_manifest : json :=
  JDict [("label", JStr "Sheet 1");
         ("sequences", JList [JDict [("canvases", JList [v2_canvas])]])].

(** A v3 manifest of one annotation whose body has two services: the
    first without an id, the second with one. *)
Definition v3_body : json :=
  JDict [("width", JInt 30);
         ("service", JList [JDict [("type", JStr "ImageService3")];
                            JDict [("id", JStr "http://s/v3")]])].

Definition v3_canvas : json :=
  JDict [("height", JInt 40);
         ("items", JList [JDict [("items", JList [
            JDict [("body", v3_body)]])]])].

Definition v3_manifest : json :=
  JDict [("label", JDict [("en", JList [JStr "Sheet 3"])]);
         ("items", JList [v3_canvas])].

(** A manifest whose one image has no service. *)
Definition bare_canvas : json := JDict [("images", JList [bare_image])].

Definition bare_manifest : json :=
  JDict [("sequences", JList [JDict [("canvases", JList [bare_canvas])]])].

(** No string spells a number. *)
Definition no_int_of_str (s : string) : option Z := None.

(** The documents of a server: the v2 manifest and the [info.json] of
    its image service, with tiles of 512. *)
Definition documents (u : string) : option json :=
  if String.eqb u "http://s/manifest" then Some v2_manifest
  else if String.eqb u "http://s/img/info.json" then
    Some (JDict [("width", JInt 10); ("height", JInt 20);
                 ("tiles", JList [JDict [("width", JInt 512)]])])
  else if String.eqb u "http://s/img//info.json" then
    Some (JDict [("width", JInt 10); ("height", JInt 20)])
  else None.

(** The two patches of size 2 of the georeferenced sheet. *)
Definition geo_patches : PatchSet :=
  mkPatchSet
    [mkPatch (Arr2 uint8 [[1; 2]; [5; 6]]) (0, 0, 2, 2)
             (Some (mkBounds (200 # 2) (398 # 2) (202 # 2) (400 # 2))) 0 0;
     mkPatch (Arr2 uint8 [[3; 4]; [7; 8]]) (2, 0, 2, 2)
             (Some (mkBounds (202 # 2) (398 # 2) (204 # 2) (400 # 2))) 0 1]
    geo_sheet.

(** Three patches of one sample each. *)
Definition three_patches : PatchSet :=
  mkPatchSet [mkPatch (Arr2 uint8 [[1]]) (0, 0, 1, 1) None 0 0;
              mkPatch (Arr2 uint8 [[2]]) (1, 0, 1, 1) None 0 1;
              mkPatch (Arr2 uint8 [[3]]) (2, 0, 1, 1) None 0 2]
             dark_sheet.

(** Every raster can be shown. *)
Definition all_displayable (a : ndarray) : bool := true.

End MoreExamples.

(** * Properties *)

(** ** Geo transforms *)

Section GeoProps.
Import Py Geo.
Local Open Scope Q_scope.

Lemma is_degenerate_true t : is_degenerate t = true <-> determinant t == 0.
Proof. unfold is_degenerate. apply Qeq_bool_iff. Qed.

Lemma is_degenerate_false t :
  is_degenerate t = false <-> ~ determinant t == 0.
Proof.
  rewrite <- is_degenerate_true. destruct (is_degenerate t); split; congruence.
Qed.


End GeoProps.

(** ** Region requests *)

Section RegionProps.
Import Py Downloader Spec.

Lemma int_of_float_small (q : Q) : (q < 1)%Q -> int_of_float q <= 0.
Proof.
  intros Hq. unfold int_of_float. destruct (Qle_bool 0 q) eqn:E.
  - assert (Qfloor q < 1); [|lia].
    rewrite Zlt_Qlt. eapply Qle_lt_trans; [apply Qfloor_le|exact Hq].
  - assert (Qceiling q - 1 < 0); [|lia].
    rewrite Zlt_Qlt. eapply Qlt_le_trans; [apply Qceiling_lt|].
    apply Qnot_lt_le. intros H0. apply Qlt_le_weak in H0.
    apply (proj2 (Qle_bool_iff 0 q)) in H0. congruence.
Qed.

Lemma int_of_float_large (q : Q) :
  (1 <= q)%Q -> int_of_float q = Qfloor q /\ 1 <= Qfloor q.
Proof.
  intros Hq. unfold int_of_float.
  assert (H0 : Qle_bool 0 q = true).
  { apply Qle_bool_iff. eapply Qle_trans; [|exact Hq]. discriminate. }
  rewrite H0. split; [reflexivity|].
  change 1 with (Qfloor 1). apply Qfloor_resp_le. exact Hq.
Qed.

Lemma truncated_extent_int_of_float (n : Z) (scale : Q) :
  truncated_extent n scale (Z.max 1 (int_of_float (inject_Z n * scale))).
Proof.
  unfold truncated_extent. split; [lia|]. split.
  - intros Hlt. apply int_of_float_small in Hlt. lia.
  - intros Hge. destruct (int_of_float_large _ Hge) as [-> H1].
    rewrite Z.max_r by lia. split; [apply Qfloor_le|].
    rewrite <- (inject_Z_plus _ 1). apply Qlt_floor.
Qed.



End RegionProps.

(** ** Ranges, slices and array shapes *)

Section RangeFacts.
Import Py.

Lemma ceil_div_lt_iff (n s k : Z) : 0 < s -> k < ceil_div n s <-> k * s < n.
Proof.
  intros Hs. unfold ceil_div.
  pose proof (Z.div_mod (- n) s ltac:(lia)) as Hdm.
  pose proof (Z.mod_pos_bound (- n) s Hs) as Hm.
  set (q := - n / s) in *. set (m := - n mod s) in *.
  split; intros H.
  - assert (k * s <= (- q - 1) * s) by (apply Z.mul_le_mono_nonneg_r; lia).
    lia.
  - apply (Z.mul_lt_mono_pos_r s); lia.
Qed.

Lemma ceil_div_exact (n s : Z) : 0 < s -> n mod s = 0 -> ceil_div n s = n / s.
Proof.
  intros Hs Hmod. unfold ceil_div.
  rewrite (Z.div_mod n s) at 1 by lia. rewrite Hmod, Z.add_0_r.
  rewrite <- Z.mul_opp_r, Z.mul_comm, Z.div_mul by lia. lia.
Qed.

Lemma ceil_div_nonpos (n s : Z) : s < 0 -> 0 <= n -> ceil_div n s <= 0.
Proof.
  intros Hs Hn. unfold ceil_div.
  rewrite <- (Z.opp_involutive s), Z.div_opp_opp by lia.
  pose proof (Z.div_pos n (- s) Hn ltac:(lia)). lia.
Qed.

Lemma range_nonpos (n : Z) : n <= 0 -> range n = [].
Proof. intros H. unfold range. replace (Z.to_nat n) with 0%nat by lia. done. Qed.

Lemma range_of_nat (n : nat) : range (Z.of_nat n) = Z.of_nat <$> seq 0 n.
Proof. unfold range. by rewrite Nat2Z.id. Qed.

End RangeFacts.

Section SliceFacts.
Import Py Np.
Context {A : Type}.
Implicit Types (l : list A).

Lemma slice_nonneg (lo hi : Z) l :
  0 <= lo <= hi ->
  slice lo hi l = take (Z.to_nat (hi - lo)) (drop (Z.to_nat lo) l).
Proof.
  intros Hlh. unfold slice, slice_start, slice_stop, slice_bound.
  destruct (Z.ltb_spec lo 0), (Z.ltb_spec hi 0); try lia.
  destruct (Z.le_gt_cases (Z.of_nat (length l)) lo) as [Hge|Hlt].
  - do 2 rewrite drop_ge by lia. by rewrite !take_nil.
  - rewrite (Z.min_l lo) by lia.
    destruct (Z.le_gt_cases hi (Z.of_nat (length l))).
    + rewrite (Z.min_l hi) by lia. f_equal. lia.
    + rewrite (Z.min_r hi) by lia.
      do 2 rewrite take_ge by (rewrite length_drop; lia). done.
Qed.

Lemma length_slice (lo hi : Z) l :
  0 <= lo <= hi ->
  Z.of_nat (length (slice lo hi l))
  = Z.max 0 (Z.min (hi - lo) (Z.of_nat (length l) - lo)).
Proof.
  intros Hlh. rewrite slice_nonneg by done.
  rewrite length_take, length_drop. lia.
Qed.

Lemma lookup_slice (lo hi : Z) l (i : nat) :
  0 <= lo <= hi ->
  slice lo hi l !! i
  = if decide (Z.of_nat i < hi - lo) then l !! (Z.to_nat lo + i)%nat
    else None.
Proof.
  intros Hlh. rewrite slice_nonneg by done. case_decide.
  - rewrite lookup_take_lt by lia. apply lookup_drop.
  - apply lookup_take_ge. lia.
Qed.

Lemma Forall_slice (P : A -> Prop) (lo hi : Z) l :
  Forall P l -> Forall P (slice lo hi l).
Proof. intros H. unfold slice. by apply Forall_take, Forall_drop. Qed.

End SliceFacts.

Section Slice2Facts.
Import Py Np.
Context {A : Type}.
Implicit Types (a : list (list A)).

Lemma shape0_slice2 (y0 y1 x0 x1 : Z) a :
  0 <= y0 <= y1 ->
  shape0 (slice2 y0 y1 x0 x1 a)
  = Z.max 0 (Z.min (y1 - y0) (shape0 a - y0)).
Proof.
  intros Hy. unfold shape0, slice2. rewrite length_fmap.
  by apply length_slice.
Qed.

Lemma shape1_slice2 (y0 y1 x0 x1 w : Z) a :
  0 <= y0 < y1 -> y0 < shape0 a -> 0 <= x0 <= x1 -> rect w a ->
  shape1 (slice2 y0 y1 x0 x1 a) = Z.max 0 (Z.min (x1 - x0) (w - x0)).
Proof.
  intros Hy Hlt Hx Hrect. unfold shape0 in Hlt. unfold slice2.
  destruct (slice y0 y1 a) as [|r rs] eqn:E.
  - apply (f_equal (fun l => Z.of_nat (length l))) in E.
    rewrite length_slice in E by lia. simpl in E. lia.
  - simpl. assert (Hr : r ∈ a).
    { assert (Hin : r ∈ slice y0 y1 a) by (rewrite E; left).
      unfold slice in Hin.
      by apply subseteq_take, subseteq_drop in Hin. }
    rewrite length_slice by lia.
    unfold rect in Hrect. rewrite Forall_forall in Hrect.
    by rewrite (Hrect r Hr).
Qed.

Lemma rect_slice2 (y0 y1 x0 x1 w : Z) a :
  0 <= x0 <= x1 -> rect w a ->
  rect (Z.max 0 (Z.min (x1 - x0) (w - x0))) (slice2 y0 y1 x0 x1 a).
Proof.
  intros Hx Hrect. unfold rect, slice2. apply Forall_fmap.
  eapply Forall_impl; [apply Forall_slice, Hrect|].
  intros r Hr. simpl. rewrite length_slice by done. by rewrite Hr.
Qed.

End Slice2Facts.

(** ** Patchify: the loops and the grid *)

Section PatchifyGrid.
Import Py Np Images Spec.

Variable self : MapImage.
Variables (patch_size stride : Z) (blank_threshold : Q) (skip_blank : bool).

Local Abbreviation cand := (candidate self patch_size stride
                                  blank_threshold skip_blank).

(** One inner step at grid position [(r, c)] appends the candidate of
    that position, if any, and counts the step in any case. *)
Lemma patchify_cell_candidate (r c : nat) (ps : list Patch) :
  patchify_cell self patch_size blank_threshold skip_blank
                (0 + Z.of_nat r * stride) (Z.of_nat r)
                (ps, Z.of_nat c) (0 + Z.of_nat c * stride)
  = (ps ++ option_list (cand r c), Z.of_nat (S c)).
Proof.
  unfold patchify_cell, candidate. rewrite !Z.add_0_l.
  replace (Z.of_nat c + 1) with (Z.of_nat (S c)) by lia.
  repeat case_match; simpl; rewrite ?app_nil_r; reflexivity.
Qed.

Lemma patchify_cells_fold (r n k : nat) (ps : list Patch) :
  fold_left (patchify_cell self patch_size blank_threshold skip_blank
                           (0 + Z.of_nat r * stride) (Z.of_nat r))
            ((fun i => 0 + Z.of_nat i * stride) <$> seq k n)
            (ps, Z.of_nat k)
  = (ps ++ omap (cand r) (seq k n), Z.of_nat (k + n)).
Proof.
  revert k ps. induction n as [|n IH]; intros k ps;
    cbn [seq fmap list_fmap fold_left omap list_omap].
  - rewrite app_nil_r, Nat.add_0_r. reflexivity.
  - rewrite patchify_cell_candidate, IH.
    replace (S k + n)%nat with (k + S n)%nat by lia.
    destruct (cand r k); simpl; rewrite <- ?app_assoc; reflexivity.
Qed.

Lemma patchify_row_grid (r : nat) (ps : list Patch) :
  patchify_row self patch_size stride blank_threshold skip_blank
               (ps, Z.of_nat r) (0 + Z.of_nat r * stride)
  = (ps ++ grid_row_patches self patch_size stride
                            blank_threshold skip_blank r,
     Z.of_nat (S r)).
Proof.
  unfold patchify_row, range3. rewrite Z.sub_0_r.
  change 0 with (Z.of_nat 0) at 3.
  rewrite (patchify_cells_fold r _ 0 ps).
  replace (Z.of_nat r + 1) with (Z.of_nat (S r)) by lia. reflexivity.
Qed.

Lemma patchify_rows_fold (n k : nat) (ps : list Patch) :
  fold_left (patchify_row self patch_size stride
                          blank_threshold skip_blank)
            ((fun i => 0 + Z.of_nat i * stride) <$> seq k n)
            (ps, Z.of_nat k)
  = (ps ++ mjoin (grid_row_patches self patch_size stride
                                    blank_threshold skip_blank
                     <$> seq k n),
     Z.of_nat (k + n)).
Proof.
  revert k ps. induction n as [|n IH]; intros k ps;
    cbn [seq fmap list_fmap fold_left mjoin].
  - rewrite app_nil_r, Nat.add_0_r. reflexivity.
  - rewrite patchify_row_grid, IH.
    replace (S k + n)%nat with (k + S n)%nat by lia.
    rewrite <- app_assoc. reflexivity.
Qed.

(** The position a candidate is labelled with. *)
Lemma candidate_pos (r c : nat) (p : Patch) :
  cand r c = Some p ->
  grid_pos p = (Z.of_nat r, Z.of_nat c) /\
  (pixel_bounds p).1.1.1 = Z.of_nat c * stride /\
  (pixel_bounds p).1.1.2 = Z.of_nat r * stride.
Proof.
  unfold candidate. intros H. repeat case_match; simplify_eq; done.
Qed.

Lemma elem_of_grid_row (r : nat) (p : Patch) :
  p ∈ grid_row_patches self patch_size stride blank_threshold skip_blank r
  <-> exists c, (c < grid_cols self stride)%nat /\ cand r c = Some p.
Proof.
  unfold grid_row_patches. rewrite list_elem_of_omap. split.
  - intros (c & Hc & Hp). apply elem_of_seq in Hc. exists c. split; [lia|done].
  - intros (c & Hc & Hp). exists c. split; [apply elem_of_seq; lia|done].
Qed.

Lemma elem_of_grid_patches (p : Patch) :
  p ∈ grid_patches self patch_size stride blank_threshold skip_blank
  <-> exists r c, (r < grid_rows self stride)%nat /\
                  (c < grid_cols self stride)%nat /\ cand r c = Some p.
Proof.
  unfold grid_patches. rewrite list_elem_of_join. split.
  - intros (l & Hp & Hl). apply list_elem_of_fmap in Hl as (r & -> & Hr).
    apply elem_of_seq in Hr. apply elem_of_grid_row in Hp as (c & Hc & Hp).
    exists r, c. split_and!; [lia|done|done].
  - intros (r & c & Hr & Hc & Hp). eexists. split.
    + apply elem_of_grid_row. eauto.
    + apply list_elem_of_fmap. exists r. split; [done|]. apply elem_of_seq. lia.
Qed.

Lemma grid_row_sorted (r k n : nat) :
  StronglySorted row_major_lt (grid_pos <$> omap (cand r) (seq k n)).
Proof.
  revert k. induction n as [|n IH]; intros k; cbn [seq omap list_omap].
  - constructor.
  - destruct (cand r k) as [p|] eqn:Hp; [|apply IH].
    rewrite fmap_cons. apply StronglySorted_cons. split; [|apply IH].
    apply Forall_fmap, Forall_forall. intros q Hq.
    apply list_elem_of_omap in Hq as (c & Hc & Hq).
    apply elem_of_seq in Hc.
    apply candidate_pos in Hp as [Hp _], Hq as [Hq _].
    unfold compose. rewrite Hp, Hq. right. simpl. lia.
Qed.

Lemma grid_rows_sorted (k n : nat) :
  StronglySorted row_major_lt
    (grid_pos <$> mjoin (grid_row_patches self patch_size stride
                                          blank_threshold skip_blank
                           <$> seq k n)).
Proof.
  revert k. induction n as [|n IH]; intros k;
    cbn [seq fmap list_fmap mjoin list_join].
  - constructor.
  - rewrite fmap_app. apply StronglySorted_app_2.
    + intros a b Ha Hb.
      apply list_elem_of_fmap in Ha as (p & -> & Hp).
      apply list_elem_of_fmap in Hb as (q & -> & Hq).
      apply elem_of_grid_row in Hp as (c & _ & Hp).
      apply list_elem_of_join in Hq as (l & Hq & Hl).
      apply list_elem_of_fmap in Hl as (r & -> & Hr).
      apply elem_of_seq in Hr.
      apply elem_of_grid_row in Hq as (c' & _ & Hq).
      apply candidate_pos in Hp as [Hp _], Hq as [Hq _].
      rewrite Hp, Hq. left. simpl. lia.
    + apply grid_row_sorted.
    + apply IH.
Qed.

End PatchifyGrid.

Section PatchifyProps.
Import Py Np Images Spec.

Lemma patchify_eq_grid (self : MapImage) (patch_size overlap : Z)
      (blank_threshold : Q) (skip_blank : bool) :
  patchify self patch_size overlap blank_threshold skip_blank
  = if patch_size - overlap <=? 0 then Raise ValueError
    else Ok (grid_patches self patch_size (patch_size - overlap)
                          blank_threshold skip_blank).
Proof.
  unfold patchify. destruct (patch_size - overlap <=? 0); [reflexivity|].
  unfold range3. rewrite Z.sub_0_r. change 0 with (Z.of_nat 0) at 2.
  rewrite patchify_rows_fold. reflexivity.
Qed.

(** C2: a successful [patchify] returns the emitted patches in row-major
    order of grid positions, each labelled with its own grid position:
    [row] counts the outer steps before it and [col] the inner steps of
    its row before it, emitted or not, so that positions that emit
    nothing leave gaps in the numbering. *)
Theorem patchify_grid_positions (self : MapImage) (patch_size overlap : Z)
        (blank_threshold : Q) (skip_blank : bool) (ps : list Patch) :
  patchify self patch_size overlap blank_threshold skip_blank = Ok ps ->
  ps = grid_patches self patch_size (patch_size - overlap)
                    blank_threshold skip_blank /\
  StronglySorted row_major_lt (grid_pos <$> ps) /\
  (forall p, p ∈ ps ->
     exists r c : nat,
       (r < grid_rows self (patch_size - overlap))%nat /\
       (c < grid_cols self (patch_size - overlap))%nat /\
       candidate self patch_size (patch_size - overlap)
                 blank_threshold skip_blank r c = Some p /\
       row p = Z.of_nat r /\ col p = Z.of_nat c).
Proof.
  rewrite patchify_eq_grid. case_match; [discriminate|].
  intros [= <-]. split_and!.
  - reflexivity.
  - apply grid_rows_sorted.
  - intros p Hp. apply elem_of_grid_patches in Hp as (r & c & Hr & Hc & Hp).
    exists r, c. pose proof (candidate_pos _ _ _ _ _ _ _ _ Hp) as [[= Hrow Hcol] _].
    split_and!; done.
Qed.

End PatchifyProps.

(** ** Patchify: pixel rectangles *)

Section PatchBounds.
Import Py Np Images Spec.

Lemma nd_shape0_slice2 (y x p : Z) (a : ndarray) :
  0 <= y -> 0 <= p ->
  nd_shape0 (nd_slice2 y (y + p) x (x + p) a)
  = Z.max 0 (Z.min p (nd_shape0 a - y)).
Proof.
  intros Hy Hp. destruct a; simpl; rewrite shape0_slice2 by lia;
    f_equal; f_equal; lia.
Qed.

Lemma nd_shape1_slice2 (y x p w : Z) (a : ndarray) :
  0 <= y < nd_shape0 a -> 0 < p -> 0 <= x -> nd_rect w a ->
  nd_shape1 (nd_slice2 y (y + p) x (x + p) a)
  = Z.max 0 (Z.min p (w - x)).
Proof.
  intros Hy Hp Hx Hrect.
  destruct a; simpl in *; rewrite (shape1_slice2 _ _ _ _ w) by (done || lia);
    f_equal; f_equal; lia.
Qed.

Variable self : MapImage.
Variables (patch_size stride : Z) (blank_threshold : Q).
Hypothesis patch_size_pos : 0 < patch_size.
Hypothesis stride_pos : 0 < stride.
Hypothesis data_rect : nd_rect (width self) (data self).

Lemma grid_row_in_raster (r : nat) :
  (r < grid_rows self stride)%nat <-> Z.of_nat r * stride < height self.
Proof.
  unfold grid_rows. rewrite <- ceil_div_lt_iff by done. lia.
Qed.

Lemma grid_col_in_raster (c : nat) :
  (c < grid_cols self stride)%nat <-> Z.of_nat c * stride < width self.
Proof.
  unfold grid_cols. rewrite <- ceil_div_lt_iff by done. lia.
Qed.

(** Extent of the slice taken at a grid position inside the raster. *)
Lemma candidate_extent (r c : nat) :
  (r < grid_rows self stride)%nat -> (c < grid_cols self stride)%nat ->
  let x := Z.of_nat c * stride in
  let y := Z.of_nat r * stride in
  let patch_data :=
    nd_slice2 y (y + patch_size) x (x + patch_size) (data self) in
  nd_shape0 patch_data = Z.min patch_size (height self - y) /\
  nd_shape1 patch_data = Z.min patch_size (width self - x) /\
  0 < nd_shape0 patch_data /\ 0 < nd_shape1 patch_data.
Proof.
  intros Hr Hc x y patch_data.
  apply grid_row_in_raster in Hr. apply grid_col_in_raster in Hc.
  fold y in Hr. fold x in Hc.
  assert (0 <= y) by (unfold y; lia). assert (0 <= x) by (unfold x; lia).
  unfold patch_data. rewrite nd_shape0_slice2 by lia.
  rewrite (nd_shape1_slice2 _ _ _ (width self)) by (done || (unfold height in Hr; lia)).
  unfold height in *. lia.
Qed.

Lemma candidate_bounds (skip_blank : bool) (r c : nat) (p : Patch) :
  (r < grid_rows self stride)%nat -> (c < grid_cols self stride)%nat ->
  candidate self patch_size stride blank_threshold skip_blank r c = Some p ->
  pixel_bounds p
  = (Z.of_nat c * stride, Z.of_nat r * stride,
     Z.min patch_size (width self - Z.of_nat c * stride),
     Z.min patch_size (height self - Z.of_nat r * stride)).
Proof.
  intros Hr Hc. destruct (candidate_extent r c Hr Hc) as (H0 & H1 & _).
  unfold candidate. intros Hp. repeat case_match; simplify_eq;
    simpl; by rewrite H0, H1.
Qed.

Lemma candidate_emits (skip_blank : bool) (r c : nat) :
  none_blank_skipped self patch_size stride blank_threshold skip_blank ->
  (r < grid_rows self stride)%nat -> (c < grid_cols self stride)%nat ->
  is_Some (candidate self patch_size stride blank_threshold skip_blank r c).
Proof.
  intros Hnone Hr Hc.
  destruct (candidate_extent r c Hr Hc) as (_ & _ & H0 & H1).
  specialize (Hnone r c Hr Hc). cbv zeta in Hnone.
  unfold candidate. rewrite Hnone.
  destruct (Z.eqb_spec (nd_shape0 (nd_slice2 (Z.of_nat r * stride)
    (Z.of_nat r * stride + patch_size) (Z.of_nat c * stride)
    (Z.of_nat c * stride + patch_size) (data self))) 0) as [E|_]; [lia|].
  destruct (Z.eqb_spec (nd_shape1 (nd_slice2 (Z.of_nat r * stride)
    (Z.of_nat r * stride + patch_size) (Z.of_nat c * stride)
    (Z.of_nat c * stride + patch_size) (data self))) 0) as [E|_]; [lia|].
  simpl. eauto.
Qed.

Lemma none_blank_skipped_false :
  none_blank_skipped self patch_size stride blank_threshold false.
Proof. intros r c _ _. reflexivity. Qed.

End PatchBounds.

Section PatchBoundsProps.
Import Py Np Images Spec.


End PatchBoundsProps.

(** ** Patchify: exact tilings *)

Section ListCounting.
Context {A B : Type}.

Lemma length_omap_total (f : A -> option B) (l : list A) :
  (forall x, x ∈ l -> is_Some (f x)) -> length (omap f l) = length l.
Proof.
  induction l as [|x l IH]; intros Hf; [done|].
  cbn [omap list_omap]. destruct (Hf x) as [y ->]; [left|].
  cbn. f_equal. apply IH. intros z Hz. apply Hf. by right.
Qed.

Lemma length_join_const (g : A -> list B) (n : nat) (l : list A) :
  (forall x, x ∈ l -> length (g x) = n) ->
  length (mjoin (g <$> l)) = (length l * n)%nat.
Proof.
  induction l as [|x l IH]; intros Hg; [done|].
  rewrite fmap_cons.
  change (mjoin (g x :: (g <$> l))) with (g x ++ mjoin (g <$> l)).
  rewrite length_app, IH.
  - rewrite (Hg x) by left. simpl. lia.
  - intros z Hz. apply Hg. by right.
Qed.

Lemma length_filter_fmap (g : A -> B) (P : B -> Prop)
      `{!forall y, Decision (P y)} (l : list A) :
  length (filter P (g <$> l)) = length (filter (fun x => P (g x)) l).
Proof.
  induction l as [|x l IH]; [done|].
  rewrite fmap_cons, !filter_cons.
  destruct (decide (P (g x))); simpl; by rewrite IH.
Qed.

Lemma fmap_omap_total {C} (f : A -> option B) (g : B -> C) (h : A -> C)
      (l : list A) :
  (forall x, x ∈ l -> exists y, f x = Some y /\ g y = h x) ->
  g <$> omap f l = h <$> l.
Proof.
  induction l as [|x l IH]; intros Hf; [done|].
  cbn [omap list_omap]. destruct (Hf x) as (y & -> & Hy); [left|].
  rewrite !fmap_cons, Hy, IH; [done|].
  intros z Hz. apply Hf. by right.
Qed.

Lemma fmap_join_ext {C} (g : B -> C) (k : A -> list B) (h : A -> list C)
      (l : list A) :
  (forall x, x ∈ l -> g <$> k x = h x) ->
  g <$> mjoin (k <$> l) = mjoin (h <$> l).
Proof.
  induction l as [|x l IH]; intros Hk; [done|].
  rewrite !fmap_cons.
  change (mjoin (k x :: (k <$> l))) with (k x ++ mjoin (k <$> l)).
  change (mjoin (h x :: (h <$> l))) with (h x ++ mjoin (h <$> l)).
  rewrite fmap_app, Hk by left. rewrite IH; [done|].
  intros z Hz. apply Hk. by right.
Qed.

Lemma StronglySorted_NoDup (R : relation A) (l : list A) :
  Irreflexive R -> StronglySorted R l -> NoDup l.
Proof.
  intros Hirr. induction 1 as [|x l _ IH Hx]; constructor; [|done].
  intros Hin. rewrite Forall_forall in Hx. exact (Hirr x (Hx x Hin)).
Qed.

End ListCounting.

Section Tiling.
Import Py Np Images Spec.

#[local] Instance row_major_lt_irrefl : Irreflexive row_major_lt.
Proof. intros [r c] [H|[_ H]]; simpl in H; lia. Qed.

Lemma grid_patches_NoDup (self : MapImage) (P stride : Z) (thr : Q)
      (sb : bool) :
  NoDup (grid_pos <$> grid_patches self P stride thr sb).
Proof.
  eapply StronglySorted_NoDup; [apply _|]. apply grid_rows_sorted.
Qed.

Lemma length_grid_patches_full (self : MapImage) (P stride : Z) (thr : Q)
      (sb : bool) :
  0 < P -> 0 < stride -> nd_rect (width self) (data self) ->
  none_blank_skipped self P stride thr sb ->
  length (grid_patches self P stride thr sb)
  = (grid_rows self stride * grid_cols self stride)%nat.
Proof.
  intros HP Hs Hrect Hnone. unfold grid_patches.
  rewrite (length_join_const _ (grid_cols self stride)).
  - by rewrite length_seq.
  - intros r Hr. apply elem_of_seq in Hr. unfold grid_row_patches.
    rewrite length_omap_total; [by rewrite length_seq|].
    intros c Hc. apply elem_of_seq in Hc.
    apply candidate_emits; (done || lia).
Qed.

Lemma grid_patches_full (self : MapImage) (P stride : Z) (thr : Q)
      (sb : bool) :
  0 < P -> 0 < stride -> nd_rect (width self) (data self) ->
  none_blank_skipped self P stride thr sb ->
  grid_pos <$> grid_patches self P stride thr sb
  = grid_positions (grid_rows self stride) (grid_cols self stride).
Proof.
  intros HP Hs Hrect Hnone. unfold grid_patches, grid_positions.
  apply fmap_join_ext. intros r Hr. apply elem_of_seq in Hr.
  unfold grid_row_patches. apply fmap_omap_total.
  intros c Hc. apply elem_of_seq in Hc.
  destruct (candidate_emits self P stride thr HP Hs Hrect sb r c Hnone)
    as [p Hp]; [lia..|].
  exists p. split; [done|]. by apply candidate_pos in Hp as [-> _].
Qed.

Lemma exact_cell (n P k : Z) :
  0 < P -> n mod P = 0 -> 0 <= k -> k * P < n -> Z.min P (n - k * P) = P.
Proof.
  intros HP Hmod Hk Hlt.
  rewrite (Z.div_mod n P) in Hlt |- * by lia. rewrite Hmod, Z.add_0_r in *.
  assert (k < n / P) by nia. nia.
Qed.

(** C5, as amended: when no grid position is skipped for being blank
    (blank skipping is off, or no patch is blank), a patch size that
    divides both dimensions and no overlap give [(height/patch_size) *
    (width/patch_size)] patches, each a full [patch_size] square inside
    the raster, and every pixel of the raster lies in exactly one of
    them. *)
Theorem patchify_tiles_exactly (self : MapImage) (patch_size : Z)
        (blank_threshold : Q) (skip_blank : bool) :
  0 < patch_size ->
  nd_rect (width self) (data self) ->
  height self mod patch_size = 0 ->
  width self mod patch_size = 0 ->
  none_blank_skipped self patch_size patch_size blank_threshold skip_blank ->
  exists ps,
    patchify self patch_size 0 blank_threshold skip_blank = Ok ps /\
    Z.of_nat (length ps)
    = (height self / patch_size) * (width self / patch_size) /\
    (forall p, p ∈ ps ->
       exists x y, pixel_bounds p = (x, y, patch_size, patch_size) /\
                   0 <= x /\ x + patch_size <= width self /\
                   0 <= y /\ y + patch_size <= height self) /\
    (forall px py, 0 <= px < width self -> 0 <= py < height self ->
       exists i p, ps !! i = Some p /\ covers p px py /\
         forall j q, ps !! j = Some q -> covers q px py -> j = i).
Proof.
  intros HP Hrect Hh Hw Hnone.
  pose proof (Z.div_mod (height self) patch_size ltac:(lia)) as HH.
  pose proof (Z.div_mod (width self) patch_size ltac:(lia)) as HW.
  rewrite Hh, Z.add_0_r in HH. rewrite Hw, Z.add_0_r in HW.
  eexists. rewrite patchify_eq_grid, Z.sub_0_r.
  destruct (Z.leb_spec patch_size 0) as [?|_]; [lia|].
  split; [reflexivity|].
  assert (Hbounds : forall r c p,
    (r < grid_rows self patch_size)%nat ->
    (c < grid_cols self patch_size)%nat ->
    candidate self patch_size patch_size blank_threshold skip_blank r c
    = Some p ->
    pixel_bounds p = (Z.of_nat c * patch_size, Z.of_nat r * patch_size,
                      patch_size, patch_size) /\
    Z.of_nat c * patch_size + patch_size <= width self /\
    Z.of_nat r * patch_size + patch_size <= height self).
  { intros r c p Hr Hc Hp.
    rewrite (candidate_bounds self patch_size _ blank_threshold
               HP HP Hrect skip_blank r c p Hr Hc Hp).
    apply grid_row_in_raster in Hr; [|done].
    apply grid_col_in_raster in Hc; [|done].
    pose proof (exact_cell _ _ (Z.of_nat c) HP Hw ltac:(lia) Hc) as Ec.
    pose proof (exact_cell _ _ (Z.of_nat r) HP Hh ltac:(lia) Hr) as Er.
    rewrite Ec, Er. split; [done|]. lia. }
  split_and!.
  - rewrite length_grid_patches_full by done.
    unfold grid_rows, grid_cols. rewrite !ceil_div_exact by done.
    assert (0 <= height self / patch_size) by (apply Z.div_pos; unfold height, nd_shape0, shape0; destruct (data self); lia).
    assert (0 <= width self / patch_size) by (apply Z.div_pos; unfold width, nd_shape1, shape1; destruct (data self) as [? [|]|? [|]]; lia).
    lia.
  - intros p Hp. apply elem_of_grid_patches in Hp as (r & c & Hr & Hc & Hp).
    destruct (Hbounds r c p Hr Hc Hp) as (Hb & Hx & Hy).
    eexists _, _. split; [exact Hb|]. lia.
  - intros px py Hpx Hpy.
    set (r := Z.to_nat (py / patch_size)).
    set (c := Z.to_nat (px / patch_size)).
    pose proof (Z.div_mod py patch_size ltac:(lia)) as Hdy.
    pose proof (Z.mod_pos_bound py patch_size HP) as Hmy.
    pose proof (Z.div_mod px patch_size ltac:(lia)) as Hdx.
    pose proof (Z.mod_pos_bound px patch_size HP) as Hmx.
    assert (0 <= py / patch_size) by (apply Z.div_pos; lia).
    assert (0 <= px / patch_size) by (apply Z.div_pos; lia).
    assert (Hr : (r < grid_rows self patch_size)%nat).
    { apply grid_row_in_raster; [done|]. unfold r. nia. }
    assert (Hc : (c < grid_cols self patch_size)%nat).
    { apply grid_col_in_raster; [done|]. unfold c. nia. }
    destruct (candidate_emits self patch_size patch_size blank_threshold
                HP HP Hrect skip_blank r c Hnone Hr Hc) as [p Hp].
    assert (Hin : p ∈ grid_patches self patch_size patch_size
                                    blank_threshold skip_blank).
    { apply elem_of_grid_patches. eauto. }
    apply list_elem_of_lookup in Hin as [i Hi].
    destruct (Hbounds r c p Hr Hc Hp) as (Hb & _ & _).
    exists i, p. split_and!; [done|..].
    + unfold covers. rewrite Hb. unfold r, c. nia.
    + intros j q Hj Hq.
      assert (Hqin : q ∈ grid_patches self patch_size patch_size
                                       blank_threshold skip_blank).
      { apply list_elem_of_lookup. eauto. }
      apply elem_of_grid_patches in Hqin as (r' & c' & Hr' & Hc' & Hq').
      destruct (Hbounds r' c' q Hr' Hc' Hq') as (Hb' & _ & _).
      unfold covers in Hq. rewrite Hb' in Hq.
      assert (r' = r) by (unfold r; nia).
      assert (c' = c) by (unfold c; nia). subst r' c'.
      eapply (NoDup_lookup (grid_pos <$> grid_patches self patch_size
                              patch_size blank_threshold skip_blank));
        [apply grid_patches_NoDup|..].
      * rewrite list_lookup_fmap, Hj. reflexivity.
      * rewrite list_lookup_fmap, Hi. simpl. f_equal.
        destruct (candidate_pos _ _ _ _ _ _ _ _ Hp) as [-> _].
        destruct (candidate_pos _ _ _ _ _ _ _ _ Hq') as [-> _]. done.
Qed.

End Tiling.

(** ** Patchify: the blank test *)

Section BlankTest.
Import Py Np Images Spec.

Lemma join_map2 {A B} (f : A -> B) (a : list (list A)) :
  mjoin (map2 f a) = f <$> mjoin a.
Proof.
  unfold map2. induction a as [|r a IH]; [done|].
  rewrite fmap_cons.
  change (mjoin (r :: a)) with (r ++ mjoin a).
  change (mjoin ((f <$> r) :: (fmap f <$> a)))
    with ((f <$> r) ++ mjoin (fmap f <$> a)).
  by rewrite fmap_app, IH.
Qed.

Lemma count_true_fmap {A} (f : A -> bool) (P : A -> Prop)
      `{!forall x, Decision (P x)} (l : list A) :
  (forall x, f x = true <-> P x) ->
  length (filter (fun b => b = true) (f <$> l)) = length (filter P l).
Proof.
  intros Hf. induction l as [|x l IH]; [done|].
  rewrite fmap_cons, !filter_cons.
  destruct (decide (f x = true)) as [E|E], (decide (P x)) as [Px|Px];
    simpl; rewrite ?IH; try done.
  - by apply Hf in E.
  - by apply Hf in Px.
Qed.

Lemma pos_of_nat_Z (n : nat) : n <> 0%nat -> Z.pos (Pos.of_nat n) = Z.of_nat n.
Proof. intros Hn. rewrite <- positive_nat_Z, Nat2Pos.id by done. done. Qed.

(** The comparison [np.mean(l) > threshold] on a boolean array. *)
Lemma float_gt_mean_bool (l : list bool) (threshold : Q) :
  l <> [] ->
  float_gt (mean_bool l) threshold = true
  <-> (threshold
       < Z.of_nat (length (filter (fun b => b = true) l))
         # Pos.of_nat (length l))%Q.
Proof.
  intros Hl. destruct l as [|b l]; [done|]. unfold mean_bool, float_gt.
  rewrite negb_true_iff, <- not_true_iff_false, Qle_bool_iff.
  split; [apply Qnot_le_lt|apply Qlt_not_le].
Qed.

Lemma white_iff_forallb (px : list Z) :
  forallb (fun v => 250 <=? v) px = true <-> white px.
Proof.
  unfold white. rewrite forallb_forall, Forall_forall.
  split; intros H v Hv.
  - apply Z.leb_le, H. by apply list_elem_of_In.
  - apply Z.leb_le, H. by apply list_elem_of_In.
Qed.

Lemma white_iff_leb (v : Z) : (250 <=? v) = true <-> white [v].
Proof.
  unfold white. rewrite Z.leb_le, Forall_singleton. done.
Qed.

Lemma is_blank_uint8_3d (r : list (list (list Z))) (threshold : Q) :
  mjoin r <> [] ->
  _is_blank (Arr3 uint8 r) threshold = true
  <-> (threshold < white_ratio (mjoin r))%Q.
Proof.
  intros Hne. unfold _is_blank, white_ratio. cbn [nd_dtype].
  rewrite join_map2, float_gt_mean_bool.
  - rewrite length_fmap, (count_true_fmap _ white) by apply white_iff_forallb.
    done.
  - intros E. apply fmap_nil_inv in E. done.
Qed.

Lemma is_blank_uint8_2d (r : list (list Z)) (threshold : Q) :
  mjoin r <> [] ->
  _is_blank (Arr2 uint8 r) threshold = true
  <-> (threshold < white_ratio ((fun v => [v]) <$> mjoin r))%Q.
Proof.
  intros Hne. unfold _is_blank, white_ratio. cbn [nd_dtype].
  rewrite join_map2, float_gt_mean_bool.
  - rewrite !length_fmap.
    rewrite (count_true_fmap _ (fun v => white [v])) by apply white_iff_leb.
    by rewrite length_filter_fmap.
  - intros E. apply fmap_nil_inv in E. done.
Qed.

(** An array of white samples only, of non-zero extent, is blank at
    every threshold below 1. *)
Lemma is_blank_all_white (a : ndarray) (threshold : Q) :
  nd_dtype a = uint8 -> nd_all (fun v => 250 <= v) a ->
  nd_shape0 a <> 0 -> nd_shape1 a <> 0 -> (threshold < 1)%Q ->
  _is_blank a threshold = true.
Proof.
  intros Hdt Hall H0 H1 Hthr.
  assert (Hone : forall (A : Type) (P : A -> Prop)
                   `{!forall x, Decision (P x)} (l : list A),
             l <> [] -> Forall P l ->
             (threshold < Z.of_nat (length (filter P l))
                          # Pos.of_nat (length l))%Q).
  { intros A P ? l Hl HP.
    replace (filter P l) with l.
    - unfold Qlt in *. cbn [Qnum Qden] in *.
      rewrite pos_of_nat_Z by (by destruct l).
      assert (0 < Z.of_nat (length l)) by (destruct l; [done|simpl; lia]).
      nia.
    - clear Hl. induction HP as [|x l Px _ IH]; [done|].
      rewrite filter_cons_True by done. by f_equal. }
  destruct a as [dt r|dt r]; simpl in *; subst dt.
  - destruct r as [|[|v row] r]; simpl in *; try done.
    apply is_blank_uint8_2d; [done|]. apply Hone; [done|].
    apply Forall_fmap, Forall_join. eapply Forall_impl; [exact Hall|].
    intros l Hl. eapply Forall_impl; [exact Hl|]. intros x Hx.
    by apply Forall_singleton.
  - destruct r as [|[|v row] r]; simpl in *; try done.
    apply is_blank_uint8_3d; [done|]. apply Hone; [done|].
    apply Forall_join. exact Hall.
Qed.

Lemma nd_all_slice2 (P : Z -> Prop) (y0 y1 x0 x1 : Z) (a : ndarray) :
  nd_all P a -> nd_all P (nd_slice2 y0 y1 x0 x1 a).
Proof.
  destruct a as [dt r|dt r]; simpl; unfold slice2; intros H;
    apply Forall_fmap; (eapply Forall_impl; [apply Forall_slice, H|]);
    intros l Hl; simpl; by apply Forall_slice.
Qed.

Lemma nd_dtype_slice2 (y0 y1 x0 x1 : Z) (a : ndarray) :
  nd_dtype (nd_slice2 y0 y1 x0 x1 a) = nd_dtype a.
Proof. by destruct a. Qed.

(** When a grid position emits nothing. *)
Lemma candidate_skipped (self : MapImage) (patch_size stride : Z)
      (threshold : Q) (skip_blank : bool) (r c : nat) :
  let x := Z.of_nat c * stride in
  let y := Z.of_nat r * stride in
  let patch_data :=
    nd_slice2 y (y + patch_size) x (x + patch_size) (data self) in
  candidate self patch_size stride threshold skip_blank r c = None
  <-> (nd_shape0 patch_data = 0 \/ nd_shape1 patch_data = 0) \/
      (skip_blank = true /\ _is_blank patch_data threshold = true).
Proof.
  intros x y patch_data. unfold candidate. fold x y patch_data.
  destruct (Z.eqb_spec (nd_shape0 patch_data) 0),
           (Z.eqb_spec (nd_shape1 patch_data) 0),
           skip_blank, (_is_blank patch_data threshold);
    simpl; split; intros H; try done; try tauto;
    try (destruct H as [[?|?]|[? ?]]; done).
Qed.

Lemma grid_patches_all_white (self : MapImage) (patch_size stride : Z)
      (threshold : Q) :
  nd_dtype (data self) = uint8 ->
  nd_all (fun v => 250 <= v) (data self) ->
  (threshold < 1)%Q ->
  grid_patches self patch_size stride threshold true = [].
Proof.
  intros Hdt Hall Hthr. unfold grid_patches. apply join_nil_2.
  apply Forall_fmap, Forall_forall. intros r _. simpl.
  unfold grid_row_patches.
  induction (seq 0 (grid_cols self stride)) as [|c l IH]; [done|].
  cbn [omap list_omap].
  replace (candidate self patch_size stride threshold true r c)
    with (@None Patch); [exact IH|].
  symmetry. apply candidate_skipped.
  destruct (Z.eq_dec (nd_shape0 (nd_slice2 (Z.of_nat r * stride)
    (Z.of_nat r * stride + patch_size) (Z.of_nat c * stride)
    (Z.of_nat c * stride + patch_size) (data self))) 0) as [E0|E0]; [tauto|].
  destruct (Z.eq_dec (nd_shape1 (nd_slice2 (Z.of_nat r * stride)
    (Z.of_nat r * stride + patch_size) (Z.of_nat c * stride)
    (Z.of_nat c * stride + patch_size) (data self))) 0) as [E1|E1]; [tauto|].
  right. split; [done|].
  apply is_blank_all_white; try done.
  - by rewrite nd_dtype_slice2.
  - by apply nd_all_slice2.
Qed.


End BlankTest.

(** ** Writing into the canvas *)

Section SetItem.
Import Py Np.

Implicit Types (canvas src : list (list (list Z))).

Lemma length_setitem_slice2 canvas y0 y1 x0 x1 src canvas' :
  setitem_slice2 canvas y0 y1 x0 x1 src = Ok canvas' ->
  length canvas' = length canvas.
Proof.
  unfold setitem_slice2. case_match; [|done]. intros [= <-].
  apply length_imap.
Qed.

Lemma rect_setitem_slice2 canvas y0 y1 x0 x1 src canvas' w :
  setitem_slice2 canvas y0 y1 x0 x1 src = Ok canvas' ->
  rect w canvas -> rect w canvas'.
Proof.
  unfold setitem_slice2. case_match; [|done]. intros [= <-].
  unfold rect. rewrite !Forall_lookup. intros Hrect r row Hrow.
  rewrite list_lookup_imap in Hrow.
  destruct (canvas !! r) as [row0|] eqn:E; [|done]. simpl in Hrow.
  injection Hrow as <-. specialize (Hrect r row0 E).
  case_match; [|done]. by rewrite length_imap.
Qed.

(** What is read back after an assignment: inside the destination
    slice the broadcast source, elsewhere the old entry. *)
Lemma getitem2_setitem_slice2 canvas y0 y1 x0 x1 src canvas' (r c : nat) :
  setitem_slice2 canvas y0 y1 x0 x1 src = Ok canvas' ->
  let r0 := slice_bound (shape0 canvas) y0 in
  let r1 := slice_bound (shape0 canvas) y1 in
  let c0 := slice_bound (shape1 canvas) x0 in
  let c1 := slice_bound (shape1 canvas) x1 in
  getitem2 canvas' r c
  = (fun px =>
       if (r0 <=? Z.of_nat r) && (Z.of_nat r <? r1) &&
          ((c0 <=? Z.of_nat c) && (Z.of_nat c <? c1))
       then match getitem2 src (bcast_idx (shape0 src) (r - Z.to_nat r0))
                           (bcast_idx (shape1 src) (c - Z.to_nat c0)) with
            | Some v => bcast_pixel (shape2 src) v
            | None => px
            end
       else px) <$> getitem2 canvas r c.
Proof.
  unfold setitem_slice2. case_match; [|done]. intros [= <-]. cbv zeta.
  unfold getitem2 at 1 4. rewrite list_lookup_imap.
  destruct (canvas !! r) as [row|]; [|done]. simpl.
  destruct ((slice_bound (shape0 canvas) y0 <=? Z.of_nat r)
            && (Z.of_nat r <? slice_bound (shape0 canvas) y1)); simpl.
  - rewrite list_lookup_imap. by destruct (row !! c).
  - by destruct (row !! c).
Qed.

Lemma setitem_slice2_Ok canvas y0 y1 x0 x1 src :
  (exists canvas', setitem_slice2 canvas y0 y1 x0 x1 src = Ok canvas')
  <-> bcast_ok (shape0 src)
        (Z.max 0 (slice_bound (shape0 canvas) y1
                  - slice_bound (shape0 canvas) y0)) = true /\
      bcast_ok (shape1 src)
        (Z.max 0 (slice_bound (shape1 canvas) x1
                  - slice_bound (shape1 canvas) x0)) = true /\
      bcast_ok (shape2 src) 3 = true.
Proof.
  unfold setitem_slice2. rewrite <- !andb_true_iff, andb_assoc.
  destruct (_ && _ && _); split; intros H; try done; eauto.
  by destruct H.
Qed.

Lemma bcast_idx_lt (s : Z) (i : nat) : Z.of_nat i < s -> bcast_idx s i = i.
Proof.
  intros Hi. unfold bcast_idx. destruct (Z.eqb_spec s 1); [lia|done].
Qed.

End SetItem.

Section ArrayReads.
Import Py Np.
Context {A : Type}.
Implicit Types (a : list (list A)).

Lemma getitem2_is_Some a (r c : nat) (w : Z) :
  Z.of_nat r < shape0 a -> rect w a -> Z.of_nat c < w ->
  is_Some (getitem2 a r c).
Proof.
  unfold getitem2, shape0, rect. intros Hr Hrect Hc.
  destruct (lookup_lt_is_Some_2 a r ltac:(lia)) as [row E].
  rewrite E. simpl. rewrite Forall_lookup in Hrect.
  specialize (Hrect r row E). apply lookup_lt_is_Some_2. lia.
Qed.

Lemma shape1_rect a (w : Z) : rect w a -> 0 < shape0 a -> shape1 a = w.
Proof.
  unfold rect, shape0, shape1. intros Hrect Hlen.
  destruct a as [|row a]; [simpl in Hlen; lia|].
  by apply Forall_cons in Hrect as [-> _].
Qed.

Lemma getitem2_map2 {B} (f : A -> B) a (r c : nat) :
  getitem2 (map2 f a) r c = f <$> getitem2 a r c.
Proof.
  unfold getitem2, map2. rewrite list_lookup_fmap.
  destruct (a !! r) as [row|]; [|done]. simpl. apply list_lookup_fmap.
Qed.

Lemma shape0_map2 {B} (f : A -> B) a : shape0 (map2 f a) = shape0 a.
Proof. unfold shape0, map2. by rewrite length_fmap. Qed.

Lemma shape1_map2 {B} (f : A -> B) a : shape1 (map2 f a) = shape1 a.
Proof. destruct a; [done|]. unfold shape1, map2. simpl. by rewrite length_fmap. Qed.

Lemma rect_map2 {B} (f : A -> B) a (w : Z) : rect w a -> rect w (map2 f a).
Proof.
  unfold rect, map2. intros H. apply Forall_fmap.
  eapply Forall_impl; [exact H|]. intros row Hrow. simpl.
  by rewrite length_fmap.
Qed.

End ArrayReads.

Section Stitch.
Import Py Np Images Downloader Spec.

Implicit Types (canvas tile_arr : list (list (list Z))).

Lemma length_convert_RGB_pixel (m : mode) (px : list Z) :
  length (convert_RGB_pixel m px) = 3%nat.
Proof. by destruct m. Qed.

Lemma nth_uint8 (i : nat) (px : list Z) :
  Forall uint8_sample px -> uint8_sample (nth i px 0).
Proof.
  intros H. destruct (nth_in_or_default i px 0) as [Hin| ->].
  - rewrite Forall_forall in H. by apply H, list_elem_of_In.
  - unfold uint8_sample. lia.
Qed.

Lemma uint8_convert_RGB_pixel (m : mode) (px : list Z) :
  Forall uint8_sample px -> Forall uint8_sample (convert_RGB_pixel m px).
Proof.
  intros H. destruct m; simpl; repeat constructor; by apply nth_uint8.
Qed.

Lemma shape0_converted (img : PILImage) :
  shape0 (np_array (convert_RGB img)) = shape0 (im_data img).
Proof. apply shape0_map2. Qed.

Lemma shape1_converted (img : PILImage) :
  shape1 (np_array (convert_RGB img)) = shape1 (im_data img).
Proof. apply shape1_map2. Qed.

Lemma converted_three_bands (img : PILImage) :
  pixels_all (fun px => length px = 3%nat) (np_array (convert_RGB img)).
Proof.
  intros r c px. unfold np_array, convert_RGB. simpl.
  rewrite getitem2_map2. destruct (getitem2 (im_data img) r c); [|done].
  intros [= <-]. apply length_convert_RGB_pixel.
Qed.

Lemma converted_uint8 (img : PILImage) :
  Forall (Forall (Forall uint8_sample)) (im_data img) ->
  pixels_all (Forall uint8_sample) (np_array (convert_RGB img)).
Proof.
  intros H8 r c px. unfold np_array, convert_RGB. simpl.
  rewrite getitem2_map2.
  destruct (getitem2 (im_data img) r c) as [px0|] eqn:E; [|done].
  intros [= <-]. apply uint8_convert_RGB_pixel.
  unfold getitem2 in E. destruct (im_data img !! r) as [row|] eqn:Er; [|done].
  simpl in E. rewrite Forall_lookup in H8. specialize (H8 r row Er).
  rewrite Forall_lookup in H8. exact (H8 c px0 E).
Qed.

(** The source of the write keeps the pixels of a three-band tile. *)
Lemma getitem2_take3 tile_arr (r c : nat) :
  pixels_all (fun px => length px = 3%nat) tile_arr ->
  getitem2 (map2 (take 3) tile_arr) r c = getitem2 tile_arr r c.
Proof.
  intros H3. rewrite getitem2_map2.
  destruct (getitem2 tile_arr r c) as [px|] eqn:E; [|done]. simpl.
  f_equal. apply take_ge. rewrite (H3 r c px E). lia.
Qed.

Lemma shape2_take3 tile_arr :
  pixels_all (fun px => length px = 3%nat) tile_arr ->
  shape2 (map2 (take 3) tile_arr) = 3 \/ shape2 (map2 (take 3) tile_arr) = 0.
Proof.
  intros H3. destruct tile_arr as [|[|px row] a]; simpl; [by right..|].
  left. rewrite length_take. rewrite (H3 0%nat 0%nat px) by done. done.
Qed.

Lemma slice_bound_nonneg (len i : Z) :
  0 <= i -> slice_bound len i = Z.min i len.
Proof. intros Hi. unfold slice_bound. destruct (Z.ltb_spec i 0); [lia|done]. Qed.

(** A successful write keeps the shape of the canvas, leaves every pixel
    outside the rectangle of the returned tile as it was, and stores
    nothing but pixels of the tile. *)
Lemma stitch_inv canvas (x y : Z) tile_arr canvas' :
  0 <= x -> 0 <= y ->
  pixels_all (fun px => length px = 3%nat) tile_arr ->
  stitch canvas x y tile_arr = Ok canvas' ->
  length canvas' = length canvas /\
  (forall w, rect w canvas -> rect w canvas') /\
  forall r c : nat,
    (~ in_tile x y tile_arr (Z.of_nat c) (Z.of_nat r) ->
     getitem2 canvas' r c = getitem2 canvas r c) /\
    (forall px', getitem2 canvas' r c = Some px' ->
       getitem2 canvas r c = Some px' \/
       exists i j, getitem2 tile_arr i j = Some px').
Proof.
  intros Hx Hy H3 Hst. unfold stitch in Hst. split_and!.
  - by eapply length_setitem_slice2.
  - intros w. by eapply rect_setitem_slice2.
  - intros r c.
    pose proof (getitem2_setitem_slice2 _ _ _ _ _ _ _ r c Hst) as Hget.
    cbv zeta in Hget. rewrite !shape0_map2, !shape1_map2 in Hget.
    assert (0 <= shape0 tile_arr) by (unfold shape0; lia).
    assert (0 <= shape1 tile_arr).
    { unfold shape1. destruct tile_arr; lia. }
    rewrite !slice_bound_nonneg in Hget by lia.
    set (cond := (_ && _ && (_ && _))%bool) in Hget.
    assert (Hcond : cond = true ->
                    in_tile x y tile_arr (Z.of_nat c) (Z.of_nat r)).
    { unfold cond, in_tile. rewrite !andb_true_iff, !Z.leb_le, !Z.ltb_lt. lia. }
    assert (Hsc : shape2 (map2 (take 3) tile_arr) = 3).
    { destruct (proj1 (setitem_slice2_Ok _ _ _ _ _ _) (ex_intro _ _ Hst))
        as (_ & _ & Hb).
      unfold bcast_ok in Hb. apply orb_true_iff in Hb.
      destruct (shape2_take3 tile_arr H3) as [E|E]; [done|].
      rewrite E in Hb. destruct Hb as [Hb|Hb]; done. }
    rewrite Hsc in Hget. unfold bcast_pixel in Hget. simpl in Hget.
    split.
    + intros Hout. rewrite Hget. destruct cond; [by destruct Hout; auto|].
      by destruct (getitem2 canvas r c).
    + intros px' Hpx'. rewrite Hget in Hpx'.
      destruct (getitem2 canvas r c) as [px|]; [|done]. simpl in Hpx'.
      destruct cond; [|by left].
      rewrite getitem2_take3 in Hpx' by done.
      destruct (getitem2 tile_arr _ _) eqn:E; [|by left].
      right. injection Hpx' as <-. eauto.
Qed.

Lemma shape2_take3_nonempty tile_arr :
  pixels_all (fun px => length px = 3%nat) tile_arr ->
  0 < shape1 tile_arr ->
  shape2 (map2 (take 3) tile_arr) = 3.
Proof.
  intros H3 Hw. destruct tile_arr as [|[|px row] a]; simpl in *; [lia..|].
  rewrite length_take. rewrite (H3 0%nat 0%nat px) by done. done.
Qed.

(** A tile that fits into the canvas at [(x, y)] is written there as
    it is. *)
Lemma stitch_fits canvas (x y h w : Z) tile_arr :
  shape0 canvas = h -> rect w canvas ->
  0 <= x -> 0 <= y ->
  0 < shape0 tile_arr -> 0 < shape1 tile_arr ->
  rect (shape1 tile_arr) tile_arr ->
  pixels_all (fun px => length px = 3%nat) tile_arr ->
  y + shape0 tile_arr <= h -> x + shape1 tile_arr <= w ->
  exists canvas',
    stitch canvas x y tile_arr = Ok canvas' /\
    forall r c : nat,
      in_tile x y tile_arr (Z.of_nat c) (Z.of_nat r) ->
      getitem2 canvas' r c
      = getitem2 tile_arr (r - Z.to_nat y) (c - Z.to_nat x) /\
      is_Some (getitem2 canvas' r c).
Proof.
  intros Hh Hrect Hx Hy Hth Htw Htrect H3 Hfy Hfx.
  assert (Hw : shape1 canvas = w) by (apply shape1_rect; [done|lia]).
  assert (Hsc := shape2_take3_nonempty tile_arr H3 Htw).
  destruct (proj2 (setitem_slice2_Ok canvas y (y + shape0 tile_arr)
                     x (x + shape1 tile_arr) (map2 (take 3) tile_arr)))
    as [canvas' Hst].
  { rewrite shape0_map2, shape1_map2, Hsc, Hh, Hw.
    rewrite !slice_bound_nonneg by lia. unfold bcast_ok.
    rewrite !orb_true_iff, !Z.eqb_eq. split_and!; left; lia. }
  exists canvas'. split; [exact Hst|]. intros r c [Hr Hc].
  pose proof (getitem2_setitem_slice2 _ _ _ _ _ _ _ r c Hst) as Hget.
  cbv zeta in Hget.
  rewrite shape0_map2, shape1_map2, Hsc, Hh, Hw in Hget.
  rewrite !slice_bound_nonneg in Hget by lia.
  rewrite !Z.min_l in Hget by lia.
  replace ((y <=? Z.of_nat r) && (Z.of_nat r <? y + shape0 tile_arr)
           && ((x <=? Z.of_nat c) && (Z.of_nat c <? x + shape1 tile_arr)))
    with true in Hget
    by (symmetry; rewrite !andb_true_iff, !Z.leb_le, !Z.ltb_lt; lia).
  rewrite !bcast_idx_lt, getitem2_take3 in Hget by (done || lia).
  destruct (getitem2_is_Some canvas r c w) as [px Hpx]; [lia|done|lia|].
  destruct (getitem2_is_Some tile_arr (r - Z.to_nat y) (c - Z.to_nat x)
              (shape1 tile_arr)) as [v Hv]; [lia|done|lia|].
  rewrite Hget, Hpx, Hv. simpl. eauto.
Qed.

End Stitch.

(** ** The tiled download *)

Section Loops.
Import Py Downloader.
Context {S : Type}.

Lemma elem_of_range (n a : Z) : a ∈ range n <-> 0 <= a < n.
Proof.
  unfold range. rewrite list_elem_of_fmap. split.
  - intros (k & -> & Hk). apply elem_of_seq in Hk. lia.
  - intros Ha. exists (Z.to_nat a). split; [lia|]. apply elem_of_seq. lia.
Qed.

Lemma range_S (n : nat) :
  range (Z.of_nat (Datatypes.S n)) = range (Z.of_nat n) ++ [Z.of_nat n].
Proof.
  rewrite !range_of_nat, seq_S, fmap_app. reflexivity.
Qed.

(** A property that every successful pass of the body keeps holds when
    the loop ends without an exception. *)
Lemma for_inv {A} (I : S -> list url -> Prop) (body : S -> A -> M S)
      (l : list A) :
  (forall a acc log acc' log',
     a ∈ l -> I acc log -> body acc a log = (log', Ok acc') ->
     I acc' log') ->
  forall acc log acc' log',
    I acc log -> for_ l acc body log = (log', Ok acc') -> I acc' log'.
Proof.
  induction l as [|a l IH]; intros Hbody acc log acc' log' HI Hfor.
  - injection Hfor as <- <-. exact HI.
  - cbn [for_] in Hfor. unfold bind in Hfor.
    destruct (body acc a log) as [log1 [acc1|e]] eqn:Hb; [|done].
    eapply IH; [|eapply Hbody; [left|exact HI|exact Hb]|exact Hfor].
    intros a0 ? ? ? ? Ha0. apply Hbody. by right.
Qed.

Lemma for_seq_total (body : S -> Z -> M S)
      (I : nat -> S -> list url -> Prop) (n k : nat) acc log :
  I k acc log ->
  (forall i acc log,
     (k <= i < k + n)%nat -> I i acc log ->
     exists acc' log',
       body acc (Z.of_nat i) log = (log', Ok acc') /\
       I (Datatypes.S i) acc' log') ->
  exists acc' log',
    for_ (Z.of_nat <$> seq k n) acc body log = (log', Ok acc') /\
    I (k + n)%nat acc' log'.
Proof.
  revert k acc log. induction n as [|n IH]; intros k acc log HI Hbody.
  - exists acc, log. rewrite Nat.add_0_r. done.
  - destruct (Hbody k acc log ltac:(lia) HI) as (acc1 & log1 & Hb & HI1).
    destruct (IH (Datatypes.S k) acc1 log1 HI1) as (acc' & log' & Hfor & HI').
    { intros i ? ? Hi. apply Hbody. lia. }
    exists acc', log'. split.
    + cbn [seq fmap list_fmap for_]. unfold bind. rewrite Hb. exact Hfor.
    + by replace (k + Datatypes.S n)%nat with (Datatypes.S k + n)%nat by lia.
Qed.

(** A loop over [range(n)] whose passes all succeed and step an indexed
    invariant, succeeds and ends in the invariant at [n]. *)
Lemma for_range_total (body : S -> Z -> M S)
      (I : nat -> S -> list url -> Prop) (n : nat) acc log :
  I 0%nat acc log ->
  (forall i acc log,
     (i < n)%nat -> I i acc log ->
     exists acc' log',
       body acc (Z.of_nat i) log = (log', Ok acc') /\
       I (Datatypes.S i) acc' log') ->
  exists acc' log',
    for_ (range (Z.of_nat n)) acc body log = (log', Ok acc') /\
    I n acc' log'.
Proof.
  intros HI Hbody. rewrite range_of_nat.
  apply (for_seq_total body I n 0 acc log HI).
  intros i ? ? Hi. apply Hbody. lia.
Qed.

End Loops.

Section TiledInvariant.
Import Py Np Images Downloader Spec.

Variable server : url -> option PILImage.
Variable self : IIIFDownloader.

(** One pass of the loop body: a request, an answer, a write. *)
Lemma download_tile_Ok canvas (row col : Z) log canvas' log' :
  download_tile server self canvas row col log = (log', Ok canvas') ->
  exists img,
    server (tile_request self row col) = Some img /\
    log' = log ++ [tile_request self row col] /\
    stitch canvas (col * tile_size self) (row * tile_size self)
           (np_array (convert_RGB img)) = Ok canvas'.
Proof.
  unfold download_tile, tile_region, bind, _fetch_image, lift.
  change (mkUrl _ _) with (tile_request self row col).
  destruct (server (tile_request self row col)) as [img|]; [|done].
  intros [= <- Hst]. eauto.
Qed.

Lemma zeros3_stitched (canvas : list (list (list Z))) :
  zeros3 (Downloader.height self) (Downloader.width self) = Ok canvas ->
  0 <= Downloader.height self /\ 0 <= Downloader.width self /\
  forall log,
    stitched server (Downloader.height self) (Downloader.width self)
             canvas log.
Proof.
  unfold zeros3.
  destruct (Z.ltb_spec (Downloader.height self) 0),
           (Z.ltb_spec (Downloader.width self) 0); try done.
  simpl. intros [= <-]. split_and!; [done..|]. intros log.
  assert (Hpx : forall (r c : nat) px,
    getitem2 (replicate (Z.to_nat (Downloader.height self))
                (replicate (Z.to_nat (Downloader.width self))
                   (replicate 3 0))) r c = Some px -> px = [0; 0; 0]).
  { intros r c px. unfold getitem2.
    destruct (replicate _ _ !! r) as [row|] eqn:E; [|done].
    apply lookup_replicate in E as [-> _]. simpl.
    intros E. by apply lookup_replicate in E as [-> _]. }
  split_and!.
  - unfold shape0. rewrite length_replicate. lia.
  - apply Forall_replicate. rewrite length_replicate. lia.
  - intros r c px Hget. rewrite (Hpx r c px Hget). split; [done|].
    intros _. repeat constructor; unfold uint8_sample; lia.
  - intros r c px Hget _. by apply (Hpx r c).
Qed.

Lemma download_tile_stitched canvas (row col : Z) log canvas' log' :
  0 <= row -> 0 <= col -> 0 < tile_size self ->
  stitched server (Downloader.height self) (Downloader.width self)
           canvas log ->
  download_tile server self canvas row col log = (log', Ok canvas') ->
  stitched server (Downloader.height self) (Downloader.width self)
           canvas' log'.
Proof.
  intros Hrow Hcol HT (Hh & Hrect & Hpx & Hzero) Hstep.
  apply download_tile_Ok in Hstep as (img & Hsrv & -> & Hst).
  pose proof (converted_three_bands img) as H3.
  assert (Hx : 0 <= col * tile_size self) by nia.
  assert (Hy : 0 <= row * tile_size self) by nia.
  destruct (stitch_inv _ _ _ _ _ Hx Hy H3 Hst) as (Hlen & Hrect' & Hget).
  split_and!.
  - unfold shape0 in *. by rewrite Hlen.
  - by apply Hrect'.
  - intros r c px' Hpx'.
    destruct (proj2 (Hget r c) px' Hpx') as [Hold|(i & j & Hnew)].
    + by apply (Hpx r c).
    + split; [by apply (H3 i j)|].
      intros H8. apply (converted_uint8 img (H8 _ _ Hsrv) i j). exact Hnew.
  - intros r c px' Hpx' Hnot.
    assert (Hout : ~ in_tile (col * tile_size self) (row * tile_size self)
                     (np_array (convert_RGB img)) (Z.of_nat c) (Z.of_nat r)).
    { intros Hin. apply (Hnot (tile_request self row col)).
      - apply elem_of_app. right. by left.
      - unfold written, tile_of. rewrite Hsrv. exact Hin. }
    rewrite (proj1 (Hget r c) Hout) in Hpx'.
    apply (Hzero r c px' Hpx'). intros u Hu. apply Hnot.
    apply elem_of_app. by left.
Qed.

(** C9: a raster that the tiled download produces has pixel data of
    shape [(height, width, 3)], whatever bands the decoded tiles had;
    its samples are 8-bit when the decoded tiles are; and a pixel
    outside every rectangle written for an answered request is zero. *)
Theorem tiled_raster_shape (log : list url) (m : MapImage) :
  _download_tiled server self [] = (log, Ok m) ->
  exists canvas,
    data m = Arr3 uint8 canvas /\
    shape0 canvas = Downloader.height self /\
    rect (Downloader.width self) canvas /\
    pixels_all (fun px => length px = 3%nat) canvas /\
    (server_8bit server -> pixels_all (Forall uint8_sample) canvas) /\
    forall (r c : nat) px,
      getitem2 canvas r c = Some px ->
      (forall u, u ∈ log -> ~ written server u (Z.of_nat c) (Z.of_nat r)) ->
      px = [0; 0; 0].
Proof.
  unfold _download_tiled, bind, lift, math_ceil_truediv, ret.
  destruct (Z.eqb_spec (tile_size self) 0) as [|HT0]; [done|].
  destruct (zeros3 _ _) as [canvas0|] eqn:Hz; [|done].
  apply zeros3_stitched in Hz as (HH & HW & Hinit).
  destruct (for_ _ _ _ _) as [log1 [canvas|]] eqn:Hfor; [|done].
  intros [= <- <-]. exists canvas. split; [done|].
  assert (Hfin : stitched server (Downloader.height self)
                          (Downloader.width self) canvas log1).
  { destruct (Z.lt_ge_cases (tile_size self) 0) as [Hneg|Hpos].
    - rewrite range_nonpos in Hfor by (by apply ceil_div_nonpos).
      injection Hfor as <- <-. apply Hinit.
    - revert Hfor. apply for_inv; [|apply Hinit].
      intros row acc lg acc' lg' Hrow Hacc. apply for_inv; [|exact Hacc].
      intros col acc1 lg1 acc1' lg1' Hcol Hacc1.
      apply elem_of_range in Hrow, Hcol.
      apply download_tile_stitched; (done || lia). }
  destruct Hfin as (Hh & Hrect & Hpx & Hzero).
  split_and!; [done|done|..|done].
  - intros r c px Hget. by apply (Hpx r c).
  - intros H8 r c px Hget. by apply (Hpx r c).
Qed.

End TiledInvariant.

Section TiledReconstruction.
Import Py Np Images Downloader Spec.

Variable server : url -> option PILImage.
Variable self : IIIFDownloader.
Hypothesis width_pos : 0 < Downloader.width self.
Hypothesis height_pos : 0 < Downloader.height self.
Hypothesis tile_size_pos : 0 < tile_size self.
Hypothesis served : serves_requested_extents server self.

Local Abbreviation T := (tile_size self).
Local Abbreviation rows := (ceil_div (Downloader.height self) (tile_size self)).
Local Abbreviation cols := (ceil_div (Downloader.width self) (tile_size self)).

Lemma classic_cell (a b i j : Z) : (a = i /\ b = j) \/ ~ (a = i /\ b = j).
Proof. destruct (Z.eq_dec a i), (Z.eq_dec b j); tauto. Qed.

Lemma cell_of_pixel (i r : Z) : i * T <= r < i * T + T <-> r / T = i.
Proof.
  split.
  - intros Hr. symmetry. apply (Z.div_unique r T i (r - i * T)); lia.
  - intros <-. pose proof (Z.div_mod r T ltac:(lia)).
    pose proof (Z.mod_pos_bound r T tile_size_pos). lia.
Qed.

Lemma pixel_row_in_grid (r : nat) :
  Z.of_nat r < Downloader.height self -> 0 <= Z.of_nat r / T < rows.
Proof.
  intros Hr. split; [apply Z.div_pos; lia|].
  apply ceil_div_lt_iff; [done|].
  pose proof (proj2 (cell_of_pixel _ (Z.of_nat r)) eq_refl). lia.
Qed.

Lemma pixel_col_in_grid (c : nat) :
  Z.of_nat c < Downloader.width self -> 0 <= Z.of_nat c / T < cols.
Proof.
  intros Hc. split; [apply Z.div_pos; lia|].
  apply ceil_div_lt_iff; [done|].
  pose proof (proj2 (cell_of_pixel _ (Z.of_nat c)) eq_refl). lia.
Qed.

Lemma reconstructed_impl (done done' : Z -> Z -> Prop) canvas :
  (forall row col, 0 <= row < rows -> 0 <= col < cols ->
                   done' row col -> done row col) ->
  reconstructed server self done canvas ->
  reconstructed server self done' canvas.
Proof.
  intros Himpl (Hh & Hrect & Hpx). split_and!; [done..|].
  intros r c Hr Hc Hd. apply Hpx; [done..|].
  apply Himpl; [by apply pixel_row_in_grid|by apply pixel_col_in_grid|done].
Qed.

(** One pass of the loop body on a cell of the grid fills that cell and
    touches no other. *)
Lemma download_tile_reconstructs (done : Z -> Z -> Prop) canvas
      (i j : nat) log :
  Z.of_nat i < rows -> Z.of_nat j < cols ->
  reconstructed server self done canvas ->
  exists canvas',
    download_tile server self canvas (Z.of_nat i) (Z.of_nat j) log
    = (log ++ [tile_request self (Z.of_nat i) (Z.of_nat j)], Ok canvas') /\
    reconstructed server self
      (fun row col => done row col \/ (row = Z.of_nat i /\ col = Z.of_nat j))
      canvas'.
Proof.
  intros Hi Hj (Hh & Hrect & Hpx).
  destruct (served (Z.of_nat i) (Z.of_nat j)) as (img & Hsrv & Hth & Htrect);
    [lia..|].
  apply ceil_div_lt_iff in Hi, Hj; [|done..].
  set (tile_arr := np_array (convert_RGB img)).
  set (x := Z.of_nat j * T). set (y := Z.of_nat i * T).
  assert (H3 : pixels_all (fun px => length px = 3%nat) tile_arr)
    by apply converted_three_bands.
  assert (Hth' : shape0 tile_arr = Z.min T (Downloader.height self - y)).
  { unfold tile_arr. by rewrite shape0_converted. }
  assert (Htrect' : rect (Z.min T (Downloader.width self - x)) tile_arr).
  { unfold tile_arr, np_array, convert_RGB. simpl. by apply rect_map2. }
  assert (Htw' : shape1 tile_arr = Z.min T (Downloader.width self - x)).
  { apply shape1_rect; [done|]. fold y in Hi. lia. }
  fold x in Hj. fold y in Hi.
  destruct (stitch_fits canvas x y (Downloader.height self)
              (Downloader.width self) tile_arr)
    as (canvas' & Hst & Hin); try (done || lia).
  { by rewrite Htw'. }
  assert (Hx : 0 <= x) by (unfold x; lia).
  assert (Hy : 0 <= y) by (unfold y; lia).
  destruct (stitch_inv _ _ _ _ _ Hx Hy H3 Hst) as (Hlen & Hrect' & Hout).
  exists canvas'. split.
  - unfold download_tile, tile_region, bind, _fetch_image, lift.
    change (mkUrl _ _) with (tile_request self (Z.of_nat i) (Z.of_nat j)).
    rewrite Hsrv. fold tile_arr. fold x y. by rewrite Hst.
  - split_and!; [unfold shape0 in *; by rewrite Hlen|by apply Hrect'|].
    intros r c Hr Hc Hd.
    assert (Hcell : in_tile x y tile_arr (Z.of_nat c) (Z.of_nat r)
                    <-> Z.of_nat r / T = Z.of_nat i /\
                        Z.of_nat c / T = Z.of_nat j).
    { unfold in_tile. rewrite Hth', Htw', <- !cell_of_pixel.
      fold x y. lia. }
    destruct (classic_cell (Z.of_nat r / T) (Z.of_nat c / T)
                           (Z.of_nat i) (Z.of_nat j)) as [[Er Ec]|Hne].
    + destruct (Hin r c (proj2 Hcell (conj Er Ec))) as [Hget Hsome].
      split; [done|]. rewrite Hget. unfold tile_pixel.
      rewrite Er, Ec. unfold tile_of. rewrite Hsrv. reflexivity.
    + rewrite (proj1 (Hout r c)) by (rewrite Hcell; exact Hne).
      apply Hpx; [done..|]. destruct Hd as [Hd|Hd]; [done|]. by destruct Hne.
Qed.

Lemma row_loop_reconstructs canvas (i : nat) log :
  Z.of_nat i < rows ->
  reconstructed server self (fun row _ => row < Z.of_nat i) canvas ->
  exists canvas' log',
    for_ (range cols) canvas
         (fun canvas col => download_tile server self canvas (Z.of_nat i) col)
         log
    = (log', Ok canvas') /\
    log' = log ++ ((fun c => tile_request self (Z.of_nat i) c) <$> range cols) /\
    reconstructed server self (fun row _ => row < Z.of_nat (S i)) canvas'.
Proof.
  intros Hi Hrec.
  assert (Hcols : cols = Z.of_nat (Z.to_nat cols)).
  { assert (0 < cols); [|lia]. apply ceil_div_lt_iff; [done|lia]. }
  rewrite Hcols.
  destruct (for_range_total
    (fun canvas col => download_tile server self canvas (Z.of_nat i) col)
    (fun j canvas' log' =>
       log' = log ++ ((fun c => tile_request self (Z.of_nat i) c)
                        <$> range (Z.of_nat j)) /\
       reconstructed server self
         (fun row col => row < Z.of_nat i \/
                         (row = Z.of_nat i /\ col < Z.of_nat j)) canvas')
    (Z.to_nat cols) canvas log) as (canvas' & log' & Hfor & Hlog & Hrec').
  - split; [by rewrite app_nil_r|].
    revert Hrec. apply reconstructed_impl. intros row col Hrow Hcol. lia.
  - intros j acc lg Hj [-> Hacc].
    destruct (download_tile_reconstructs _ acc i j
                (log ++ ((fun c => tile_request self (Z.of_nat i) c)
                           <$> range (Z.of_nat j))) Hi ltac:(lia) Hacc)
      as (acc' & Hstep & Hacc').
    exists acc', (log ++ ((fun c => tile_request self (Z.of_nat i) c)
                            <$> range (Z.of_nat (S j)))).
    split_and!.
    + rewrite Hstep, range_S, fmap_app, app_assoc. reflexivity.
    + reflexivity.
    + revert Hacc'. apply reconstructed_impl. intros row col Hrow Hcol. lia.
  - exists canvas', log'. split_and!; [done..|].
    revert Hrec'. apply reconstructed_impl. intros row col Hrow Hcol. lia.
Qed.

Lemma grid_loop_reconstructs canvas :
  shape0 canvas = Downloader.height self ->
  rect (Downloader.width self) canvas ->
  exists canvas',
    for_ (range rows) canvas
         (fun canvas row =>
            for_ (range cols) canvas
                 (fun canvas col => download_tile server self canvas row col))
         []
    = (tile_requests self, Ok canvas') /\
    reconstructed server self (fun _ _ => True) canvas'.
Proof.
  intros Hh Hrect.
  assert (Hrows : rows = Z.of_nat (Z.to_nat rows)).
  { assert (0 < rows); [|lia]. apply ceil_div_lt_iff; [done|lia]. }
  unfold tile_requests. rewrite Hrows.
  destruct (for_range_total
    (fun canvas row =>
       for_ (range cols) canvas
            (fun canvas col => download_tile server self canvas row col))
    (fun i canvas' log' =>
       log' = mjoin ((fun r => (fun c => tile_request self r c) <$> range cols)
                       <$> range (Z.of_nat i)) /\
       reconstructed server self (fun row _ => row < Z.of_nat i) canvas')
    (Z.to_nat rows) canvas []) as (canvas' & log' & Hfor & -> & Hrec').
  - split; [done|]. split_and!; [done..|]. intros r c _ _ Hd.
    exfalso. assert (0 <= Z.of_nat r / T) by (apply Z.div_pos; lia). lia.
  - intros i acc lg Hi [-> Hacc].
    destruct (row_loop_reconstructs acc i
                (mjoin ((fun r => (fun c => tile_request self r c)
                                    <$> range cols)
                          <$> range (Z.of_nat i))) ltac:(lia) Hacc)
      as (acc' & lg' & Hstep & -> & Hacc').
    exists acc'. eexists. split_and!; [exact Hstep| |exact Hacc'].
    rewrite range_S, fmap_app, join_app. simpl. by rewrite app_nil_r.
  - exists canvas'. split; [exact Hfor|].
    revert Hrec'. apply reconstructed_impl. intros row col Hrow Hcol _. lia.
Qed.

End TiledReconstruction.

Section TiledDownloadProps.
Import Py Np Images Downloader Spec.


End TiledDownloadProps.

Section StitchProps.
Import Py Np Images Downloader Spec.

(** C4, as amended: the stitch step writes the whole returned tile at
    offset [(x, y)], over the extent it came back with: when that
    rectangle lies inside the canvas, the write succeeds, the pixels of
    the rectangle take the tile's pixels, and every other pixel is kept.
    The write therefore stays inside an expected cell that the returned
    extent does not exceed. *)
Theorem stitch_writes_returned_extent
        (canvas : list (list (list Z))) (x y h w : Z) (img : PILImage) :
  let tile_arr := np_array (convert_RGB img) in
  shape0 canvas = h -> rect w canvas ->
  0 <= x -> 0 <= y ->
  0 < shape0 tile_arr -> 0 < shape1 tile_arr ->
  rect (shape1 tile_arr) tile_arr ->
  y + shape0 tile_arr <= h -> x + shape1 tile_arr <= w ->
  exists canvas',
    stitch canvas x y tile_arr = Ok canvas' /\
    (forall r c : nat,
       (in_tile x y tile_arr (Z.of_nat c) (Z.of_nat r) ->
        getitem2 canvas' r c
        = getitem2 tile_arr (r - Z.to_nat y) (c - Z.to_nat x)) /\
       (~ in_tile x y tile_arr (Z.of_nat c) (Z.of_nat r) ->
        getitem2 canvas' r c = getitem2 canvas r c)) /\
    (forall cell_w cell_h : Z,
       shape1 tile_arr <= cell_w -> shape0 tile_arr <= cell_h ->
       forall r c : nat,
         ~ (y <= Z.of_nat r < y + cell_h /\ x <= Z.of_nat c < x + cell_w) ->
         getitem2 canvas' r c = getitem2 canvas r c).
Proof.
  intros tile_arr Hh Hrect Hx Hy Hth Htw Htrect Hfy Hfx.
  pose proof (converted_three_bands img) as H3. fold tile_arr in H3.
  destruct (stitch_fits canvas x y h w tile_arr)
    as (canvas' & Hst & Hin); try done.
  destruct (stitch_inv _ _ _ _ _ Hx Hy H3 Hst) as (_ & _ & Hout).
  exists canvas'. split_and!; [done|..].
  - intros r c. split; [apply Hin|apply Hout].
  - intros cell_w cell_h Hw Hh' r c Hnot. apply Hout.
    unfold in_tile. lia.
Qed.

(** C8, as amended: with a tile size of zero or less no tile is
    requested; a tile size of zero ends the download with a division
    error, a negative one yields the untouched zero canvas. *)
Theorem nonpositive_tile_size_no_request
        (server : url -> option PILImage) (self : IIIFDownloader)
        (log : list url) :
  tile_size self <= 0 ->
  (_download_tiled server self log).1 = log /\
  (tile_size self = 0 ->
   (_download_tiled server self log).2 = Raise ZeroDivisionError) /\
  (tile_size self < 0 ->
   0 <= Downloader.height self -> 0 <= Downloader.width self ->
   (_download_tiled server self log).2
   = Ok (mkMapImage
           (Arr3 uint8
              (replicate (Z.to_nat (Downloader.height self))
                 (replicate (Z.to_nat (Downloader.width self)) [0; 0; 0])))
           None None)).
Proof.
  intros HT. unfold _download_tiled, bind, lift, math_ceil_truediv, ret.
  destruct (Z.eqb_spec (tile_size self) 0) as [E|E].
  - split_and!; [done|done|lia].
  - unfold zeros3.
    destruct (Z.ltb_spec (Downloader.height self) 0),
             (Z.ltb_spec (Downloader.width self) 0); simpl;
      try (split_and!; [done|done|lia]).
    rewrite range_nonpos by (apply ceil_div_nonpos; lia). simpl.
    split_and!; done.
Qed.

End StitchProps.

(** ** The properties on the sample inputs *)

Section Worked.
Import Py Geo Np Images Downloader Spec Examples.

Lemma grey_server_serves (self : IIIFDownloader) :
  0 < tile_size self ->
  serves_requested_extents grey_server self.
Proof.
  intros HT row col Hrow Hcol. unfold grey_server, tile_request. simpl.
  eexists. split; [reflexivity|]. simpl.
  destruct Hrow as [Hrow0 Hrow], Hcol as [Hcol0 Hcol].
  apply ceil_div_lt_iff in Hrow, Hcol; [|done..].
  split.
  - unfold shape0. rewrite length_replicate. lia.
  - apply Forall_replicate. rewrite length_replicate. lia.
Qed.

Lemma grey_server_8bit : server_8bit grey_server.
Proof.
  intros u img. unfold grey_server. destruct (url_region u); [done|].
  intros [= <-]. simpl. do 2 apply Forall_replicate.
  constructor; [|done]. unfold uint8_sample.
  pose proof (Z.mod_pos_bound (x + y) 256). lia.
Qed.


(** C2 on the sample sheet: the white block at grid position (0, 0) and
    the white cell (1, 1) are skipped and leave gaps in the numbering. *)
Lemma patchify_grid_positions_witness :
  exists ps,
    patchify sheet 2 0 (95 # 100) true = Ok ps /\
    grid_pos <$> ps = [(0, 1); (0, 2); (1, 0); (1, 2)] /\
    StronglySorted row_major_lt (grid_pos <$> ps).
Proof.
  eexists. split; [reflexivity|]. split; [reflexivity|].
  apply (patchify_grid_positions sheet 2 0 (95 # 100) true _ eq_refl).
Defined.


(** C4 as stated fails: the stitch step on a tile one column wider than
    its cell overwrites the pixel right of the cell. *)
Lemma stitch_writes_outside_cell :
  let self := mkIIIF 4 2 2 in
  let canvas := replicate 2 (replicate 4 [0; 0; 0]) in
  let canvas' := replicate 2 (replicate 3 [9; 9; 9] ++ [[0; 0; 0]]) in
  tile_region self 0 0 = (0, 0, 2, 2) /\
  download_tile wide_server self canvas 0 0 []
  = ([tile_request self 0 0], Ok canvas') /\
  getitem2 canvas 0 2 = Some [0; 0; 0] /\
  getitem2 canvas' 0 2 = Some [9; 9; 9].
Proof. split_and!; reflexivity. Qed.

(** C4, as amended, on a 2 x 2 grey tile written at (1, 0). *)
Lemma stitch_writes_returned_extent_witness :
  exists canvas',
    stitch (replicate 2 (replicate 4 [0; 0; 0])) 1 0
           (np_array (convert_RGB (mkPIL L [[[5]; [6]]; [[7]; [8]]])))
    = Ok canvas' /\
    getitem2 canvas' 1 2 = Some [8; 8; 8] /\
    getitem2 canvas' 1 3 = Some [0; 0; 0].
Proof.
  destruct (stitch_writes_returned_extent
              (replicate 2 (replicate 4 [0; 0; 0])) 1 0 2 4
              (mkPIL L [[[5]; [6]]; [[7]; [8]]]))
    as (canvas' & Hst & Hpx & _);
    try reflexivity; try (simpl; repeat constructor); try (vm_compute; congruence).
  exists canvas'. split; [exact Hst|]. split.
  - rewrite (proj1 (Hpx 1%nat 2%nat)); [reflexivity|]. vm_compute. intuition congruence.
  - rewrite (proj2 (Hpx 1%nat 3%nat)); [reflexivity|]. vm_compute. intuition congruence.
Defined.

(** C5 as stated fails: a raster of white pixels only, cut into patches
    of 1 with the default blank skipping, emits none of its 4 patches. *)
Lemma patchify_skips_blank_tiles :
  patchify white_sheet 1 0 (95 # 100) true = Ok [] /\
  Images.height white_sheet mod 1 = 0 /\ Images.width white_sheet mod 1 = 0 /\
  (Images.height white_sheet / 1) * (Images.width white_sheet / 1) = 4.
Proof. split_and!; reflexivity. Qed.

(** C5, as amended, on the dark sample, with blank skipping on. *)
Lemma patchify_tiles_exactly_witness :
  exists ps,
    patchify dark_sheet 2 0 (95 # 100) true = Ok ps /\
    Z.of_nat (length ps) = 2 /\
    pixel_bounds <$> ps = [(0, 0, 2, 2); (2, 0, 2, 2)].
Proof.
  destruct (patchify_tiles_exactly dark_sheet 2 (95 # 100) true)
    as (ps & Hps & Hlen & _).
  - reflexivity.
  - simpl. repeat constructor.
  - reflexivity.
  - reflexivity.
  - intros r c Hr Hc. vm_compute in Hr, Hc.
    assert (r = 0%nat) as -> by lia.
    destruct c as [|[|c]]; [reflexivity..|lia].
  - exists ps. split; [exact Hps|]. split; [exact Hlen|].
    vm_compute in Hps. injection Hps as <-. reflexivity.
Defined.

(** C8 as stated fails: a negative tile size is not rejected, the
    download returns the zero canvas. *)
Lemma negative_tile_size_not_rejected :
  _download_tiled grey_server (mkIIIF 4 3 (-2)) []
  = ([], Ok (mkMapImage
               (Arr3 uint8 (replicate 3 (replicate 4 [0; 0; 0])))
               None None)).
Proof. reflexivity. Qed.

(** C8, as amended, at tile size 0. *)
Lemma nonpositive_tile_size_no_request_witness :
  (_download_tiled grey_server (mkIIIF 4 3 0) []).1 = [] /\
  (_download_tiled grey_server (mkIIIF 4 3 0) []).2
  = Raise ZeroDivisionError.
Proof.
  destruct (nonpositive_tile_size_no_request grey_server (mkIIIF 4 3 0) [])
    as (Hlog & Hzero & _); [simpl; lia|].
  split; [exact Hlog|]. apply Hzero. reflexivity.
Defined.

(** C9 on a 5 x 3 image in tiles of 2, served as grey images. *)
Lemma tiled_raster_shape_witness :
  exists canvas,
    shape0 canvas = 3 /\ rect 5 canvas /\
    pixels_all (fun px => length px = 3%nat) canvas /\
    pixels_all (Forall uint8_sample) canvas.
Proof.
  assert (Hrun : exists log m,
    _download_tiled grey_server (mkIIIF 5 3 2) [] = (log, Ok m)).
  { eexists _, _. vm_compute. reflexivity. }
  destruct Hrun as (log & m & Hrun).
  destruct (tiled_raster_shape grey_server (mkIIIF 5 3 2) log m Hrun)
    as (canvas & _ & Hh & Hrect & H3 & H8 & _).
  exists canvas. split_and!; [done..|]. apply H8, grey_server_8bit.
Defined.


(** Outside the contract of [patchify]: a negative patch size with a
    more negative overlap passes the stride check, and the slice bounds
    then count from the end of each axis. *)
Example patchify_negative_patch_size :
  pixel_bounds <$> default [] (match patchify sheet (-2) (-5) (95 # 100) false with
                               | Ok ps => Some ps
                               | Raise _ => None
                               end)
  = [(0, 0, 3, 1)].
Proof. reflexivity. Qed.

End Worked.

(** ** Patchify: where the patches lie and what they hold *)

Section MoreSliceFacts.
Import Py Np.
Context {A : Type}.

Lemma length_slice_le (lo hi : Z) (l : list A) :
  0 <= lo ->
  Z.of_nat (length (slice lo hi l)) <= Z.max 0 (Z.of_nat (length l) - lo).
Proof.
  intros Hlo. unfold slice, slice_start, slice_stop.
  rewrite length_take, length_drop, (slice_bound_nonneg _ lo) by done. lia.
Qed.

Lemma slice_all (hi : Z) (l : list A) :
  Z.of_nat (length l) <= hi -> slice 0 hi l = l.
Proof.
  intros Hhi. rewrite slice_nonneg by lia. simpl. rewrite drop_0.
  apply take_ge. lia.
Qed.

End MoreSliceFacts.

Section MoreSlice2Facts.
Import Py Np.
Context {A : Type}.
Implicit Types (a : list (list A)).

Lemma shape0_slice2_le (y0 y1 x0 x1 : Z) a :
  0 <= y0 -> shape0 (slice2 y0 y1 x0 x1 a) <= Z.max 0 (shape0 a - y0).
Proof.
  intros Hy. unfold shape0, slice2. rewrite length_fmap.
  by apply length_slice_le.
Qed.

Lemma shape1_slice2_le (y0 y1 x0 x1 w : Z) a :
  0 <= x0 -> rect w a ->
  shape1 (slice2 y0 y1 x0 x1 a) <= Z.max 0 (w - x0).
Proof.
  intros Hx Hrect. unfold slice2.
  destruct (slice y0 y1 a) as [|r rs] eqn:E; [simpl; lia|].
  assert (Hr : r ∈ a).
  { assert (Hin : r ∈ slice y0 y1 a) by (rewrite E; left).
    unfold slice in Hin. by apply subseteq_take, subseteq_drop in Hin. }
  unfold rect in Hrect. rewrite Forall_forall in Hrect.
  simpl. rewrite <- (Hrect r Hr). by apply length_slice_le.
Qed.

Lemma getitem2_slice2 (y0 y1 x0 x1 : Z) a (i j : nat) :
  0 <= y0 <= y1 -> 0 <= x0 <= x1 ->
  Z.of_nat i < y1 - y0 -> Z.of_nat j < x1 - x0 ->
  getitem2 (slice2 y0 y1 x0 x1 a) i j
  = getitem2 a (Z.to_nat y0 + i) (Z.to_nat x0 + j).
Proof.
  intros Hy Hx Hi Hj. unfold getitem2, slice2.
  rewrite list_lookup_fmap, lookup_slice by done.
  rewrite decide_True by done.
  destruct (a !! (Z.to_nat y0 + i)%nat) as [row|]; [|done]. simpl.
  rewrite lookup_slice by done. by rewrite decide_True.
Qed.

Lemma slice2_all (y1 x1 w : Z) a :
  shape0 a <= y1 -> w <= x1 -> rect w a -> slice2 0 y1 0 x1 a = a.
Proof.
  intros Hy Hx Hrect. unfold slice2, shape0 in *.
  rewrite slice_all by done. clear Hy.
  induction Hrect as [|row a Hrow _ IH]; [done|].
  rewrite fmap_cons, IH. f_equal. apply slice_all. lia.
Qed.

End MoreSlice2Facts.

Section PatchesInside.
Import Py Np Images Spec Extra.

Lemma nd_shape0_nonneg (a : ndarray) : 0 <= nd_shape0 a.
Proof. destruct a; unfold nd_shape0, shape0; lia. Qed.

Lemma nd_shape1_nonneg (a : ndarray) : 0 <= nd_shape1 a.
Proof. destruct a as [? [|]|? [|]]; unfold nd_shape1, shape1; lia. Qed.

(** X1: every emitted patch has a non-empty rectangle inside the raster,
    whatever the patch size and overlap, and its pixel data has the extent
    of the rectangle. *)
Theorem patches_inside_raster (self : MapImage) (patch_size overlap : Z)
        (blank_threshold : Q) (skip_blank : bool)
        (ps : list Patch) (p : Patch) :
  nd_rect (width self) (data self) ->
  patchify self patch_size overlap blank_threshold skip_blank = Ok ps ->
  p ∈ ps ->
  exists x y pw ph,
    pixel_bounds p = (x, y, pw, ph) /\
    0 <= x /\ 0 <= y /\ 0 < pw /\ 0 < ph /\
    x + pw <= width self /\ y + ph <= height self /\
    nd_shape0 (image p) = ph /\ nd_shape1 (image p) = pw.
Proof.
  intros Hrect Hps Hp. rewrite patchify_eq_grid in Hps.
  destruct (Z.leb_spec (patch_size - overlap) 0) as [|Hs]; [done|].
  injection Hps as <-.
  apply elem_of_grid_patches in Hp as (r & c & _ & _ & Hp).
  unfold candidate in Hp.
  set (x := Z.of_nat c * (patch_size - overlap)) in *.
  set (y := Z.of_nat r * (patch_size - overlap)) in *.
  set (patch_data := nd_slice2 y (y + patch_size) x (x + patch_size)
                               (data self)) in *.
  destruct (Z.eqb_spec (nd_shape0 patch_data) 0) as [|H0]; [done|].
  destruct (Z.eqb_spec (nd_shape1 patch_data) 0) as [|H1]; [done|].
  simpl in Hp. destruct (skip_blank && _); [done|]. injection Hp as <-.
  assert (Hx : 0 <= x) by (unfold x; nia).
  assert (Hy : 0 <= y) by (unfold y; nia).
  pose proof (nd_shape0_nonneg patch_data).
  pose proof (nd_shape1_nonneg patch_data).
  assert (Hh : nd_shape0 patch_data <= Z.max 0 (height self - y)).
  { unfold patch_data, height. destruct (data self); simpl;
      by apply shape0_slice2_le. }
  assert (Hw : nd_shape1 patch_data <= Z.max 0 (width self - x)).
  { unfold patch_data. destruct (data self); simpl in *;
      by apply shape1_slice2_le. }
  eexists _, _, _, _. split; [reflexivity|]. simpl. lia.
Qed.

End PatchesInside.

Section PatchWindows.
Import Py Np Images Spec Extra.

Lemma nd_pixel_slice2 (a : ndarray) (y x p : Z) (i j : nat) :
  0 <= y -> 0 <= x -> Z.of_nat i < p -> Z.of_nat j < p ->
  nd_pixel (nd_slice2 y (y + p) x (x + p) a) i j
  = nd_pixel a (Z.to_nat y + i) (Z.to_nat x + j).
Proof.
  intros Hy Hx Hi Hj. destruct a; simpl;
    rewrite getitem2_slice2 by lia; reflexivity.
Qed.

Lemma nd_pixel_is_Some (a : ndarray) (w : Z) (r c : nat) :
  Z.of_nat r < nd_shape0 a -> nd_rect w a -> Z.of_nat c < w ->
  is_Some (nd_pixel a r c).
Proof.
  intros Hr Hrect Hc. destruct a; simpl in *.
  - apply fmap_is_Some. by apply (getitem2_is_Some _ _ _ w).
  - by apply (getitem2_is_Some _ _ _ w).
Qed.

Lemma candidate_image (self : MapImage) (patch_size stride : Z)
      (blank_threshold : Q) (skip_blank : bool) (r c : nat) (p : Patch) :
  candidate self patch_size stride blank_threshold skip_blank r c = Some p ->
  let x := Z.of_nat c * stride in
  let y := Z.of_nat r * stride in
  image p = nd_slice2 y (y + patch_size) x (x + patch_size) (data self) /\
  pixel_bounds p = (x, y, nd_shape1 (image p), nd_shape0 (image p)) /\
  geo_bounds p
  = (if is_georeferenced self then
       (fun t => Geo.get_patch_geo_bounds x y (nd_shape1 (image p))
                                          (nd_shape0 (image p)) t)
         <$> transform self
     else None).
Proof.
  unfold candidate. intros Hp. repeat case_match; simplify_eq; done.
Qed.

(** X2: the pixel data of an emitted patch is the window of the raster
    at the patch's origin: entry [(i, j)] of the patch is entry
    [(y + i, x + j)] of the raster. *)
Theorem patch_image_is_window (self : MapImage) (patch_size overlap : Z)
        (blank_threshold : Q) (skip_blank : bool)
        (ps : list Patch) (p : Patch) :
  0 < patch_size ->
  nd_rect (width self) (data self) ->
  patchify self patch_size overlap blank_threshold skip_blank = Ok ps ->
  p ∈ ps ->
  forall i j : nat,
    Z.of_nat i < nd_shape0 (image p) ->
    Z.of_nat j < nd_shape1 (image p) ->
    is_Some (nd_pixel (image p) i j) /\
    nd_pixel (image p) i j
    = nd_pixel (data self)
               (Z.to_nat (pixel_bounds p).1.1.2 + i)
               (Z.to_nat (pixel_bounds p).1.1.1 + j).
Proof.
  intros HP Hrect Hps Hp i j. rewrite patchify_eq_grid in Hps.
  destruct (Z.leb_spec (patch_size - overlap) 0) as [|Hs]; [done|].
  injection Hps as <-.
  apply elem_of_grid_patches in Hp as (r & c & Hr & Hc & Hp).
  destruct (candidate_extent self patch_size _ HP Hs Hrect r c Hr Hc)
    as (H0 & H1 & _). cbv zeta in H0, H1.
  apply grid_row_in_raster in Hr; [|done].
  apply grid_col_in_raster in Hc; [|done].
  destruct (candidate_image _ _ _ _ _ _ _ _ Hp) as (Him & Hb & _).
  cbv zeta in Him, Hb. rewrite Hb, Him. cbn [fst snd]. rewrite H0, H1.
  intros Hi Hj.
  set (x := Z.of_nat c * (patch_size - overlap)) in *.
  set (y := Z.of_nat r * (patch_size - overlap)) in *.
  assert (0 <= x) by (unfold x; nia). assert (0 <= y) by (unfold y; nia).
  rewrite nd_pixel_slice2 by lia. split; [|reflexivity].
  apply (nd_pixel_is_Some _ (width self)); [unfold height in *; lia|done|lia].
Qed.

End PatchWindows.

Section Coverage.
Import Py Np Images Spec Extra.

Variable self : MapImage.
Variables (patch_size overlap : Z) (blank_threshold : Q) (skip_blank : bool).
Hypothesis patch_size_pos : 0 < patch_size.
Hypothesis overlap_range : 0 <= overlap < patch_size.
Hypothesis data_rect : nd_rect (width self) (data self).
Hypothesis none_skipped :
  none_blank_skipped self patch_size (patch_size - overlap)
                     blank_threshold skip_blank.

Local Abbreviation stride := (patch_size - overlap).

(** The patch of the grid position that a pixel falls into. *)
Lemma pixel_patch (px py : Z) :
  0 <= px < width self -> 0 <= py < height self ->
  exists p,
    candidate self patch_size stride blank_threshold skip_blank
              (Z.to_nat (py / stride)) (Z.to_nat (px / stride)) = Some p /\
    p ∈ grid_patches self patch_size stride blank_threshold skip_blank /\
    covers p px py.
Proof.
  intros Hpx Hpy.
  assert (Hs : 0 < stride) by lia.
  pose proof (Z.div_mod py stride ltac:(lia)) as Hdy.
  pose proof (Z.mod_pos_bound py stride Hs) as Hmy.
  pose proof (Z.div_mod px stride ltac:(lia)) as Hdx.
  pose proof (Z.mod_pos_bound px stride Hs) as Hmx.
  assert (0 <= py / stride) by (apply Z.div_pos; lia).
  assert (0 <= px / stride) by (apply Z.div_pos; lia).
  set (r := Z.to_nat (py / stride)). set (c := Z.to_nat (px / stride)).
  assert (Hr : (r < grid_rows self stride)%nat).
  { apply grid_row_in_raster; [done|]. unfold r. nia. }
  assert (Hc : (c < grid_cols self stride)%nat).
  { apply grid_col_in_raster; [done|]. unfold c. nia. }
  destruct (candidate_emits self patch_size stride blank_threshold
              patch_size_pos Hs data_rect skip_blank r c none_skipped Hr Hc)
    as [p Hp].
  exists p. split_and!; [done| |].
  - apply elem_of_grid_patches. eauto.
  - unfold covers.
    rewrite (candidate_bounds self patch_size stride blank_threshold
               patch_size_pos Hs data_rect skip_blank r c p Hr Hc Hp).
    unfold r, c. nia.
Qed.

End Coverage.

Section CoverageProps.
Import Py Np Images Spec Extra.

(** X3: with an overlap from 0 up to the patch size and no position
    skipped as blank, the emitted patches leave no gap: every pixel of
    the raster lies in a patch. *)
Theorem patchify_covers (self : MapImage) (patch_size overlap : Z)
        (blank_threshold : Q) (skip_blank : bool) :
  0 < patch_size ->
  0 <= overlap < patch_size ->
  nd_rect (width self) (data self) ->
  none_blank_skipped self patch_size (patch_size - overlap)
                     blank_threshold skip_blank ->
  exists ps,
    patchify self patch_size overlap blank_threshold skip_blank = Ok ps /\
    forall px py, 0 <= px < width self -> 0 <= py < height self ->
      exists p, p ∈ ps /\ covers p px py.
Proof.
  intros HP Hov Hrect Hnone. eexists. rewrite patchify_eq_grid.
  destruct (Z.leb_spec (patch_size - overlap) 0) as [?|_]; [lia|].
  split; [reflexivity|]. intros px py Hpx Hpy.
  destruct (pixel_patch self patch_size overlap blank_threshold skip_blank
              HP Hov Hrect Hnone px py Hpx Hpy) as (p & _ & Hin & Hcov).
  eauto.
Qed.

Lemma ceil_div_nonneg (n s : Z) : 0 < s -> 0 <= n -> 0 <= ceil_div n s.
Proof.
  intros Hs Hn. destruct (Z.lt_ge_cases (ceil_div n s) 0) as [Hneg|]; [|done].
  assert (H : -1 < ceil_div n s); [|lia].
  apply ceil_div_lt_iff; lia.
Qed.

(** X4: without overlap and with no position skipped as blank, the
    patches partition the raster for every positive patch size: there
    are [ceil(height/patch_size) * ceil(width/patch_size)] of them and
    every pixel lies in exactly one, the patches at the right and bottom
    edge being smaller where the patch size does not divide. *)
Theorem patchify_partitions (self : MapImage) (patch_size : Z)
        (blank_threshold : Q) (skip_blank : bool) :
  0 < patch_size ->
  nd_rect (width self) (data self) ->
  none_blank_skipped self patch_size patch_size blank_threshold skip_blank ->
  exists ps,
    patchify self patch_size 0 blank_threshold skip_blank = Ok ps /\
    Z.of_nat (length ps)
    = ceil_div (height self) patch_size * ceil_div (width self) patch_size /\
    forall px py, 0 <= px < width self -> 0 <= py < height self ->
      exists i p, ps !! i = Some p /\ covers p px py /\
        forall j q, ps !! j = Some q -> covers q px py -> j = i.
Proof.
  intros HP Hrect Hnone. eexists. rewrite patchify_eq_grid, Z.sub_0_r.
  destruct (Z.leb_spec patch_size 0) as [?|_]; [lia|].
  split; [reflexivity|]. split.
  - rewrite length_grid_patches_full by done. unfold grid_rows, grid_cols.
    pose proof (ceil_div_nonneg (height self) patch_size HP
                  (nd_shape0_nonneg _)).
    pose proof (ceil_div_nonneg (width self) patch_size HP
                  (nd_shape1_nonneg _)).
    lia.
  - intros px py Hpx Hpy.
    assert (Hnone' : none_blank_skipped self patch_size (patch_size - 0)
                                        blank_threshold skip_blank)
      by (by rewrite Z.sub_0_r).
    destruct (pixel_patch self patch_size 0 blank_threshold skip_blank
                HP ltac:(lia) Hrect Hnone' px py Hpx Hpy)
      as (p & Hp & Hin & Hcov).
    rewrite Z.sub_0_r in Hp, Hin.
    apply list_elem_of_lookup in Hin as [i Hi].
    exists i, p. split_and!; [done..|].
    intros j q Hj Hq.
    assert (Hqin : q ∈ grid_patches self patch_size patch_size
                                     blank_threshold skip_blank).
    { apply list_elem_of_lookup. eauto. }
    apply elem_of_grid_patches in Hqin as (r' & c' & Hr' & Hc' & Hq').
    unfold covers in Hq.
    rewrite (candidate_bounds self patch_size patch_size blank_threshold
               HP HP Hrect skip_blank r' c' q Hr' Hc' Hq') in Hq.
    assert (Er : r' = Z.to_nat (py / patch_size)).
    { assert (py / patch_size = Z.of_nat r'); [|lia].
      symmetry. apply (Z.div_unique py patch_size _
                         (py - Z.of_nat r' * patch_size)); lia. }
    assert (Ec : c' = Z.to_nat (px / patch_size)).
    { assert (px / patch_size = Z.of_nat c'); [|lia].
      symmetry. apply (Z.div_unique px patch_size _
                         (px - Z.of_nat c' * patch_size)); lia. }
    subst r' c'.
    eapply (NoDup_lookup (grid_pos <$> grid_patches self patch_size
                            patch_size blank_threshold skip_blank));
      [apply grid_patches_NoDup|..].
    + rewrite list_lookup_fmap, Hj. reflexivity.
    + rewrite list_lookup_fmap, Hi. simpl. f_equal.
      destruct (candidate_pos _ _ _ _ _ _ _ _ Hp) as [-> _].
      destruct (candidate_pos _ _ _ _ _ _ _ _ Hq') as [-> _]. done.
Qed.

End CoverageProps.

(** ** Patchify: what counts as blank, by sample type *)

Section BlankByDtype.
Import Py Np Images Spec Extra.

Lemma filter_none {A} (P : A -> Prop) `{!forall x, Decision (P x)}
      (l : list A) :
  Forall (fun x => ~ P x) l -> filter P l = [].
Proof.
  induction 1 as [|x l Hx _ IH]; [done|].
  by rewrite filter_cons_False.
Qed.

Lemma float_gt_mean_none (l : list bool) (threshold : Q) :
  Forall (fun b => b <> true) l -> (0 <= threshold)%Q ->
  float_gt (mean_bool l) threshold = false.
Proof.
  intros Hl Hthr. destruct l as [|b l]; [done|].
  unfold mean_bool, float_gt. rewrite filter_none by done.
  apply negb_false_iff, Qle_bool_iff.
  unfold Qle in *. simpl in *. lia.
Qed.

Lemma float_gt_mean_all (l : list bool) (threshold : Q) :
  l <> [] -> Forall (fun b => b = true) l -> (threshold < 1)%Q ->
  float_gt (mean_bool l) threshold = true.
Proof.
  intros Hne Hl Hthr. apply float_gt_mean_bool; [done|].
  replace (filter (fun b => b = true) l) with l.
  - unfold Qlt in *. cbn [Qnum Qden] in *.
    rewrite pos_of_nat_Z by (by destruct l).
    assert (0 < Z.of_nat (length l)) by (destruct l; [done|simpl; lia]).
    nia.
  - clear Hne. induction Hl as [|x l Px _ IH]; [done|].
    rewrite filter_cons_True by done. by f_equal.
Qed.

Lemma nd_pixels_all_slice2 (P : list Z -> Prop) (y0 y1 x0 x1 : Z)
      (a : ndarray) :
  nd_pixels_all P a -> nd_pixels_all P (nd_slice2 y0 y1 x0 x1 a).
Proof.
  destruct a as [dt r|dt r]; simpl; unfold slice2; intros H;
    apply Forall_fmap; (eapply Forall_impl; [apply Forall_slice, H|]);
    intros l Hl; simpl; by apply Forall_slice.
Qed.

(** On 8-bit data an array without a white pixel is not blank. *)
Lemma is_blank_no_white (a : ndarray) (threshold : Q) :
  nd_dtype a = uint8 -> nd_pixels_all (fun px => ~ white px) a ->
  (0 <= threshold)%Q -> _is_blank a threshold = false.
Proof.
  intros Hdt Hall Hthr. unfold _is_blank. rewrite Hdt.
  apply float_gt_mean_none; [|done].
  destruct a as [dt r|dt r]; simpl in *; rewrite join_map2;
    apply Forall_fmap, Forall_join;
    (eapply Forall_impl; [exact Hall|]); intros row Hrow;
    (eapply Forall_impl; [exact Hrow|]); intros px Hpx; simpl.
  - intros E. by apply white_iff_leb in E.
  - intros E. by apply white_iff_forallb in E.
Qed.

(** On other data an array without a zero sample is not blank, and an
    array of zero samples only, with at least one sample, is. *)
Lemma is_blank_other_no_zero (a : ndarray) (threshold : Q) :
  nd_dtype a = other_dtype -> nd_all (fun v => v <> 0) a ->
  (0 <= threshold)%Q -> _is_blank a threshold = false.
Proof.
  intros Hdt Hall Hthr. unfold _is_blank. rewrite Hdt.
  destruct a as [dt r|dt r]; simpl in *; apply float_gt_mean_none;
    try done; apply Forall_fmap.
  - apply Forall_join. eapply Forall_impl; [exact Hall|]. intros row Hrow.
    eapply Forall_impl; [exact Hrow|]. intros v Hv. simpl.
    intros E. by apply Z.eqb_eq in E.
  - do 2 apply Forall_join. eapply Forall_impl; [exact Hall|].
    intros row Hrow. eapply Forall_impl; [exact Hrow|]. intros px Hpx.
    eapply Forall_impl; [exact Hpx|]. intros v Hv. simpl.
    intros E. by apply Z.eqb_eq in E.
Qed.

Lemma is_blank_other_all_zero (a : ndarray) (threshold : Q) :
  nd_dtype a = other_dtype -> nd_all (fun v => v = 0) a ->
  nd_pixels_all (fun px => px <> []) a ->
  nd_shape0 a <> 0 -> nd_shape1 a <> 0 -> (threshold < 1)%Q ->
  _is_blank a threshold = true.
Proof.
  intros Hdt Hall Hne H0 H1 Hthr. unfold _is_blank. rewrite Hdt.
  destruct a as [dt r|dt r]; simpl in *; apply float_gt_mean_all; try done.
  - destruct r as [|[|v row] r]; simpl in *; done.
  - apply Forall_fmap, Forall_join. eapply Forall_impl; [exact Hall|].
    intros row Hrow. eapply Forall_impl; [exact Hrow|]. intros v ->. done.
  - destruct r as [|[|px row] r]; simpl in *; try done.
    apply Forall_cons in Hne as [Hne _]. apply Forall_cons in Hne as [Hne _].
    destruct px; done.
  - apply Forall_fmap. do 2 apply Forall_join.
    eapply Forall_impl; [exact Hall|]. intros row Hrow.
    eapply Forall_impl; [exact Hrow|]. intros px Hpx.
    eapply Forall_impl; [exact Hpx|]. intros v ->. done.
Qed.

(** When no grid position is blank, skipping changes nothing. *)
Lemma grid_patches_skip_irrelevant (self : MapImage) (patch_size stride : Z)
      (threshold : Q) :
  (forall y0 y1 x0 x1,
     _is_blank (nd_slice2 y0 y1 x0 x1 (data self)) threshold = false) ->
  grid_patches self patch_size stride threshold true
  = grid_patches self patch_size stride threshold false.
Proof.
  intros Hnb. unfold grid_patches, grid_row_patches. f_equal.
  apply list_fmap_ext. intros _ r _. apply list_omap_ext.
  apply Forall2_same_length_lookup. split; [done|].
  intros i c c' Hc Hc'. simplify_eq. unfold candidate.
  rewrite Hnb. reflexivity.
Qed.

Lemma patchify_skip_irrelevant (self : MapImage) (patch_size overlap : Z)
      (threshold : Q) :
  (forall y0 y1 x0 x1,
     _is_blank (nd_slice2 y0 y1 x0 x1 (data self)) threshold = false) ->
  patchify self patch_size overlap threshold true
  = patchify self patch_size overlap threshold false.
Proof.
  intros Hnb. rewrite !patchify_eq_grid.
  by rewrite grid_patches_skip_irrelevant.
Qed.

(** X5: on 8-bit data only white counts as blank: for a raster without a
    white pixel, a black one for example, and a threshold of 0 or more,
    blank skipping skips nothing. *)
Theorem patchify_uint8_no_white (self : MapImage) (patch_size overlap : Z)
        (blank_threshold : Q) :
  nd_dtype (data self) = uint8 ->
  nd_pixels_all (fun px => ~ white px) (data self) ->
  (0 <= blank_threshold)%Q ->
  patchify self patch_size overlap blank_threshold true
  = patchify self patch_size overlap blank_threshold false.
Proof.
  intros Hdt Hall Hthr. apply patchify_skip_irrelevant.
  intros y0 y1 x0 x1. apply is_blank_no_white; [|by apply nd_pixels_all_slice2|done].
  by rewrite nd_dtype_slice2.
Qed.

(** X6: on data that is not 8-bit only zero counts as blank: a raster
    without a zero sample is never skipped (threshold 0 or more), and a
    raster of zero samples only, each pixel with at least one sample,
    yields no patch (threshold below 1). *)
Theorem patchify_other_dtype_zero (self : MapImage) (patch_size overlap : Z)
        (blank_threshold : Q) :
  nd_dtype (data self) = other_dtype ->
  (nd_all (fun v => v <> 0) (data self) ->
   (0 <= blank_threshold)%Q ->
   patchify self patch_size overlap blank_threshold true
   = patchify self patch_size overlap blank_threshold false) /\
  (nd_all (fun v => v = 0) (data self) ->
   nd_pixels_all (fun px => px <> []) (data self) ->
   (blank_threshold < 1)%Q ->
   0 < patch_size - overlap ->
   patchify self patch_size overlap blank_threshold true = Ok []).
Proof.
  intros Hdt. split.
  - intros Hall Hthr. apply patchify_skip_irrelevant.
    intros y0 y1 x0 x1.
    apply is_blank_other_no_zero; [|by apply nd_all_slice2|done].
    by rewrite nd_dtype_slice2.
  - intros Hall Hne Hthr Hs. rewrite patchify_eq_grid.
    destruct (Z.leb_spec (patch_size - overlap) 0) as [?|_]; [lia|].
    f_equal. unfold grid_patches. apply join_nil_2.
    apply Forall_fmap, Forall_forall. intros r _. simpl.
    unfold grid_row_patches.
    induction (seq 0 (grid_cols self (patch_size - overlap))) as [|c l IH];
      [done|].
    cbn [omap list_omap].
    replace (candidate self patch_size (patch_size - overlap)
                       blank_threshold true r c)
      with (@None Patch); [exact IH|].
    symmetry. apply candidate_skipped.
    set (pd := nd_slice2 _ _ _ _ _).
    destruct (Z.eq_dec (nd_shape0 pd) 0) as [E0|E0]; [tauto|].
    destruct (Z.eq_dec (nd_shape1 pd) 0) as [E1|E1]; [tauto|].
    right. split; [done|].
    apply is_blank_other_all_zero; try done.
    + unfold pd. by rewrite nd_dtype_slice2.
    + by apply nd_all_slice2.
    + by apply nd_pixels_all_slice2.
Qed.

End BlankByDtype.

(** ** Geo transforms and the bounds of patches *)

Section AffineFacts.
Import Py Geo.
Local Open Scope Q_scope.

(** The inverse built by [affine_invert] undoes the transform on either
    side. *)
Lemma affine_invert_left (t inv : Affine) (x y : Q) :
  affine_invert t = Ok inv ->
  (affine_mul inv (affine_mul t (x, y))).1 == x /\
  (affine_mul inv (affine_mul t (x, y))).2 == y.
Proof.
  unfold affine_invert. destruct (is_degenerate t) eqn:E; [done|].
  apply is_degenerate_false in E. intros [= <-].
  unfold determinant in E. destruct t as [ta tb tc td te tf].
  unfold determinant. cbn in *. split; field; exact E.
Qed.

Lemma affine_invert_right (t inv : Affine) (gx gy : Q) :
  affine_invert t = Ok inv ->
  (affine_mul t (affine_mul inv (gx, gy))).1 == gx /\
  (affine_mul t (affine_mul inv (gx, gy))).2 == gy.
Proof.
  unfold affine_invert. destruct (is_degenerate t) eqn:E; [done|].
  apply is_degenerate_false in E. intros [= <-].
  unfold determinant in E. destruct t as [ta tb tc td te tf].
  unfold determinant. cbn in *. split; field; exact E.
Qed.

Lemma affine_invert_Ok (t : Affine) :
  ~ determinant t == 0 -> exists inv, affine_invert t = Ok inv.
Proof.
  intros Hdet. unfold affine_invert.
  rewrite (proj2 (is_degenerate_false t) Hdet). eauto.
Qed.




End AffineFacts.

Section PatchGeo.
Import Py Geo Np Images ImagesMore Spec Extra.

(** X10: a patch carries geographic bounds exactly when its parent has
    both a CRS and a transform; they are then the images of the corners
    [(x, y)] and [(x + w, y + h)] of its pixel rectangle. *)
Theorem patch_geo_bounds_attached (self : MapImage) (patch_size overlap : Z)
        (blank_threshold : Q) (skip_blank : bool)
        (ps : list Patch) (p : Patch) :
  patchify self patch_size overlap blank_threshold skip_blank = Ok ps ->
  p ∈ ps ->
  match crs self, transform self with
  | Some _, Some t =>
      exists x y w h b,
        pixel_bounds p = (x, y, w, h) /\
        geo_bounds p = Some b /\
        (left b, top b) = pixel_to_geo (inject_Z x) (inject_Z y) t /\
        (right b, bottom b)
        = pixel_to_geo (inject_Z (x + w)) (inject_Z (y + h)) t
  | _, _ => geo_bounds p = None
  end.
Proof.
  intros Hps Hp. rewrite patchify_eq_grid in Hps.
  destruct (patch_size - overlap <=? 0); [done|]. injection Hps as <-.
  apply elem_of_grid_patches in Hp as (r & c & _ & _ & Hp).
  destruct (candidate_image _ _ _ _ _ _ _ _ Hp) as (_ & Hb & Hg).
  cbv zeta in Hb, Hg. unfold is_georeferenced in Hg.
  destruct (crs self) as [k|], (transform self) as [t|]; simpl in Hg;
    try exact Hg.
  eexists _, _, _, _, _. split; [exact Hb|]. split; [exact Hg|].
  unfold get_patch_geo_bounds.
  destruct (pixel_to_geo _ _ t) as [l tp].
  destruct (pixel_to_geo _ _ t) as [rt bt]. done.
Qed.

Lemma ceil_div_one (n s : Z) : 0 < n <= s -> ceil_div n s = 1.
Proof.
  intros Hn. assert (0 < ceil_div n s) by (apply ceil_div_lt_iff; lia).
  assert (~ 1 < ceil_div n s); [|lia].
  rewrite ceil_div_lt_iff by lia. lia.
Qed.

(** X11: a patch size that is at least the width and the height gives,
    when the raster is not skipped as blank, the one patch that is the
    whole raster, with the geographic bounds of the image. *)
Theorem patchify_whole_image (self : MapImage) (patch_size : Z)
        (blank_threshold : Q) (skip_blank : bool) :
  0 < height self <= patch_size ->
  0 < width self <= patch_size ->
  nd_rect (width self) (data self) ->
  skip_blank && _is_blank (data self) blank_threshold = false ->
  patchify self patch_size 0 blank_threshold skip_blank
  = Ok [mkPatch (data self) (0, 0, width self, height self)
                (bounds self) 0 0].
Proof.
  intros Hh Hw Hrect Hnb. rewrite patchify_eq_grid, Z.sub_0_r.
  destruct (Z.leb_spec patch_size 0) as [?|_]; [lia|]. f_equal.
  assert (Hall : nd_slice2 0 patch_size 0 patch_size (data self) = data self).
  { unfold height, width in *.
    destruct (data self); simpl in *; f_equal;
      apply (slice2_all _ _ (shape1 rows)); (done || lia). }
  assert (Hc : candidate self patch_size patch_size blank_threshold
                         skip_blank 0 0
               = Some (mkPatch (data self) (0, 0, width self, height self)
                               (bounds self) 0 0)).
  { unfold candidate. change (Z.of_nat 0 * patch_size) with 0.
    rewrite Z.add_0_l, Hall, Hnb. fold (height self) (width self).
    destruct (Z.eqb_spec (height self) 0) as [?|_]; [lia|].
    destruct (Z.eqb_spec (width self) 0) as [?|_]; [lia|].
    reflexivity. }
  unfold grid_patches, grid_row_patches, grid_rows, grid_cols.
  rewrite !ceil_div_one by done. change (Z.to_nat 1) with 1%nat.
  cbn [seq fmap list_fmap mjoin list_join omap list_omap].
  rewrite Hc. reflexivity.
Qed.

End PatchGeo.

(** ** The requests of a download *)

Section LoopRequests.
Import Py Downloader.
Context {A S : Type}.

(** A loop whose passes each append requests, all of [g a] when the pass
    succeeds and a prefix of them otherwise, appends the requests of the
    passes it made: all of them when it succeeds, a prefix otherwise. *)
Lemma for_appends (body : S -> A -> M S) (g : A -> list url)
      (Q : url -> Prop) (l : list A) :
  (forall a acc log log' r,
     a ∈ l -> body acc a log = (log', r) ->
     exists p, log' = log ++ p /\ p `prefix_of` g a /\
               forall v, r = Ok v -> p = g a /\ Forall Q p) ->
  forall acc log log' r,
    for_ l acc body log = (log', r) ->
    exists p, log' = log ++ p /\ p `prefix_of` mjoin (g <$> l) /\
              forall v, r = Ok v -> p = mjoin (g <$> l) /\ Forall Q p.
Proof.
  induction l as [|a l IH]; intros Hbody acc log log' r Hfor.
  - injection Hfor as <- <-. exists []. rewrite app_nil_r.
    split_and!; [done..|]. intros v _. done.
  - cbn [for_] in Hfor. unfold bind in Hfor.
    destruct (body acc a log) as [log1 r1] eqn:Hb.
    destruct (Hbody a acc log log1 r1 ltac:(left) Hb) as (p1 & -> & Hp1 & Hok1).
    rewrite fmap_cons.
    change (mjoin (g a :: (g <$> l))) with (g a ++ mjoin (g <$> l)).
    destruct r1 as [acc1|e].
    + destruct (Hok1 acc1 eq_refl) as [-> HQ1].
      destruct (IH ltac:(intros a0 ? ? ? ? Ha0; apply Hbody; by right)
                  acc1 _ log' r Hfor) as (p2 & -> & Hp2 & Hok2).
      exists (g a ++ p2). rewrite app_assoc. split_and!; [done| |].
      * by apply prefix_app.
      * intros v Hv. destruct (Hok2 v Hv) as [-> HQ2].
        split; [done|]. by apply Forall_app.
    + injection Hfor as <- <-. exists p1. split_and!; [done| |done].
      by apply prefix_app_r.
Qed.

End LoopRequests.

Lemma join_singletons {A B} (f : A -> B) (l : list A) :
  mjoin ((fun x => [f x]) <$> l) = f <$> l.
Proof.
  induction l as [|x l IH]; [done|].
  rewrite !fmap_cons. simpl. f_equal. exact IH.
Qed.

Section TiledRequests.
Import Py Np Images Downloader Spec.

Variable server : url -> option PILImage.
Variable self : IIIFDownloader.

Lemma download_tile_appends canvas (row col : Z) log log' r :
  download_tile server self canvas row col log = (log', r) ->
  log' = log ++ [tile_request self row col] /\
  forall v, r = Ok v -> is_Some (server (tile_request self row col)).
Proof.
  unfold download_tile, tile_region, bind, _fetch_image, lift.
  change (mkUrl _ _) with (tile_request self row col).
  destruct (server (tile_request self row col)) as [img|].
  - intros [= <- <-]. eauto.
  - intros [= <- <-]. done.
Qed.

(** The requests of a tiled download are the tile requests of the grid
    in row-major order up to the first pass that raised, and all of them,
    each one answered, when the download returns. *)
Lemma tiled_requests_prefix (log0 log : list url) (r : result MapImage) :
  _download_tiled server self log0 = (log, r) ->
  exists p,
    log = log0 ++ p /\ p `prefix_of` tile_requests self /\
    forall m, r = Ok m ->
      p = tile_requests self /\ Forall (fun u => is_Some (server u)) p.
Proof.
  unfold _download_tiled, bind, lift, math_ceil_truediv, ret.
  destruct (Z.eqb_spec (tile_size self) 0) as [|_].
  { intros [= <- <-]. exists []. rewrite app_nil_r.
    split_and!; [done|apply prefix_nil|done]. }
  destruct (zeros3 _ _) as [canvas0|e].
  2:{ intros [= <- <-]. exists []. rewrite app_nil_r.
      split_and!; [done|apply prefix_nil|done]. }
  destruct (for_ _ _ _ _) as [log1 r1] eqn:Hfor.
  apply (for_appends _
           (fun row => (fun c => tile_request self row c)
                         <$> range (ceil_div (Downloader.width self)
                                             (tile_size self)))
           (fun u => is_Some (server u))) in Hfor
    as (p & -> & Hp & Hok).
  - fold (tile_requests self) in Hp, Hok.
    destruct r1 as [canvas|e]; intros [= <- <-]; exists p;
      (split_and!; [done..|]).
    + intros m _. by apply (Hok canvas).
    + done.
  - intros row acc lg lg' r' _ Hrow.
    apply (for_appends _ (fun c => [tile_request self row c])
             (fun u => is_Some (server u))) in Hrow
      as (p & -> & Hp & Hok).
    + assert (E : mjoin ((fun c => [tile_request self row c])
                           <$> range (ceil_div (Downloader.width self)
                                               (tile_size self)))
                  = (fun c => tile_request self row c)
                      <$> range (ceil_div (Downloader.width self)
                                          (tile_size self))).
      { apply join_singletons. }
      rewrite E in Hp, Hok. eauto.
    + intros col acc1 lg1 lg1' r1' _ Hcol.
      apply download_tile_appends in Hcol as [-> Hans].
      exists [tile_request self row col]. split_and!; [done..|].
      intros v Hv. split; [done|]. constructor; [|done]. by apply (Hans v).
Qed.

End TiledRequests.

Section RequestProps.
Import Py Np Images Downloader Spec.


(** X13: [download] never mixes its two strategies: with a non-zero
    [max_size] below the longer edge it issues the one request for the
    full region fitted into [max_size] and nothing else; in every other
    case its requests are tile requests of the grid. *)
Theorem download_requests
        (server : url -> option PILImage) (self : IIIFDownloader)
        (max_size : option Z) (log : list url) (r : result MapImage) :
  download server self max_size [] = (log, r) ->
  match max_size with
  | Some m =>
      if decide (m <> 0 /\ m < Z.max (Downloader.width self)
                                     (Downloader.height self))
      then log = [mkUrl RegionFull (SizeFit m m)]
      else log `prefix_of` tile_requests self
  | None => log `prefix_of` tile_requests self
  end.
Proof.
  assert (Htiled : _download_tiled server self [] = (log, r) ->
                   log `prefix_of` tile_requests self).
  { intros Hrun.
    destruct (tiled_requests_prefix server self [] log r Hrun)
      as (p & -> & Hp & _). done. }
  unfold download. destruct max_size as [m|]; [|exact Htiled].
  destruct (Z.eqb_spec m 0) as [E0|E0],
           (Z.ltb_spec m (Z.max (Downloader.width self)
                                (Downloader.height self))) as [E1|E1];
    simpl; case_decide; try lia; try exact Htiled.
  unfold _download_scaled, bind, _fetch_image, ret.
  destruct (server _); by intros [= <- _].
Qed.

(** X14: a returned tile that reaches past the right or bottom edge of
    the canvas is not clipped: the write raises. *)
Theorem stitch_overhang_raises
        (canvas : list (list (list Z))) (x y h w : Z) (img : PILImage) :
  let tile_arr := np_array (convert_RGB img) in
  shape0 canvas = h -> rect w canvas ->
  0 <= x < w -> 0 <= y < h ->
  0 < shape0 tile_arr -> 0 < shape1 tile_arr ->
  h < y + shape0 tile_arr \/ w < x + shape1 tile_arr ->
  stitch canvas x y tile_arr = Raise ValueError.
Proof.
  intros tile_arr Hh Hrect Hx Hy Hth Htw Hover.
  assert (Hw : shape1 canvas = w) by (apply shape1_rect; [done|lia]).
  destruct (stitch canvas x y tile_arr) as [canvas'|e] eqn:Hst.
  - exfalso. unfold stitch in Hst.
    destruct (proj1 (setitem_slice2_Ok _ _ _ _ _ _) (ex_intro _ _ Hst))
      as (Hb0 & Hb1 & _).
    rewrite shape0_map2, Hh in Hb0. rewrite shape1_map2, Hw in Hb1.
    rewrite !slice_bound_nonneg in Hb0, Hb1 by lia.
    unfold bcast_ok in Hb0, Hb1.
    rewrite orb_true_iff, !Z.eqb_eq in Hb0, Hb1. lia.
  - unfold stitch, setitem_slice2 in Hst. case_match; [done|].
    by injection Hst as <-.
Qed.

Lemma int_of_float_lt (q : Q) (n : Z) :
  (q < inject_Z n)%Q -> 0 < n -> int_of_float q < n.
Proof.
  intros Hq Hn. unfold int_of_float. destruct (Qle_bool 0 q) eqn:E.
  - rewrite Zlt_Qlt. eapply Qle_lt_trans; [apply Qfloor_le|exact Hq].
  - assert (Qceiling q - 1 < 0); [|lia].
    rewrite Zlt_Qlt. eapply Qlt_le_trans; [apply Qceiling_lt|].
    apply Qnot_lt_le. intros H0. apply Qlt_le_weak in H0.
    apply (proj2 (Qle_bool_iff 0 q)) in H0. congruence.
Qed.


End RequestProps.

(** * Resolving the image service of a manifest *)

Section ManifestFacts.
Import Py PyVal Manifest ManifestSpec.

Lemma for_first_app {A T} (x y : list A) (g : A -> res (option T)) :
  for_first (x ++ y) g =
  try! r := for_first x g in
  match r with
  | Some t => Val (Some t)
  | None => for_first y g
  end.
Proof.
  induction x as [|a x IH]; cbn.
  - by destruct (for_first y g) as [[?|]|].
  - destruct (g a) as [[t|]|]; cbn; auto.
Qed.

Lemma for_first_fmap {A B T} (f : A -> B) (l : list A)
      (g : B -> res (option T)) :
  for_first (f <$> l) g = for_first l (fun a => g (f a)).
Proof.
  induction l as [|a l IH]; cbn; [done|].
  destruct (g (f a)) as [[t|]|]; cbn; auto.
Qed.

Lemma for_first_collect {A B T} (l : list A) (f : A -> res (list B))
      (body : A -> res (option T)) (g : B -> res (option T)) (r : list B) :
  collect l f = Val r ->
  (forall a x, a ∈ l -> f a = Val x -> body a = for_first x g) ->
  for_first l body = for_first r g.
Proof.
  revert r. induction l as [|a l IH]; intros r Hc Hb; cbn in *.
  - by inversion Hc.
  - destruct (f a) as [x|] eqn:Hx; cbn in Hc; [|done].
    destruct (collect l f) as [y|] eqn:Hy; cbn in Hc; [|done].
    inversion Hc; subst r.
    rewrite for_first_app, (Hb a x) by (done || left).
    destruct (for_first x g) as [[t|]|]; cbn; [done| |done].
    apply IH; [done|]. intros a' x' Ha'. apply Hb. by right.
Qed.

Lemma for_first_skip {A T} (l1 l2 : list A) (a : A)
      (g : A -> res (option T)) (t : T) :
  Forall (fun x => g x = Val None) l1 ->
  g a = Val (Some t) ->
  for_first (l1 ++ a :: l2) g = Val (Some t).
Proof.
  intros H1 Ha. induction H1 as [|x l1 Hx _ IH]; cbn.
  - by rewrite Ha.
  - by rewrite Hx.
Qed.

Lemma for_first_inv {A T} (P : T -> Prop) (l : list A)
      (body : A -> res (option T)) (t : T) :
  (forall a t', a ∈ l -> body a = Val (Some t') -> P t') ->
  for_first l body = Val (Some t) -> P t.
Proof.
  induction l as [|a l IH]; cbn; intros Hb H; [done|].
  destruct (body a) as [[t'|]|] eqn:Ha; cbn in H; [| |done].
  - inversion H; subst. eapply Hb; [left|done].
  - apply IH; [|done]. intros a' t' Ha'. apply Hb. by right.
Qed.

Lemma for_in_inv {T} (P : T -> Prop) (v : json)
      (body : json -> res (option T)) (t : T) :
  (forall a t', body a = Val (Some t') -> P t') ->
  for_in v body = Val (Some t) -> P t.
Proof.
  unfold for_in. intros Hb H. destruct (iter v) as [l|]; cbn in H; [|done].
  eapply for_first_inv; [|done]. intros a t' _. apply Hb.
Qed.

Lemma search_v2_flat (int_of_str : string -> option Z) (manifest : json)
      (l : list (json * json)) :
  v2_images manifest = Val l ->
  search_v2 int_of_str manifest
  = for_first l (fun ci => v2_image int_of_str ci.1 ci.2).
Proof.
  unfold v2_images, search_v2, for_in. intros H.
  destruct (get manifest "sequences" (JList [])) as [sequences|];
    cbn in *; [|done].
  destruct (iter sequences) as [seqs|]; cbn in *; [|done].
  eapply for_first_collect; [exact H|]. cbn. intros seq x _ Hx.
  destruct (get seq "canvases" (JList [])) as [canvases|]; cbn in *; [|done].
  destruct (iter canvases) as [cs|]; cbn in *; [|done].
  eapply for_first_collect; [exact Hx|]. cbn. intros canvas y _ Hy.
  destruct (get canvas "images" (JList [])) as [images|]; cbn in *; [|done].
  destruct (iter images) as [imgs|]; cbn in *; [|done].
  inversion Hy; subst y. by rewrite for_first_fmap.
Qed.

Lemma search_v3_flat (int_of_str : string -> option Z) (manifest : json)
      (l : list (json * json * json)) :
  v3_services manifest = Val l ->
  search_v3 int_of_str manifest
  = for_first l (fun cbs => service_reference int_of_str cbs.1.1 cbs.1.2 cbs.2).
Proof.
  unfold v3_services, search_v3, for_in. intros H.
  destruct (get manifest "items" (JList [])) as [items|]; cbn in *; [|done].
  destruct (iter items) as [cs|]; cbn in *; [|done].
  eapply for_first_collect; [exact H|]. cbn. intros canvas x _ Hx.
  destruct (get canvas "items" (JList [])) as [pages|]; cbn in *; [|done].
  destruct (iter pages) as [ps|]; cbn in *; [|done].
  eapply for_first_collect; [exact Hx|]. cbn. intros page y _ Hy.
  destruct (get page "items" (JList [])) as [annos|]; cbn in *; [|done].
  destruct (iter annos) as [ans|]; cbn in *; [|done].
  eapply for_first_collect; [exact Hy|]. cbn. intros anno z _ Hz.
  unfold v3_annotation, for_in.
  destruct (get anno "body" (JDict [])) as [body|]; cbn in *; [|done].
  destruct (get body "service" (JList [])) as [services|]; cbn in *; [|done].
  destruct (iter _) as [svcs|]; cbn in *; [|done].
  inversion Hz; subst z. by rewrite for_first_fmap.
Qed.

Lemma for_first_none {A T} (l : list A) (g : A -> res (option T)) :
  Forall (fun x => g x = Val None) l -> for_first l g = Val None.
Proof.
  induction 1 as [|x l Hx _ IH]; cbn; [done|]. by rewrite Hx.
Qed.

Lemma append_nonempty (t : string) (a : Ascii.ascii) :
  (t ++ String a "")%string <> "".
Proof. by destruct t. Qed.

Lemma rstrip_slash_not_ends (s : string) :
  ~ ends_with_slash (rstrip_slash s).
Proof.
  induction s as [|a s IH]; intros [t Ht]; cbn in Ht.
  - symmetry in Ht. by apply append_nonempty in Ht.
  - destruct (rstrip_slash s) as [|b u] eqn:Hr.
    + destruct (Ascii.eqb a _) eqn:Ha.
      * symmetry in Ht. by apply append_nonempty in Ht.
      * destruct t as [|a' t]; cbn in Ht.
        -- inversion Ht; subst. by rewrite Ascii.eqb_refl in Ha.
        -- inversion Ht as [[Ha' Ht']]. symmetry in Ht'.
           by apply append_nonempty in Ht'.
    + destruct t as [|a' t]; cbn in Ht; [done|].
      inversion Ht; subst. apply IH. by exists t.
Qed.

Lemma rstrip_slash_fixed (s : string) :
  ~ ends_with_slash s -> rstrip_slash s = s.
Proof.
  induction s as [|a s IH]; intros Hs; cbn; [done|].
  destruct s as [|b u].
  - cbn. destruct (Ascii.eqb a _) eqn:Ha; [|done].
    apply Ascii.eqb_eq in Ha. subst a. destruct Hs. by exists "".
  - rewrite IH; [done|]. intros [t Ht]. apply Hs. exists (String a t).
    by rewrite Ht.
Qed.

Lemma rstrip_slash_idemp (s : string) :
  rstrip_slash (rstrip_slash s) = rstrip_slash s.
Proof. apply rstrip_slash_fixed, rstrip_slash_not_ends. Qed.

Lemma service_reference_stripped (int_of_str : string -> option Z)
      (canvas holder service : json) (url : string) (w h : Z) :
  service_reference int_of_str canvas holder service = Val (Some (url, w, h)) ->
  ~ ends_with_slash url.
Proof.
  unfold service_reference. intros H.
  repeat match type of H with
         | res_bind ?r _ = _ => destruct r eqn:?; cbn in H; [|done]
         | (if ?b then _ else _) = _ => destruct b; [|done]
         end.
  inversion H; subst.
  match goal with
  | E : rstrip ?v = Val _ |- _ => destruct v; try done; inversion E; subst
  end.
  apply rstrip_slash_not_ends.
Qed.

Lemma parse_manifest_stripped (int_of_str : string -> option Z)
      (manifest : json) (url : string) (w h : Z) :
  _parse_manifest_image int_of_str manifest = Val (url, w, h) ->
  ~ ends_with_slash url.
Proof.
  set (P := fun t : string * Z * Z => ~ ends_with_slash t.1.1).
  assert (Hsr : forall c b s t,
             service_reference int_of_str c b s = Val (Some t) -> P t).
  { intros c b s [[u w'] h'] Ht. by eapply service_reference_stripped. }
  unfold _parse_manifest_image. intros H.
  destruct (search_v2 int_of_str manifest) as [[t|]|] eqn:H2; cbn in H;
    [| |done].
  - inversion H; subst t. change (P (url, w, h)).
    revert H2. unfold search_v2.
    destruct (get manifest "sequences" _); cbn; [|done].
    apply for_in_inv. intros seq t.
    destruct (get seq "canvases" _); cbn; [|done].
    apply for_in_inv. intros canvas t'.
    destruct (get canvas "images" _); cbn; [|done].
    apply for_in_inv. intros image t''. unfold v2_image.
    destruct (get image "resource" _); cbn; [|done].
    destruct (get _ "service" _); cbn; [|done].
    apply Hsr.
  - destruct (search_v3 int_of_str manifest) as [[t|]|] eqn:H3; cbn in H;
      [|done|done].
    inversion H; subst t. change (P (url, w, h)).
    revert H3. unfold search_v3.
    destruct (get manifest "items" _); cbn; [|done].
    apply for_in_inv. intros canvas t.
    destruct (get canvas "items" _); cbn; [|done].
    apply for_in_inv. intros page t'.
    destruct (get page "items" _); cbn; [|done].
    apply for_in_inv. intros anno t''. unfold v3_annotation.
    destruct (get anno "body" _); cbn; [|done].
    destruct (get _ "service" _); cbn; [|done].
    apply for_in_inv. intros svc t3. apply Hsr.
Qed.

Lemma init_scale_factors_truthy (url : string)
      (w h tile_size scale_factors label : json) :
  truthy (Manifest.scale_factors
            (init url w h tile_size scale_factors label)) = true.
Proof. cbn. by destruct (truthy scale_factors) eqn:E. Qed.

(** X16. The service of a v2 manifest is that of the first image, in
    document order, that has one: when the manifest is lists of dicts down
    to its images, the images before the first with a service id are
    passed over, and neither the images after it nor the v3 structure are
    looked at. *)
Theorem first_v2_image_wins (int_of_str : string -> option Z)
        (manifest canvas image : json) (l1 l2 : list (json * json))
        (t : string * Z * Z) :
  v2_images manifest = Val (l1 ++ (canvas, image) :: l2) ->
  Forall (fun ci => v2_image int_of_str ci.1 ci.2 = Val None) l1 ->
  v2_image int_of_str canvas image = Val (Some t) ->
  _parse_manifest_image int_of_str manifest = Val t.
Proof.
  intros Hl H1 Ht. unfold _parse_manifest_image.
  rewrite (search_v2_flat _ _ _ Hl).
  by rewrite (for_first_skip l1 l2 (canvas, image) _ t).
Qed.

(** X17. When no image of the v2 structure has a service id, the service
    is the first, in document order, of the services of the v3 annotation
    bodies that has an id. *)
Theorem v3_service_after_v2 (int_of_str : string -> option Z)
        (manifest canvas body svc : json) (l : list (json * json))
        (l1 l2 : list (json * json * json)) (t : string * Z * Z) :
  v2_images manifest = Val l ->
  Forall (fun ci => v2_image int_of_str ci.1 ci.2 = Val None) l ->
  v3_services manifest = Val (l1 ++ (canvas, body, svc) :: l2) ->
  Forall (fun cbs => service_reference int_of_str cbs.1.1 cbs.1.2 cbs.2
                     = Val None) l1 ->
  service_reference int_of_str canvas body svc = Val (Some t) ->
  _parse_manifest_image int_of_str manifest = Val t.
Proof.
  intros Hl Hn Hl3 H1 Ht. unfold _parse_manifest_image.
  rewrite (search_v2_flat _ _ _ Hl), for_first_none by done. cbn.
  rewrite (search_v3_flat _ _ _ Hl3).
  by rewrite (for_first_skip l1 l2 (canvas, body, svc) _ t).
Qed.

(** X18. A manifest none of whose v2 images and none of whose v3 services
    has an id is refused with a ValueError. *)
Theorem no_service_ValueError (int_of_str : string -> option Z)
        (manifest : json) (l : list (json * json))
        (l3 : list (json * json * json)) :
  v2_images manifest = Val l ->
  Forall (fun ci => v2_image int_of_str ci.1 ci.2 = Val None) l ->
  v3_services manifest = Val l3 ->
  Forall (fun cbs => service_reference int_of_str cbs.1.1 cbs.1.2 cbs.2
                     = Val None) l3 ->
  _parse_manifest_image int_of_str manifest = Err ValueError.
Proof.
  intros Hl Hn Hl3 Hn3. unfold _parse_manifest_image.
  rewrite (search_v2_flat _ _ _ Hl), for_first_none by done. cbn.
  by rewrite (search_v3_flat _ _ _ Hl3), for_first_none.
Qed.

(** X19. The tile configuration read from an info document that is a
    dict: without ["tiles"], or with a false one, it is 1024 and [[1]];
    with a true one it is read from the first entry alone, which must be
    a dict, and is taken as found, whatever the values are. *)
Theorem tile_config_dict (kv : list (string * json)) (r : json * json) :
  tile_config (JDict kv) = Val r <->
  match dict_lookup "tiles" kv with
  | None => r = (JInt 1024, JList [JInt 1])
  | Some tiles =>
      if truthy tiles then
        exists d rest,
          tiles = JList (JDict d :: rest) /\
          r = (default (JInt 1024) (dict_lookup "width" d),
               default (JList [JInt 1]) (dict_lookup "scaleFactors" d))
      else r = (JInt 1024, JList [JInt 1])
  end.
Proof.
  unfold tile_config. cbn.
  destruct (dict_lookup "tiles" kv) as [tiles|] eqn:Ht.
  - rewrite bool_decide_eq_true_2 by eauto. cbn.
    destruct (truthy tiles) eqn:Htr.
    + destruct tiles as [|b|n|q|s|[|x rest]|d]; cbn in *; try done.
      * split; [done|]. by intros (d & rest & ? & _).
      * split; [done|]. by intros (d & rest & ? & _).
      * split; [done|]. by intros (d & rest & ? & _).
      * destruct s as [|a s]; cbn; [done|].
        split; [done|]. by intros (d & rest & ? & _).
      * destruct x as [| | | | | |d]; cbn;
          try (split; [done|]; by intros (d & rest' & ? & _)).
        split.
        -- intros H. inversion H. by exists d, rest.
        -- intros (d' & rest' & E & ->). by inversion E.
      * split; [done|]. by intros (d' & rest & ? & _).
    + split; [intros H; by inversion H|by intros ->].
  - rewrite bool_decide_eq_false_2 by (intros [? ?]; done). cbn.
    split; [intros H; by inversion H|by intros ->].
Qed.

(** X20. Resolving a manifest requests the manifest and then at most one
    more document; when it succeeds, that document is the [info.json]
    below the service URL it stores, which does not end with a slash; the
    dimensions it stores are integers, and its scale factors are never
    empty. *)
Theorem from_manifest_requests (int_of_str : string -> option Z)
        (documents : string -> option json) (manifest_url : string)
        (log log' : list string) (r : res Descriptor) :
  from_manifest int_of_str documents manifest_url log = (log', r) ->
  exists us,
    log' = log ++ manifest_url :: us /\ (length us <= 1)%nat /\
    forall d, r = Val d ->
      us = [(image_service_url d ++ "/info.json")%string] /\
      ~ ends_with_slash (image_service_url d) /\
      (exists w h, Manifest.width d = JInt w /\ Manifest.height d = JInt h) /\
      truthy (Manifest.scale_factors d) = true.
Proof.
  unfold from_manifest, fbind, _fetch_json, flift, fret. intros H.
  destruct (documents manifest_url) as [data|];
    [|inversion H; subst; exists []; cbn; split_and!; [done|lia|done]].
  destruct (manifest_label data) as [label|];
    [|inversion H; subst; exists []; cbn; split_and!; [done|lia|done]].
  destruct (_parse_manifest_image int_of_str data) as [[[url w] h]|] eqn:Hp;
    [|inversion H; subst; exists []; cbn; split_and!; [done|lia|done]].
  apply parse_manifest_stripped in Hp.
  exists [(url ++ "/info.json")%string]. rewrite <-app_assoc in H. cbn in H.
  destruct (documents _) as [info|];
    [|inversion H; subst; cbn; split_and!; [done|lia|done]].
  destruct (tile_config info) as [[ts sf]|];
    inversion H; subst; cbn; (split_and!; [done|lia|]); [|done].
  intros d [= <-]. cbn -[truthy]. rewrite (rstrip_slash_fixed url Hp).
  split_and!; [done|done|by eexists _, _|].
  by destruct (truthy sf) eqn:E.
Qed.

(** X21. Resolving an image service URL requests exactly one document,
    the [info.json] below the URL as it was given, whether or not the
    resolution succeeds; when it succeeds the document is a dict, the
    dimensions stored are its ["width"] and ["height"] as found, the URL
    stored has lost its trailing slashes, and the scale factors are never
    empty. *)
Theorem from_image_url_request (documents : string -> option json)
        (image_service_url : string) (log log' : list string)
        (r : res Descriptor) :
  from_image_url documents image_service_url log = (log', r) ->
  log' = log ++ [(image_service_url ++ "/info.json")%string] /\
  forall d, r = Val d ->
    Manifest.image_service_url d = rstrip_slash image_service_url /\
    truthy (Manifest.scale_factors d) = true /\
    exists kv,
      documents (image_service_url ++ "/info.json")%string = Some (JDict kv) /\
      dict_lookup "width" kv = Some (Manifest.width d) /\
      dict_lookup "height" kv = Some (Manifest.height d).
Proof.
  unfold from_image_url, fbind, _fetch_json, flift, fret. intros H.
  destruct (documents _) as [info|]; [|by inversion H].
  destruct (getitem info "width") as [w|] eqn:Hw; [|by inversion H].
  destruct (getitem info "height") as [h|] eqn:Hh; [|by inversion H].
  destruct (tile_config info) as [[ts sf]|]; [|by inversion H].
  destruct (get info "label" (JStr "")) as [label|]; [|by inversion H].
  inversion H; subst. split; [done|]. intros d [= <-].
  split; [done|]. split; [apply init_scale_factors_truthy|].
  destruct info as [| | | | | |kv]; try done. exists kv. cbn in Hw, Hh.
  destruct (dict_lookup "width" kv); [|done].
  destruct (dict_lookup "height" kv); [|done].
  split; [done|]. cbn. by inversion Hw; inversion Hh.
Qed.

End ManifestFacts.

(** * The table of a patch set *)

Section PatchSetFacts.
Import Py Geo Np Images Spec PatchSets.

Lemma patch_geo_is_Some (self : MapImage) (patch_size overlap : Z)
      (blank_threshold : Q) (skip_blank : bool) (ps : list Patch) (p : Patch) :
  Images.patchify self patch_size overlap blank_threshold skip_blank = Ok ps ->
  p ∈ ps ->
  bool_decide (is_Some (geo_bounds p)) = is_georeferenced self.
Proof.
  intros Hps Hp. rewrite patchify_eq_grid in Hps.
  destruct (patch_size - overlap <=? 0); [done|]. injection Hps as <-.
  apply elem_of_grid_patches in Hp as (r & c & _ & _ & Hp).
  destruct (candidate_image _ _ _ _ _ _ _ _ Hp) as (_ & _ & Hg).
  cbv zeta in Hg. rewrite Hg. unfold is_georeferenced.
  destruct (crs self), (transform self); done.
Qed.

Lemma existsb_const {A} (f : A -> bool) (b : bool) (l : list A) :
  (forall a, a ∈ l -> f a = b) ->
  existsb f l = b && match l with [] => false | _ => true end.
Proof.
  induction l as [|a l IH]; intros Hf; cbn; [by destruct b|].
  rewrite (Hf a) by left. destruct b; cbn; [done|].
  rewrite IH by (intros a' Ha'; apply Hf; by right). done.
Qed.

(** X22. The table of the patches of an image is a GeoDataFrame exactly
    when the image has both a CRS and a transform and there is at least
    one patch; it then carries the image's CRS and a geometry for every
    patch, none of them missing. In every other case, also that of an
    image that has a CRS but no transform, it is a plain DataFrame. *)
Theorem to_dataframe_of_patchify (self : MapImage) (patch_size overlap : Z)
        (blank_threshold : Q) (skip_blank : bool) (s : PatchSet) :
  PatchSets.patchify self patch_size overlap blank_threshold skip_blank
  = Ok s ->
  match to_dataframe s with
  | GeoDataFrame recs geoms c =>
      is_georeferenced self = true /\ patches s <> [] /\
      crs self = Some c /\
      length recs = length (patches s) /\
      geoms = geo_bounds <$> patches s /\ Forall is_Some geoms
  | DataFrame recs =>
      (is_georeferenced self = false \/ patches s = []) /\
      length recs = length (patches s)
  end.
Proof.
  unfold PatchSets.patchify. intros Hs.
  destruct (Images.patchify _ _ _ _ _) as [ps|] eqn:Hps; [|done].
  cbn in Hs. injection Hs as <-. unfold to_dataframe. cbn [patches parent].
  pose proof (existsb_const
                (fun p => bool_decide (is_Some (geo_bounds p)))
                (is_georeferenced self) ps
                (fun p Hp => patch_geo_is_Some _ _ _ _ _ _ _ Hps Hp)) as He.
  destruct (crs self) as [c|] eqn:Hc.
  - rewrite He. destruct (is_georeferenced self) eqn:Hg; cbn.
    + destruct ps as [|p ps']; [by rewrite length_imap; auto|].
      split_and!; [done|done|done|by rewrite length_imap|done|].
      apply Forall_fmap, Forall_forall. intros q Hq. cbn.
      apply (bool_decide_eq_true_1 (is_Some (geo_bounds q))).
      rewrite (patch_geo_is_Some _ _ _ _ _ _ _ Hps) by done. done.
    + rewrite length_imap. auto.
  - rewrite length_imap. split; [|done]. left. unfold is_georeferenced.
    by rewrite Hc.
Qed.

End PatchSetFacts.

(** * The grid of patches drawn by [show_patches] *)

Section VisFacts.
Import Py Np Images PatchSets Vis VisSpec.

Lemma vfor_appends {A} (body : A -> V unit) (g : A -> list event)
      (l : list A) (evs : list event) :
  (forall a evs', a ∈ l -> body a evs' = (evs' ++ g a, Done tt)) ->
  vfor l body evs = (evs ++ mjoin (g <$> l), Done tt).
Proof.
  revert evs. induction l as [|a l IH]; intros evs Hb; cbn.
  - by rewrite app_nil_r.
  - unfold vbind. rewrite Hb by left.
    rewrite IH by (intros a' evs' Ha'; apply Hb; by right).
    by rewrite <-app_assoc.
Qed.

Lemma np_index_Done {A} (l : list A) (i : nat) (a : A) :
  l !! i = Some a -> np_index l (Z.of_nat i) = Done a.
Proof.
  intros Hi. pose proof (lookup_lt_Some _ _ _ Hi). unfold np_index.
  replace (Z.of_nat i <? 0) with false by lia.
  replace ((0 <=? Z.of_nat i) && (Z.of_nat i <? Z.of_nat (length l)))
    with true by lia.
  by rewrite Nat2Z.id, Hi.
Qed.

Lemma grid_lookup (rows cols r c : nat) :
  (r < rows)%nat -> (c < cols)%nat ->
  axes_getitem ((fun r => (fun c => (r, c)) <$> seq 0 cols) <$> seq 0 rows)
               (Z.of_nat r) (Z.of_nat c)
  = Done (r, c).
Proof.
  intros Hr Hc. unfold axes_getitem.
  rewrite (np_index_Done _ r ((fun c => (r, c)) <$> seq 0 cols)).
  - apply np_index_Done. rewrite list_lookup_fmap, lookup_seq_lt by done.
    done.
  - rewrite list_lookup_fmap, lookup_seq_lt by done. done.
Qed.

(** The array that the cells are looked up in, when there are at least
    two columns, is the grid itself. *)
Lemma axes_of_grid (rows cols : Z) :
  1 <= rows -> 2 <= cols ->
  exists axes,
    subplots rows cols = Done axes /\
    atleast_2d (if (rows =? 1) && (cols =? 1) then np_array_of axes
                else axes)
    = (fun r => (fun c => (r, c)) <$> seq 0 (Z.to_nat cols))
        <$> seq 0 (Z.to_nat rows).
Proof.
  intros Hr Hc. unfold subplots.
  replace ((rows <=? 0) || (cols <=? 0)) with false by lia.
  replace ((rows =? 1) && (cols =? 1)) with false by lia.
  replace (cols =? 1) with false by lia. rewrite orb_false_r.
  destruct (rows =? 1) eqn:E.
  - apply Z.eqb_eq in E. subst rows. eexists. split; [done|].
    change (Z.to_nat 1) with 1%nat. cbn. by rewrite app_nil_r.
  - eexists. split; done.
Qed.

Lemma grid_rows_bounds (n cols : Z) :
  1 <= n -> 1 <= cols ->
  let rows := (n + cols - 1) / cols in
  1 <= rows /\ n <= rows * cols < n + cols.
Proof.
  intros Hn Hc rows.
  pose proof (Z.div_mod (n + cols - 1) cols ltac:(lia)) as Hd.
  pose proof (Z.mod_pos_bound (n + cols - 1) cols ltac:(lia)) as Hm.
  fold rows in Hd. split; [|nia].
  apply (Z.div_le_lower_bound (n + cols - 1) cols 1); lia.
Qed.

Lemma cell_in_grid (rows cols : Z) (i : nat) :
  1 <= cols -> Z.of_nat i < rows * cols ->
  Z.of_nat i / cols = Z.of_nat (cell cols i).1 /\
  Z.of_nat i mod cols = Z.of_nat (cell cols i).2 /\
  ((cell cols i).1 < Z.to_nat rows)%nat /\
  ((cell cols i).2 < Z.to_nat cols)%nat.
Proof.
  intros Hc Hi. unfold cell. cbn.
  pose proof (Z.mod_pos_bound (Z.of_nat i) cols ltac:(lia)).
  assert (0 <= Z.of_nat i / cols) by (apply Z.div_pos; lia).
  assert (Z.of_nat i / cols < rows)
    by (apply Z.div_lt_upper_bound; lia).
  lia.
Qed.

Lemma getitem_lt (patch_set : PatchSet) (i : nat) :
  (i < length (patches patch_set))%nat ->
  __getitem__ patch_set (Z.of_nat i) = patches patch_set !! i.
Proof.
  intros Hi. unfold __getitem__, __len__.
  replace ((0 <=? Z.of_nat i)
           && (Z.of_nat i <? Z.of_nat (length (patches patch_set))))
    with true by lia.
  by rewrite Nat2Z.id.
Qed.

Lemma show_cell_grid (displayable : ndarray -> bool) (patch_set : PatchSet)
      (n rows cols : Z) (i : nat) (evs : list event) :
  1 <= cols -> Z.of_nat i < rows * cols ->
  n <= __len__ patch_set ->
  Forall (fun p => displayable (image p) = true)
         (take (Z.to_nat n) (patches patch_set)) ->
  show_cell displayable patch_set
            ((fun r => (fun c => (r, c)) <$> seq 0 (Z.to_nat cols))
               <$> seq 0 (Z.to_nat rows))
            n cols (Z.of_nat i) evs
  = (evs ++ cell_events patch_set n cols (Z.of_nat i), Done tt).
Proof.
  intros Hc Hi Hn Hd. unfold show_cell, cell_events, vbind, vlift.
  destruct (cell_in_grid rows cols i Hc Hi) as (E1 & E2 & L1 & L2).
  rewrite E1, E2, grid_lookup by done. rewrite Nat2Z.id.
  destruct (cell cols i) as [r c] eqn:Ecell. cbn [fst snd].
  destruct (Z.of_nat i <? n) eqn:Hin.
  - unfold __len__ in Hn.
    rewrite getitem_lt by lia.
    destruct (patches patch_set !! i) as [p|] eqn:Hp;
      [|apply lookup_ge_None in Hp; lia].
    unfold imshow. rewrite Forall_forall in Hd. rewrite Hd.
    + unfold emit. cbn. by rewrite <-!app_assoc.
    + apply (list_elem_of_lookup_2 _ i). rewrite lookup_take_lt by lia. done.
  - unfold vret, emit. done.
Qed.

Lemma shown_cell_events (patch_set : PatchSet) (n cols : Z) (i : nat) :
  omap shown (cell_events patch_set n cols (Z.of_nat i))
  = if Z.of_nat i <? n then
      match patches patch_set !! i with
      | Some p => [(cell cols i, image p)]
      | None => []
      end
    else [].
Proof.
  unfold cell_events. rewrite Nat2Z.id.
  destruct (Z.of_nat i <? n); [|done].
  by destruct (patches patch_set !! i).
Qed.

Lemma switched_off_cell_events (patch_set : PatchSet) (n cols : Z) (i : nat) :
  omap switched_off (cell_events patch_set n cols (Z.of_nat i))
  = [cell cols i].
Proof.
  unfold cell_events. rewrite Nat2Z.id.
  destruct (Z.of_nat i <? n); [|done].
  by destruct (patches patch_set !! i).
Qed.

Lemma shown_cells (patch_set : PatchSet) (n cols : Z) (m : nat) :
  n <= __len__ patch_set ->
  omap shown (mjoin ((fun i => cell_events patch_set n cols (Z.of_nat i))
                       <$> seq 0 m))
  = imap (fun i p => (cell cols i, image p))
         (take (m `min` Z.to_nat n) (patches patch_set)).
Proof.
  unfold __len__. intros Hn. induction m as [|m IH]; [done|].
  rewrite seq_S, fmap_app, join_app, omap_app, IH. cbn [fmap list_fmap mjoin
    list_join]. rewrite app_nil_r, shown_cell_events. cbn [Nat.add].
  destruct (Z.of_nat m <? n) eqn:Hm.
  - destruct (patches patch_set !! m) as [p|] eqn:Hp;
      [|apply lookup_ge_None in Hp; lia].
    replace (S m `min` Z.to_nat n)%nat with (S m) by lia.
    replace (m `min` Z.to_nat n)%nat with m by lia.
    rewrite (take_S_r _ _ p Hp), imap_app. cbn.
    rewrite length_take. pose proof (lookup_lt_Some _ _ _ Hp).
    replace (m `min` length (patches patch_set) + 0)%nat with m by lia.
    done.
  - rewrite app_nil_r.
    replace (S m `min` Z.to_nat n)%nat with (m `min` Z.to_nat n)%nat by lia.
    done.
Qed.

Lemma switched_off_cells (patch_set : PatchSet) (n cols : Z) (m : nat) :
  omap switched_off
       (mjoin ((fun i => cell_events patch_set n cols (Z.of_nat i))
                 <$> seq 0 m))
  = cell cols <$> seq 0 m.
Proof.
  induction m as [|m IH]; [done|].
  rewrite seq_S, !fmap_app, join_app, omap_app, IH. cbn.
  by rewrite app_nil_r, switched_off_cell_events.
Qed.

(** X23. With at least two columns, a positive maximum and every shown
    raster accepted by [imshow], the grid is drawn without an error: of
    the first [min(len, max_patches)] patches, in order, patch [i] is
    drawn on the Axes of row [i // cols] and column [i % cols]; every
    Axes of the grid is switched off once, row by row; and the grid has
    no row without a patch. *)
Theorem show_patches_grid (displayable : ndarray -> bool)
        (patch_set : PatchSet) (max_patches cols : Z) (evs : list event) :
  2 <= cols ->
  0 < max_patches ->
  patches patch_set <> [] ->
  let n := shown_count patch_set max_patches in
  let rows := grid_rows patch_set max_patches cols in
  Forall (fun p => displayable (image p) = true)
         (take (Z.to_nat n) (patches patch_set)) ->
  exists new,
    show_patches displayable patch_set max_patches cols evs
    = (evs ++ new, Done tt) /\
    omap shown new
    = imap (fun i p => (cell cols i, image p))
           (take (Z.to_nat n) (patches patch_set)) /\
    omap switched_off new = cell cols <$> seq 0 (Z.to_nat (rows * cols)) /\
    n <= rows * cols < n + cols.
Proof.
  intros Hc Hmax Hne n rows Hd.
  assert (Hlen : 1 <= __len__ patch_set).
  { unfold __len__. destruct (patches patch_set); [done|]. cbn. lia. }
  assert (Hn : 1 <= n <= __len__ patch_set)
    by (unfold n, shown_count; lia).
  destruct (grid_rows_bounds n cols) as [Hr Hb]; [lia|lia|].
  change ((n + cols - 1) / cols) with rows in Hr, Hb.
  destruct (axes_of_grid rows cols Hr Hc) as (axes & Hax & Hgrid).
  exists (mjoin ((fun i => cell_events patch_set n cols (Z.of_nat i))
                   <$> seq 0 (Z.to_nat (rows * cols)))
          ++ [TightLayout; Show]).
  split_and!; [| | |lia|lia].
  - unfold show_patches. fold (shown_count patch_set max_patches). fold n.
    replace (n =? 0) with false by lia.
    replace (cols =? 0) with false by lia.
    change ((n + cols - 1) / cols) with rows.
    unfold vbind at 1. unfold vlift at 1. rewrite Hax, Hgrid.
    unfold vbind.
    rewrite (vfor_appends _ (cell_events patch_set n cols)).
    + unfold emit. rewrite <-!app_assoc. cbn.
      replace (rows * cols) with (Z.of_nat (Z.to_nat (rows * cols))) at 1
        by lia.
      rewrite range_of_nat, <-list_fmap_compose. done.
    + intros a evs' Ha.
      replace (rows * cols) with (Z.of_nat (Z.to_nat (rows * cols))) in Ha
        by lia.
      rewrite range_of_nat in Ha.
      apply list_elem_of_fmap in Ha as (i & -> & Hi).
      apply elem_of_seq in Hi.
      apply (show_cell_grid displayable patch_set n rows cols i); [lia|lia| |done].
      lia.
  - rewrite omap_app, shown_cells by lia. cbn. rewrite app_nil_r.
    replace (Z.to_nat (rows * cols) `min` Z.to_nat n)%nat with (Z.to_nat n)
      by lia.
    done.
  - rewrite omap_app, switched_off_cells. cbn. by rewrite app_nil_r.
Qed.

Lemma show_cell_first (displayable : ndarray -> bool) (patch_set : PatchSet)
      (l : list Axes) (ax : Axes) (n : Z) (evs : list event)
      (p0 : Patch) (rest : list Patch) :
  l !! 0%nat = Some ax ->
  0 < n ->
  patches patch_set = p0 :: rest ->
  displayable (image p0) = true ->
  show_cell displayable patch_set [l] n 1 0 evs
  = (evs ++ [Imshow ax (image p0); SetTitle ax (row p0) (col p0); AxisOff ax],
     Done tt).
Proof.
  intros Hl Hn Hps Hd. unfold show_cell, vbind, vlift.
  change (0 / 1) with 0. change (0 mod 1) with 0.
  unfold axes_getitem. change (np_index [l] 0) with (Done (A := list Axes) l).
  pose proof (np_index_Done l 0 ax Hl) as E.
  change (Z.of_nat 0) with 0 in E. cbv iota. rewrite E.
  replace (0 <? n) with true by lia.
  pose proof (getitem_lt patch_set 0) as G.
  change (Z.of_nat 0) with 0 in G. rewrite G by (rewrite Hps; cbn; lia).
  rewrite Hps. cbn [lookup list_lookup]. unfold imshow. rewrite Hd.
  unfold emit. by rewrite <-!app_assoc.
Qed.

Lemma show_cell_second (displayable : ndarray -> bool) (patch_set : PatchSet)
      (l : list Axes) (n : Z) (evs : list event) :
  show_cell displayable patch_set [l] n 1 1 evs = (evs, Raised IndexError).
Proof. reflexivity. Qed.

Lemma subplots_column (m : nat) :
  exists l,
    subplots (Z.of_nat (S (S m))) 1 = Done (Ax1 ((0%nat, 0%nat) :: l)).
Proof.
  unfold subplots.
  assert ((Z.of_nat (S (S m)) <=? 0) = false) as -> by (apply Z.leb_gt; lia).
  assert ((Z.of_nat (S (S m)) =? 1) = false) as -> by (apply Z.eqb_neq; lia).
  rewrite Nat2Z.id. cbn. eauto.
Qed.

(** X24. With a single column and at least two patches to show, the call
    fails: the first patch is drawn and its Axes switched off, and the
    lookup of the second cell raises an IndexError, since the column of
    Axes has become a single row. *)
Theorem show_patches_single_column (displayable : ndarray -> bool)
        (patch_set : PatchSet) (max_patches : Z) (evs : list event)
        (p0 p1 : Patch) (rest : list Patch) :
  patches patch_set = p0 :: p1 :: rest ->
  2 <= max_patches ->
  displayable (image p0) = true ->
  show_patches displayable patch_set max_patches 1 evs
  = (evs ++ [Imshow (0%nat, 0%nat) (image p0);
             SetTitle (0%nat, 0%nat) (row p0) (col p0);
             AxisOff (0%nat, 0%nat)],
     Raised IndexError).
Proof.
  intros Hps Hmax Hd. unfold show_patches.
  set (n := Z.min (__len__ patch_set) max_patches).
  assert (Hlen : __len__ patch_set = Z.of_nat (S (S (length rest))))
    by (unfold __len__; by rewrite Hps).
  assert (Hn : exists m, n = Z.of_nat (S (S m))).
  { exists (Z.to_nat (n - 2)). unfold n. lia. }
  destruct Hn as [m Hn].
  replace (n =? 0) with false by lia. change (1 =? 0) with false. cbv iota.
  replace ((n + 1 - 1) / 1) with n by (rewrite Z.div_1_r; lia).
  change (1 =? 1) with true. rewrite andb_true_r.
  replace (n =? 1) with false by lia.
  rewrite Z.mul_1_r, Hn. destruct (subplots_column m) as [l ->].
  rewrite range_of_nat. unfold vbind at 1. unfold vlift at 1.
  cbn [atleast_2d seq fmap list_fmap vfor].
  unfold vbind.
  change (Z.of_nat 0) with 0. change (Z.of_nat 1) with 1.
  by rewrite (show_cell_first displayable patch_set _ (0%nat, 0%nat) _ evs
                              p0 (p1 :: rest)), show_cell_second
    by (done || lia).
Qed.

End VisFacts.

(** ** The further properties on sample inputs *)

Section MoreWorked.
Import Py Geo Np Images ImagesMore Downloader Spec Extra Examples.
Import PyVal Manifest ManifestSpec PatchSets Vis VisSpec MoreExamples.

(** X1 on the last patch of the sheet. *)
Lemma patches_inside_raster_witness :
  exists x y pw ph,
    pixel_bounds (mkPatch (Arr2 uint8 [[9]]) (4, 2, 1, 1) None 1 2)
    = (x, y, pw, ph) /\
    0 <= x /\ 0 <= y /\ 0 < pw /\ 0 < ph /\
    x + pw <= Images.width sheet /\ y + ph <= Images.height sheet /\
    nd_shape0 (Arr2 uint8 [[9]]) = ph /\ nd_shape1 (Arr2 uint8 [[9]]) = pw.
Proof.
  eapply (patches_inside_raster sheet 2 0 (95 # 100) true).
  - simpl. repeat constructor.
  - vm_compute. reflexivity.
  - do 3 right. left.
Defined.

(** X2 on the same patch: its one sample is that of row 2, column 4. *)
Lemma patch_image_is_window_witness :
  let p := mkPatch (Arr2 uint8 [[9]]) (4, 2, 1, 1) None 1 2 in
  is_Some (nd_pixel (image p) 0 0) /\
  nd_pixel (image p) 0 0 = nd_pixel (data sheet) 2 4.
Proof.
  intros p.
  refine (patch_image_is_window sheet 2 0 (95 # 100) true _ p _ _ _ _
                                0%nat 0%nat _ _).
  - lia.
  - simpl. repeat constructor.
  - vm_compute. reflexivity.
  - do 3 right. left.
  - reflexivity.
  - reflexivity.
Defined.

(** X3 on the dark sheet, patches of 2. *)
Lemma patchify_covers_witness :
  exists ps,
    Images.patchify dark_sheet 2 0 (95 # 100) false = Ok ps /\
    forall px py,
      0 <= px < Images.width dark_sheet ->
      0 <= py < Images.height dark_sheet ->
      exists p, p ∈ ps /\ covers p px py.
Proof.
  apply (patchify_covers dark_sheet 2 0 (95 # 100) false).
  - lia.
  - lia.
  - simpl. repeat constructor.
  - apply none_blank_skipped_false.
Defined.

(** X4 on the dark sheet, patches of 3: a 1 x 2 grid whose second patch
    is one pixel wide. *)
Lemma patchify_partitions_witness :
  exists ps,
    Images.patchify dark_sheet 3 0 (95 # 100) false = Ok ps /\
    Z.of_nat (length ps)
    = ceil_div (Images.height dark_sheet) 3
      * ceil_div (Images.width dark_sheet) 3 /\
    forall px py,
      0 <= px < Images.width dark_sheet ->
      0 <= py < Images.height dark_sheet ->
      exists i p, ps !! i = Some p /\ covers p px py /\
        forall j q, ps !! j = Some q -> covers q px py -> j = i.
Proof.
  apply (patchify_partitions dark_sheet 3 (95 # 100) false).
  - lia.
  - simpl. repeat constructor.
  - apply none_blank_skipped_false.
Defined.

(** X5 on the dark sheet. *)
Lemma patchify_uint8_no_white_witness :
  Images.patchify dark_sheet 2 0 (95 # 100) true
  = Images.patchify dark_sheet 2 0 (95 # 100) false.
Proof.
  apply (patchify_uint8_no_white dark_sheet 2 0 (95 # 100)).
  - reflexivity.
  - simpl. repeat constructor;
      (intros Hw; apply Forall_inv in Hw; lia).
  - unfold Qle. simpl. lia.
Defined.

(** X6 on the zero sheet: every patch is skipped. *)
Lemma patchify_other_dtype_zero_witness :
  Images.patchify zero_sheet 1 0 (1 # 2) true = Ok [].
Proof.
  destruct (patchify_other_dtype_zero zero_sheet 1 0 (1 # 2)) as [_ H].
  - reflexivity.
  - apply H.
    + simpl. repeat constructor.
    + simpl. repeat constructor; done.
    + reflexivity.
    + lia.
Defined.




(** X10 on the second patch of the georeferenced sheet. *)
Lemma patch_geo_bounds_attached_witness :
  let p := mkPatch (Arr2 uint8 [[3; 4]; [7; 8]]) (2, 0, 2, 2)
                   (Some (mkBounds (202 # 2) (398 # 2) (204 # 2) (400 # 2)))
                   0 1 in
  exists x y w h b,
    pixel_bounds p = (x, y, w, h) /\
    geo_bounds p = Some b /\
    (left b, top b) = pixel_to_geo (inject_Z x) (inject_Z y) north_up /\
    (right b, bottom b)
    = pixel_to_geo (inject_Z (x + w)) (inject_Z (y + h)) north_up.
Proof.
  intros p.
  refine (patch_geo_bounds_attached geo_sheet 2 0 (95 # 100) true _ p _ _).
  - vm_compute. reflexivity.
  - right. left.
Defined.

(** X11 on the dark sheet with a patch size of 4. *)
Lemma patchify_whole_image_witness :
  Images.patchify dark_sheet 4 0 (95 # 100) false
  = Ok [mkPatch (data dark_sheet) (0, 0, 4, 2) None 0 0].
Proof.
  apply (patchify_whole_image dark_sheet 4 (95 # 100) false).
  - vm_compute. split; [reflexivity|discriminate].
  - vm_compute. split; [reflexivity|discriminate].
  - simpl. repeat constructor.
  - reflexivity.
Defined.


(** X13 on a 5 x 3 image fitted into 4 pixels. *)
Lemma download_requests_witness :
  (download grey_server (mkIIIF 5 3 2) (Some 4) []).1
  = [mkUrl RegionFull (SizeFit 4 4)].
Proof.
  assert (Hrun : download grey_server (mkIIIF 5 3 2) (Some 4) []
                 = ([mkUrl RegionFull (SizeFit 4 4)], Raise Py.URLError)).
  { vm_compute. reflexivity. }
  rewrite Hrun.
  exact (download_requests grey_server (mkIIIF 5 3 2) (Some 4) _ _ Hrun).
Defined.

(** X14: a 2 x 2 tile written at column 3 of a canvas 4 wide. *)
Lemma stitch_overhang_raises_witness :
  stitch (replicate 2 (replicate 4 [0; 0; 0])) 3 0
         (np_array (convert_RGB (mkPIL L [[[5]; [6]]; [[7]; [8]]])))
  = Raise Py.ValueError.
Proof.
  apply (stitch_overhang_raises (replicate 2 (replicate 4 [0; 0; 0]))
                                3 0 2 4 (mkPIL L [[[5]; [6]]; [[7]; [8]]])).
  - reflexivity.
  - simpl. repeat constructor.
  - lia.
  - lia.
  - reflexivity.
  - reflexivity.
  - right. reflexivity.
Defined.


(** X16 on the v2 manifest: the image without a service is passed
    over; the height is the resource's, the width the canvas's. *)
Lemma first_v2_image_wins_witness :
  _parse_manifest_image no_int_of_str v2_manifest
  = Val ("http://s/img", 10, 7).
Proof.
  apply (first_v2_image_wins no_int_of_str v2_manifest v2_canvas
           served_image [(v2_canvas, bare_image)] []).
  - reflexivity.
  - repeat constructor.
  - reflexivity.
Defined.

(** X17 on the v3 manifest: the service without an id is passed over. *)
Lemma v3_service_after_v2_witness :
  _parse_manifest_image no_int_of_str v3_manifest
  = Val ("http://s/v3", 30, 40).
Proof.
  apply (v3_service_after_v2 no_int_of_str v3_manifest v3_canvas v3_body
           (JDict [("id", JStr "http://s/v3")]) []
           [(v3_canvas, v3_body, JDict [("type", JStr "ImageService3")])]
           []).
  - reflexivity.
  - constructor.
  - reflexivity.
  - repeat constructor.
  - reflexivity.
Defined.

(** X18 on the manifest whose one image has no service. *)
Lemma no_service_ValueError_witness :
  _parse_manifest_image no_int_of_str bare_manifest = Err PyVal.ValueError.
Proof.
  apply (no_service_ValueError no_int_of_str bare_manifest
           [(bare_canvas, bare_image)] []).
  - reflexivity.
  - repeat constructor.
  - reflexivity.
  - constructor.
Defined.

(** X20 on the sample server. *)
Lemma from_manifest_requests_witness :
  exists d us,
    from_manifest no_int_of_str documents "http://s/manifest" []
    = ("http://s/manifest" :: us, Val d) /\
    us = [(image_service_url d ++ "/info.json")%string] /\
    ~ ends_with_slash (image_service_url d) /\
    (exists w h, Manifest.width d = JInt w /\ Manifest.height d = JInt h) /\
    truthy (Manifest.scale_factors d) = true.
Proof.
  assert (Hrun : exists log d,
    from_manifest no_int_of_str documents "http://s/manifest" []
    = (log, Val d)).
  { eexists _, _. vm_compute. reflexivity. }
  destruct Hrun as (log & d & Hrun).
  destruct (from_manifest_requests no_int_of_str documents
              "http://s/manifest" [] log (Val d) Hrun)
    as (us & Hlog & _ & Hd).
  exists d, us. split; [by rewrite Hrun, Hlog|]. by apply Hd.
Defined.

(** X21 on the sample server, the URL given with a trailing slash. *)
Lemma from_image_url_request_witness :
  exists d,
    from_image_url documents "http://s/img/" []
    = (["http://s/img//info.json"], Val d) /\
    Manifest.image_service_url d = "http://s/img" /\
    truthy (Manifest.scale_factors d) = true.
Proof.
  assert (Hrun : exists log d,
    from_image_url documents "http://s/img/" [] = (log, Val d)).
  { eexists _, _. vm_compute. reflexivity. }
  destruct Hrun as (log & d & Hrun).
  destruct (from_image_url_request documents "http://s/img/" [] log (Val d)
              Hrun) as (Hlog & Hd).
  destruct (Hd d eq_refl) as (Hurl & Hsf & _).
  exists d. split; [by rewrite Hrun, Hlog|]. split; [exact Hurl|exact Hsf].
Defined.

(** X22 on the georeferenced sheet, patches of 2. *)
Lemma to_dataframe_of_patchify_witness :
  exists recs geoms,
    to_dataframe geo_patches = GeoDataFrame recs geoms 4326 /\
    geoms = geo_bounds <$> patches geo_patches /\
    Forall is_Some geoms.
Proof.
  pose proof (to_dataframe_of_patchify geo_sheet 2 0 (95 # 100) true
                geo_patches) as H.
  destruct (to_dataframe geo_patches) as [recs|recs geoms c] eqn:E;
    [vm_compute in E; discriminate|].
  destruct H as (_ & _ & Hc & _ & Hg & Hs); [vm_compute; reflexivity|].
  exists recs, geoms. injection Hc as <-. done.
Defined.

(** X23 on three patches in two columns: a 2 x 2 grid whose last Axes
    shows nothing. *)
Lemma show_patches_grid_witness :
  exists new,
    show_patches all_displayable three_patches 25 2 [] = ([] ++ new, Done tt) /\
    omap shown new
    = [((0%nat, 0%nat), Arr2 uint8 [[1]]);
       ((0%nat, 1%nat), Arr2 uint8 [[2]]);
       ((1%nat, 0%nat), Arr2 uint8 [[3]])] /\
    omap switched_off new
    = [(0%nat, 0%nat); (0%nat, 1%nat); (1%nat, 0%nat); (1%nat, 1%nat)].
Proof.
  destruct (show_patches_grid all_displayable three_patches 25 2 [])
    as (new & Hrun & Hshown & Hoff & _).
  - lia.
  - lia.
  - done.
  - repeat constructor.
  - exists new. split; [exact Hrun|]. split; [exact Hshown|exact Hoff].
Defined.

(** X24 on three patches in one column. *)
Lemma show_patches_single_column_witness :
  show_patches all_displayable three_patches 25 1 []
  = ([] ++ [Imshow (0%nat, 0%nat) (Arr2 uint8 [[1]]);
            SetTitle (0%nat, 0%nat) 0 0;
            AxisOff (0%nat, 0%nat)],
     Raised IndexError).
Proof.
  apply (show_patches_single_column all_displayable three_patches 25 []
           (mkPatch (Arr2 uint8 [[1]]) (0, 0, 1, 1) None 0 0)
           (mkPatch (Arr2 uint8 [[2]]) (1, 0, 1, 1) None 0 1)
           [mkPatch (Arr2 uint8 [[3]]) (2, 0, 1, 1) None 0 2]).
  - reflexivity.
  - lia.
  - reflexivity.
Defined.

End MoreWorked.
